(** * LED voltage calculator: the numeric core, embedded and verified

    The Python sources under [core_functions/] are embedded one module per
    source file.  Python [float] values are embedded as exact rationals
    ([Q]): every function below does to its rationals what the source does
    to its floats, operation for operation and in the same order.  Where a
    property speaks about the bits of a result ([Step5Interpolation1],
    [Step4Calc3Binary64]) the same definition is also run on IEEE binary64
    ([PrimFloat]).  Exceptions are
    values of [pyerr] carried in a sum type. *)

From Stdlib Require Import List ZArith QArith Qround Qabs Lqa Lia Bool String.
From Stdlib Require Import Floats Permutation Sorted ArithRing ZifyNat.
Import ListNotations.

Set Implicit Arguments.

(* ================================================================== *)
(** * Shared Python prelude *)
(* ================================================================== *)

Module Py.

(** The exceptions the embedded functions can raise. *)
Inductive pyerr : Type :=
| ValueError (msg : string)
| FileNotFoundError (msg : string)
| ZeroDivisionError
| IndexError.

(** [result A]: either the exception that escaped or the value returned. *)
Definition result (A : Type) : Type := (pyerr + A)%type.

Definition ret {A} (a : A) : result A := inr a.
Definition raise {A} (e : pyerr) : result A := inl e.
Definition bind {A B} (m : result A) (k : A -> result B) : result B :=
  match m with
  | inl e => inl e
  | inr a => k a
  end.

(** A list comprehension whose body may raise: stops at the first
    exception, left to right. *)
Fixpoint mapM {A B} (f : A -> result B) (l : list A) : result (list B) :=
  match l with
  | [] => ret []
  | a :: l' => bind (f a) (fun b => bind (mapM f l') (fun bs => ret (b :: bs)))
  end.

(** Comparisons on floats, as booleans. *)
Definition Qltb (a b : Q) : bool := negb (Qle_bool b a).
Definition Qgtb (a b : Q) : bool := Qltb b a.
Definition Qgeb (a b : Q) : bool := Qle_bool b a.

(** [sum(l)]: Python folds from the integer 0, left to right. *)
Definition sum (l : list Q) : Q := fold_left Qplus l 0.

(** [a / b] on floats raises [ZeroDivisionError] on a zero divisor. *)
Definition div (a b : Q) : result Q :=
  if Qeq_bool b 0 then raise ZeroDivisionError else ret (a / b).

(** [l[b:e]] for [0 <= b <= e]. *)
Definition slice {A} (b e : nat) (l : list A) : list A :=
  firstn (e - b)%nat (skipn b l).

(** [l[b:e] = new] for [0 <= b <= e]. *)
Definition set_slice {A} (b e : nat) (new l : list A) : list A :=
  firstn b l ++ new ++ skipn e l.

(** A CSV cell as the readers see it after [strip()]: empty, a numeric
    literal (with the value [float()] gives it), or any other text, on
    which [float()] raises [ValueError]. *)
Inductive cell : Type :=
| Blank
| Number (q : Q)
| Text (s : string).

End Py.

Import Py.

(* ================================================================== *)
(** * core_functions/step4_mixbin_calc_3.py : group normalisation *)
(* ================================================================== *)

Module Step4Calc3.

Definition GROUP_SIZE : nat := 4.
Definition NUM_GROUPS : nat := 5.
Definition TOTAL_COLS : nat := (GROUP_SIZE * NUM_GROUPS)%nat.

(** [_to_float]: blank is 0.0, a numeric literal its value, anything else
    raises. *)
Definition _to_float (c : cell) : result Q :=
  match c with
  | Blank => ret 0
  | Number q => ret q
  | Text s => raise (ValueError s)
  end.

(** Python's [round(y)] to an integer: nearest, ties to even. *)
Definition round_half_even (y : Q) : Z :=
  let f := Qfloor y in
  let d := y - inject_Z f in
  if Qltb d (1#2) then f
  else if Qltb (1#2) d then (f + 1)%Z
  else if Z.even f then f else (f + 1)%Z.

(** [round(x, 6)]. *)
Definition round6 (x : Q) : Q :=
  inject_Z (round_half_even (x * 1000000)) / 1000000.

(** [_fmt], as the number its output text denotes: values below 1e-15 in
    magnitude are flushed to zero, the rest rounded to 6 decimals; the text
    is the shortest decimal rendering of that number (an integer without a
    fraction, otherwise [%.6f] with the trailing zeros stripped). *)
Definition _fmt (x : Q) : Q :=
  let x := if Qltb (Qabs x) (1 # 1000000000000000) then 0 else x in
  round6 x.

(** The right-hand side of the slice assignment: the group divided by its
    sum [s] when [s > 0], four zeros otherwise. *)
Definition normalized (group : list Q) : result (list Q) :=
  let s := sum group in
  if Qgtb s 0 then mapM (fun v => div v s) group
  else ret [0; 0; 0; 0].

(** The value [normalized] returns, without the exception plumbing (the
    division cannot fail there, see [normalized_eq]). *)
Definition norm4 (group : list Q) : list Q :=
  if Qgtb (sum group) 0 then map (fun v => v / sum group) group else [0; 0; 0; 0].

(** One turn of the loop over [g]: normalise group [g] of [vals] in place. *)
Definition normalize_group (g : nat) (vals : list Q) : result (list Q) :=
  let beg := (g * GROUP_SIZE)%nat in
  let end_ := (beg + GROUP_SIZE)%nat in
  let group := slice beg end_ vals in
  bind (normalized group) (fun new => ret (set_slice beg end_ new vals)).

(** [for g in range(NUM_GROUPS)]: the five turns, in order. *)
Definition normalize_vals (vals : list Q) : result (list Q) :=
  fold_left (fun acc g => bind acc (normalize_group g)) (seq 0 NUM_GROUPS) (ret vals).

(** The padding/truncation of one CSV row to exactly 20 cells. *)
Definition pad_row (row : list cell) : list cell :=
  firstn TOTAL_COLS row ++ repeat (Number 0) (TOTAL_COLS - List.length row)%nat.

(** The body of the loop over [combos_raw]: one input row to one output
    row (as the numbers the written texts denote). *)
Definition process_row (row : list cell) : result (list Q) :=
  bind (mapM _to_float (pad_row row)) (fun vals =>
  bind (normalize_vals vals) (fun vals' =>
  ret (map _fmt vals'))).

(** [build_mixbin_percentages] on the rows of the combos file ([None]: the
    file does not exist). *)
Definition build_mixbin_percentages (combos : option (list (list cell)))
  : result (list (list Q) * nat * nat) :=
  match combos with
  | None => raise (FileNotFoundError "step4_mixbin_combos.csv"%string)
  | Some [] => ret ([], 0%nat, TOTAL_COLS)
  | Some rows =>
      bind (mapM process_row rows) (fun out_rows =>
      ret (out_rows, List.length out_rows, TOTAL_COLS))
  end.

(** Group [g] of a row. *)
Definition group_of (g : nat) (vals : list Q) : list Q :=
  slice (g * GROUP_SIZE)%nat (g * GROUP_SIZE + GROUP_SIZE)%nat vals.

End Step4Calc3.

(* ================================================================== *)
(** * core_functions/step4_mixbin_calc_1.py : combination generator *)
(* ================================================================== *)

Module Step4Calc1.

(** A CSV file as [csv.reader] yields it, and the files of the step-4
    directory by name ([None]: no such file). *)
Definition csv_file : Type := list (list cell).
Definition directory : Type := string -> option csv_file.

(** The parse of one cell: stripped, an empty cell read as zero, then
    [float(s)], whose [ValueError] is re-raised with the message of the
    file. *)
Definition parse_cell (c : cell) : result Q :=
  match c with
  | Blank => ret 0
  | Number q => ret q
  | Text s => raise (ValueError s)
  end.

(** [first4]: the first four cells of the row, padded with zero cells
    when the row is shorter. *)
Definition first4 (row : list cell) : list cell :=
  firstn 4 row ++ repeat (Number 0) (4 - List.length row)%nat.

(** [_read_first5_rows_4cols]: the loop leaves at [i >= 5], so only the
    rows with index 0..4 are read and parsed. *)
Definition _read_first5_rows_4cols (f : csv_file) : result (list (list Q)) :=
  mapM (fun row => mapM parse_cell (first4 row)) (firstn 5 f).

Definition _is_all_zero (first4 : list Q) : bool :=
  forallb (fun x => Qeq_bool x 0) first4.

Definition _collect_candidates (f : csv_file) : result (list (list Q)) :=
  bind (_read_first5_rows_4cols f) (fun raw =>
  ret (filter (fun r => negb (_is_all_zero r)) raw)).

(** [itertools.product] of the lists: tuples in lexicographic order of the
    positions, the rightmost list advancing fastest. *)
Fixpoint product {A} (lists : list (list A)) : list (list A) :=
  match lists with
  | [] => [[]]
  | l :: rest => flat_map (fun x => map (cons x) (product rest)) l
  end.

Definition input_files : list string :=
  [ "step4_mixbin_input_LED1.csv"; "step4_mixbin_input_LED2.csv";
    "step4_mixbin_input_LED3.csv"; "step4_mixbin_input_LED4.csv";
    "step4_mixbin_input_LED5.csv" ]%string.

(** The placeholder rule: [if not cands: cands = [[0.0, 0.0, 0.0, 0.0]]]. *)
Definition or_placeholder (cands : list (list Q)) : list (list Q) :=
  match cands with
  | [] => [[0; 0; 0; 0]]
  | _ => cands
  end.

(** The product loop: every tuple of blocks merged into one row. *)
Definition merge_product (all_candidates : list (list (list Q))) : list (list Q) :=
  map (fun tpl => List.concat tpl) (product all_candidates).

(** The first loop of [build_mixbin_combos]: every input file must exist. *)
Fixpoint check_exist (dir : directory) (paths : list string) : result unit :=
  match paths with
  | [] => ret tt
  | p :: ps =>
      match dir p with
      | None => raise (FileNotFoundError p)
      | Some _ => check_exist dir ps
      end
  end.

(** The second loop: candidates of one file, with the placeholder. *)
Definition candidates_of (dir : directory) (p : string) : result (list (list Q)) :=
  match dir p with
  | None => raise (FileNotFoundError p)
  | Some f => bind (_collect_candidates f) (fun cands => ret (or_placeholder cands))
  end.

(** [build_mixbin_combos]: the rows written to the combos file and their
    number. *)
Definition build_mixbin_combos (dir : directory) : result (list (list Q) * nat) :=
  bind (check_exist dir input_files) (fun _ =>
  bind (mapM (candidates_of dir) input_files) (fun all_candidates =>
  let combos := merge_product all_candidates in
  ret (combos, List.length combos))).

End Step4Calc1.

(* ================================================================== *)
(** * core_functions/step3_bin_process.py : bin partition *)
(* ================================================================== *)

Module Step3BinProcess.

(** The indices of the non-zero nodes, ascending. *)
Definition non_zero_indices (node_vals : list Q) : list nat :=
  filter (fun i => negb (Qeq_bool (nth i node_vals 0) 0)) (seq 0 (List.length node_vals)).

Fixpoint strictly_increasing (l : list Q) : bool :=
  match l with
  | a :: ((b :: _) as t) => Qltb a b && strictly_increasing t
  | _ => true
  end.

(** [_validate_node_row]: five nodes, no zero between two non-zero nodes,
    the non-zero nodes strictly increasing.  (The row index of the source
    only feeds the messages, which are shortened here.) *)
Definition _validate_node_row (node_vals : list Q) : result unit :=
  if negb (List.length node_vals =? 5)%nat then raise (ValueError "node count") else
  match non_zero_indices node_vals with
  | [] => ret tt
  | first_non_zero :: _ =>
      let nz := non_zero_indices node_vals in
      let last_non_zero := last nz 0%nat in
      if existsb (fun i => Qeq_bool (nth i node_vals 0) 0)
           (seq first_non_zero (last_non_zero + 1 - first_non_zero))
      then raise (ValueError "zero between nodes")
      else
        let non_zero_vals := map (fun i => nth i node_vals 0) nz in
        if (1 <? List.length non_zero_vals)%nat && negb (strictly_increasing non_zero_vals)
        then raise (ValueError "not strictly increasing")
        else ret tt
  end%string.

(** [_get_valid_intervals]: the pairs [(bin_idx, lower, upper)] of the
    adjacent node pairs that are both non-zero and increasing. *)
Definition _get_valid_intervals (node_vals : list Q) : list (nat * Q * Q) :=
  flat_map (fun i =>
    let lower := nth i node_vals 0 in
    let upper := nth (i + 1) node_vals 0 in
    if Qeq_bool lower 0 || Qeq_bool upper 0 then []
    else if Qle_bool upper lower then []
    else [((i + 1)%nat, lower, upper)]) (seq 0 4).

Definition tolerance : Q := 1 # 10000000000.

(** The value column after [pd.to_numeric(..., errors='coerce')]: a number,
    or NaN ([None]), on which every comparison is false. *)
Definition is_gt (a : option Q) (b : Q) : bool :=
  match a with
  | Some a => Qgtb a (b - tolerance)
  | None => false
  end.

Definition is_le (a : option Q) (b : Q) : bool :=
  match a with
  | Some a => Qle_bool a (b + tolerance)
  | None => false
  end.

Definition in_interval (v : option Q) (lower upper : Q) : bool :=
  is_gt v lower && is_le v upper.

(** [bin_dfs[bin_idx - 1] = df[mask].copy()] over the valid intervals,
    starting from four empty frames. *)
Definition fill_bins (df : list (option Q)) (valid : list (nat * Q * Q))
  : list (list (option Q)) :=
  fold_left (fun bins iv =>
    match iv with
    | (bin_idx, lower, upper) =>
        set_slice (bin_idx - 1) bin_idx [filter (fun v => in_interval v lower upper) df] bins
    end) valid [[]; []; []; []].

(** The rows left with a false [assigned_mask]. *)
Definition unassigned (df : list (option Q)) (valid : list (nat * Q * Q))
  : list (option Q) :=
  filter (fun v =>
    negb (fold_left (fun m iv =>
            match iv with (_, lower, upper) => m || in_interval v lower upper end)
          valid false)) df.

(** [_cut_into_bins]: the four sub-frames, and the rows reported as not
    assigned to any bin. *)
Definition _cut_into_bins (df : list (option Q)) (node_vals : list Q)
  : result (list (list (option Q)) * list (option Q)) :=
  if negb (List.length node_vals =? 5)%nat then raise (ValueError "node count"%string) else
  let valid_intervals := _get_valid_intervals node_vals in
  ret (fill_bins df valid_intervals, unassigned df valid_intervals).

End Step3BinProcess.

(* ================================================================== *)
(** * core_functions/step1_rawdata_analysis.py : shortest covering interval *)
(* ================================================================== *)

Module Step1RawdataAnalysis.

Record CategoryStatsEntry : Type := mkEntry {
  value : Q;
  count : nat;
  proportion : Q
}.

Definition eps : Q := 1 # 1000000000000.

(** The inner loop [for j in range(i, n)], on the proportions from index
    [j] on: the index at which it breaks and the value of [cum] there, or
    [None] when it runs to the end without reaching the target. *)
Fixpoint inner_scan (target_prob : Q) (props : list Q) (j : nat) (cum : Q)
  : option (nat * Q) :=
  match props with
  | [] => None
  | p :: rest =>
      let cum := cum + p in
      if Qgeb (cum + eps) target_prob then Some (j, cum)
      else inner_scan target_prob rest (S j) cum
  end.

(** The state of the outer loop: [best_i], [best_j], [best_span]. *)
Record best : Type := mkBest {
  best_i : nat;
  best_j : nat;
  best_span : option Q
}.

(** [values[j] - values[i]]: the span of the indices [i .. j]. *)
Definition width (values : list Q) (i j : nat) : Q :=
  nth j values 0 - nth i values 0.

(** One turn of the outer loop [for i in range(n)]. *)
Definition outer_step (target_prob : Q) (values props : list Q) (b : best) (i : nat)
  : best :=
  match inner_scan target_prob (skipn i props) i 0 with
  | None => b
  | Some (j, _) =>
      let span := width values i j in
      match best_span b with
      | None => mkBest i j (Some span)
      | Some bs => if Qltb span bs then mkBest i j (Some span) else b
      end
  end.

Definition sweep (target_prob : Q) (values props : list Q) : best :=
  let n := List.length values in
  fold_left (outer_step target_prob values props) (seq 0 n) (mkBest 0 (n - 1) None).

(** The weighted median loop over [range(best_i, best_j + 1)]. *)
Fixpoint median_scan (half : Q) (values props : list Q) (cum : Q) (default : Q) : Q :=
  match values, props with
  | v :: vs, p :: ps =>
      let cum := cum + p in
      if Qgeb cum half then v else median_scan half vs ps cum default
  | _, _ => default
  end.

(** [sum(props[i : j + 1])]: the probability of the indices [i .. j]. *)
Definition interval_prob_of (props : list Q) (i j : nat) : Q :=
  sum (slice i (j + 1) props).

(** The test the inner loop makes when it stands at [j], having started
    at [i]. *)
Definition covers (target_prob : Q) (props : list Q) (i j : nat) : bool :=
  Qgeb (interval_prob_of props i j + eps) target_prob.

(** The invariant of the outer loop after the turns [0 .. m-1]: nothing
    recorded means no interval starting below [m] passes the test;
    otherwise the recorded interval passes it, is the first one found from
    its left end, is no wider than any passing interval starting below
    [m], and is strictly narrower than any passing interval starting to
    its left. *)
Definition sweep_inv (target_prob : Q) (values props : list Q) (m : nat) (b : best)
  : Prop :=
  let n := List.length values in
  match best_span b with
  | None =>
      best_i b = 0%nat /\ best_j b = (n - 1)%nat /\
      forall i j, (i < m)%nat -> (i <= j < n)%nat -> covers target_prob props i j = false
  | Some s =>
      (best_i b < m)%nat /\ (best_i b <= best_j b < n)%nat /\
      s = width values (best_i b) (best_j b) /\
      covers target_prob props (best_i b) (best_j b) = true /\
      (forall j', (best_i b <= j' < best_j b)%nat ->
                  covers target_prob props (best_i b) j' = false) /\
      (forall i j, (i < m)%nat -> (i <= j < n)%nat ->
                   covers target_prob props i j = true -> s <= width values i j) /\
      (forall i j, (i < best_i b)%nat -> (i <= j < n)%nat ->
                   covers target_prob props i j = true -> s < width values i j)
  end.

Definition find_shortest_interval_covering_prob
  (stats : list CategoryStatsEntry) (target_prob : Q)
  : option Q * option Q * option Q * Q :=
  let n := List.length stats in
  if (n =? 0)%nat then (None, None, None, 0) else
  let values := map value stats in
  let props := map proportion stats in
  let b := sweep target_prob values props in
  let min_val := nth (best_i b) values 0 in
  let max_val := nth (best_j b) values 0 in
  let interval_prob := interval_prob_of props (best_i b) (best_j b) in
  let half := (1 # 2) * interval_prob in
  let median_val :=
    median_scan half (slice (best_i b) (best_j b + 1) values)
                (slice (best_i b) (best_j b + 1) props) 0 min_val in
  (Some min_val, Some median_val, Some max_val, interval_prob).

End Step1RawdataAnalysis.

(* ================================================================== *)
(** * core_functions/step7_result_curve_plotting.py : HDI and median *)
(* ================================================================== *)

Module Step7ResultCurvePlotting.

(** [np.sort]: the values in ascending order. *)
Fixpoint insert_sorted (x : Q) (l : list Q) : list Q :=
  match l with
  | [] => [x]
  | y :: l' => if Qle_bool x y then x :: l else y :: insert_sorted x l'
  end.

Definition np_sort (data : list Q) : list Q :=
  fold_right insert_sorted [] data.

(** [np.median]: the middle element of the sorted data, or the mean of the
    two middle elements when their number is even. *)
Definition np_median (data : list Q) : Q :=
  let s := np_sort data in
  let n := List.length s in
  if Nat.odd n then nth (n / 2) s 0
  else (nth (n / 2 - 1) s 0 + nth (n / 2) s 0) / 2.

(** The state of the window loop: [min_range] ([None] is the initial
    infinity), [hdi_min], [hdi_max]. *)
Definition hdi_state : Type := (option Q * Q * Q)%type.

Definition hdi_step (sorted_data : list Q) (hdi_size : nat) (st : hdi_state) (i : nat)
  : hdi_state :=
  let '(min_range, hdi_min, hdi_max) := st in
  let current_range := nth (i + hdi_size - 1) sorted_data 0 - nth i sorted_data 0 in
  let better :=
    match min_range with
    | None => true
    | Some m => Qltb current_range m
    end in
  if better
  then (Some current_range, nth i sorted_data 0, nth (i + hdi_size - 1) sorted_data 0)
  else st.

(** [int(np.floor((1 - alpha) * n))]. *)
Definition hdi_size_of (alpha : Q) (n : nat) : Z :=
  Qfloor ((1 - alpha) * inject_Z (Z.of_nat n)).

Definition calculate_highest_density_interval (data : list Q) (alpha : Q) : Q * Q :=
  if (List.length data =? 0)%nat then (0, 0) else
  let sorted_data := np_sort data in
  let n := List.length sorted_data in
  let hdi_size := hdi_size_of alpha n in
  if (hdi_size <=? 0)%Z then (nth 0 sorted_data 0, last sorted_data 0) else
  let k := Z.to_nat hdi_size in
  let '(_, hdi_min, hdi_max) :=
    fold_left (hdi_step sorted_data k) (seq 0 (n + 1 - k))
              (None, nth 0 sorted_data 0, last sorted_data 0) in
  (hdi_min, hdi_max).

Definition alpha_4sigma : Q := 63 # 1000000.

Definition calculate_statistics (data : list Q) : Q * Q * Q :=
  if (List.length data =? 0)%nat then (0, 0, 0) else
  let '(hdi_min, hdi_max) := calculate_highest_density_interval data alpha_4sigma in
  let median := np_median data in
  (hdi_min, median, hdi_max).

End Step7ResultCurvePlotting.

(* ================================================================== *)
(** * core_functions/step5_interpolation_1.py : linear interpolation *)
(* ================================================================== *)

Module Step5Interpolation1.

(** The function is duck-typed: it only compares, adds, subtracts,
    multiplies and divides its numbers.  [Numeric] is that interface. *)
Class Numeric (T : Type) : Type := {
  num_le : T -> T -> bool;
  num_is_zero : T -> bool;
  num_add : T -> T -> T;
  num_sub : T -> T -> T;
  num_mul : T -> T -> T;
  num_div : T -> T -> T;
  num_zero : T
}.

#[export] Instance Numeric_Q : Numeric Q := {
  num_le := Qle_bool;
  num_is_zero := fun q => Qeq_bool q 0;
  num_add := Qplus;
  num_sub := Qminus;
  num_mul := Qmult;
  num_div := Qdiv;
  num_zero := 0
}.

#[export] Instance Numeric_float : Numeric float := {
  num_le := PrimFloat.leb;
  num_is_zero := fun x => PrimFloat.eqb x PrimFloat.zero;
  num_add := PrimFloat.add;
  num_sub := PrimFloat.sub;
  num_mul := PrimFloat.mul;
  num_div := PrimFloat.div;
  num_zero := PrimFloat.zero
}.

Section Generic.

Context {T : Type} `{Numeric T}.

(** [sorted(zip(x_data, y_data), key=lambda pair: pair[0])]: a stable sort
    on the first component. *)
Fixpoint insert_pair (p : T * T) (l : list (T * T)) : list (T * T) :=
  match l with
  | [] => [p]
  | q :: l' => if num_le (fst p) (fst q) then p :: l else q :: insert_pair p l'
  end.

Definition sorted_pairs (x_data y_data : list T) : list (T * T) :=
  fold_right insert_pair [] (combine x_data y_data).

(** The loop [for i in range(len(x_sorted) - 1)], on the sorted pairs from
    index [i] on: the first bracketing pair gives the result. *)
Fixpoint bracket_scan (x_target : T) (pts : list (T * T)) : result T :=
  match pts with
  | (x1, y1) :: (((x2, y2) :: _) as rest) =>
      if num_le x1 x_target && num_le x_target x2 then
        let num := num_mul (num_sub y2 y1) (num_sub x_target x1) in
        let den := num_sub x2 x1 in
        if num_is_zero den then raise ZeroDivisionError
        else ret (num_add y1 (num_div num den))
      else bracket_scan x_target rest
  | _ => ret num_zero
  end.

Definition linear_interpolation (x_data y_data : list T) (x_target : T) : result T :=
  let combined := sorted_pairs x_data y_data in
  match combined with
  | [] => raise IndexError
  | (x_first, y_first) :: _ =>
      if num_le x_target x_first then ret y_first else
      let '(x_last, y_last) := last combined (x_first, y_first) in
      if num_le x_last x_target then ret y_last else
      bracket_scan x_target combined
  end.

End Generic.

End Step5Interpolation1.

(* ================================================================== *)
(** * core_functions/step7_final_calculation.py : Monte Carlo run *)
(* ================================================================== *)

Module Step7FinalCalculation.

Definition csv_file : Type := list (list cell).

(** The step-6 directory: the combination-row file and the adjusted
    population files by name ([None]: no such file; [Some []]: a file of
    size zero). *)
Record directory : Type := mkDir {
  combos_file : option csv_file;
  bin_file : string -> option csv_file
}.

(** The generator behind [random.choice]: the sequence of raw draws and
    the number of draws consumed so far. *)
Record rng : Type := mkRng {
  draws : nat -> nat;
  used : nat
}.

Definition random_choice (bin_data : list Q) (g : rng) : Q * rng :=
  (nth (draws g (used g) mod List.length bin_data) bin_data 0,
   mkRng (draws g) (S (used g))).

(** The stop predicate is polled; what it answers may depend on how many
    times it has been polled before. *)
Definition stop_check_t : Type := option (nat -> bool).

Definition digit (n : nat) : string :=
  String (Ascii.ascii_of_nat (48 + n)) EmptyString.

(** The file name of LED [led_idx], bin [bin_idx] (both in 1..9). *)
Definition bin_filename (led_idx bin_idx : nat) : string :=
  ("LED" ++ digit led_idx ++ "_raw_data_bin_" ++ digit bin_idx
   ++ "_interpolated_loss.csv")%string.

Definition file_order : list string :=
  flat_map (fun led_idx => map (bin_filename led_idx) (seq 1 4)) (seq 1 5).

(** The values of one population file: blank cells and cells that are not
    numbers are skipped. *)
Definition read_values (f : csv_file) : list Q :=
  flat_map (fun row =>
    flat_map (fun c => match c with Number q => [q] | _ => [] end) row) f.

(** [_load_bin_data_memory_efficient]: a file that is missing or of size
    zero is replaced by the population [[0.0]]. *)
Definition _load_bin_data_memory_efficient (dir : directory) : list (list Q) :=
  map (fun filename =>
    match bin_file dir filename with
    | Some ((_ :: _) as f) => read_values f
    | _ => [0]
    end) file_order.

(** [int(x)]: truncation towards zero. *)
Definition py_int (x : Q) : Z :=
  if Qle_bool 0 x then Qfloor x else Qceiling x.

Fixpoint draw_sum (bin_data : list Q) (k : nat) (total : Q) (g : rng) : Q * rng :=
  match k with
  | O => (total, g)
  | S k' =>
      let '(x, g') := random_choice bin_data g in
      draw_sum bin_data k' (total + x) g'
  end.

Definition _sample_from_bin (bin_data : list Q) (sample_count : Q) (g : rng) : Q * rng :=
  match bin_data with
  | [] => (0, g)
  | _ =>
      let integer_part := py_int sample_count in
      let '(total, g1) := draw_sum bin_data (Z.to_nat integer_part) 0 g in
      let fractional_part := sample_count - inject_Z integer_part in
      if Qgtb fractional_part (1 # 10000000000) then
        let '(last_sample, g2) := random_choice bin_data g1 in
        (total + last_sample * fractional_part, g2)
      else (total, g1)
  end.

(** One trial: the loop over the first 20 columns of the row. *)
Fixpoint trial (bin_data_list : list (list Q)) (combo : list Q) (total : Q) (g : rng)
  : Q * rng :=
  match combo, bin_data_list with
  | sample_count :: combo', bin_data :: bins' =>
      let '(c, g') := _sample_from_bin bin_data sample_count g in
      trial bins' combo' (total + c) g'
  | _, _ => (total, g)
  end.

(** The outcome of a run: the flag and which message goes with it. *)
Inductive message : Type :=
| CombosFileMissing
| CombosFileEmpty
| WrongBinCount (n : nat)
| StoppedByUser
| Completed (total_combos simulation_count : nat).

(** The state threaded through the run: the generator, the number of
    polls of the stop predicate, and the output files written so far
    (combination ordinal, rows), the latest first. *)
Record run_state : Type := mkState {
  gen : rng;
  polls : nat;
  written : list (nat * list Q)
}.

Definition poll (stop_check : stop_check_t) (st : run_state) : bool * run_state :=
  match stop_check with
  | None => (false, st)
  | Some f => (f (polls st), mkState (gen st) (S (polls st)) (written st))
  end.

(** The trial loop of one combination, from trial [sim_idx] on, [fuel]
    trials remaining; [rows] are the rows written to the open file, the
    latest first.  [inl]: stopped, with the partial file. *)
Fixpoint trials (stop_check : stop_check_t) (bin_data_list : list (list Q))
  (combo : list Q) (fuel sim_idx : nat) (rows : list Q) (st : run_state)
  : (list Q * run_state) + (list Q * run_state) :=
  match fuel with
  | O => inr (rows, st)
  | S fuel' =>
      let '(stop, st1) :=
        if (sim_idx mod 1000 =? 0)%nat then poll stop_check st else (false, st) in
      if stop then inl (rows, st1)
      else
        let '(v, g') := trial bin_data_list (firstn 20 combo) 0 (gen st1) in
        trials stop_check bin_data_list combo fuel' (S sim_idx) (v :: rows)
               (mkState g' (polls st1) (written st1))
  end.

(** The loop over the combinations, [combo_idx] counting from 1. *)
Fixpoint combos_loop (stop_check : stop_check_t) (simulation_count : nat)
  (bin_data_list : list (list Q)) (combos : list (list Q)) (combo_idx : nat)
  (st : run_state) : bool * run_state :=
  match combos with
  | [] => (true, st)
  | combo :: rest =>
      let '(stop, st1) := poll stop_check st in
      if stop then (false, st1)
      else
        match trials stop_check bin_data_list combo simulation_count 0 [] st1 with
        | inl (rows, st2) =>
            (false, mkState (gen st2) (polls st2) ((combo_idx, rev rows) :: written st2))
        | inr (rows, st2) =>
            combos_loop stop_check simulation_count bin_data_list rest (S combo_idx)
              (mkState (gen st2) (polls st2) ((combo_idx, rev rows) :: written st2))
        end
  end.

(** The parse of one combination row: an empty row is skipped, a row with
    a cell that is not a number is skipped with a warning. *)
Definition parse_combo_row (row : list cell) : option (list Q) :=
  match row with
  | [] => None
  | _ =>
      match mapM (fun c => match c with
                           | Blank => ret 0
                           | Number q => ret q
                           | Text s => raise (ValueError s)
                           end) row with
      | inl _ => None
      | inr float_row => Some float_row
      end
  end.

Definition load_combos (f : csv_file) : list (list Q) :=
  flat_map (fun row => match parse_combo_row row with Some r => [r] | None => [] end) f.

(** [run_monte_carlo_simulation]: the flag, the message, and the final
    state (generator and output files). *)
Definition run_monte_carlo_simulation (simulation_count : nat)
  (stop_check : stop_check_t) (dir : directory) (g : rng)
  : bool * message * run_state :=
  let st0 := mkState g 0 [] in
  match combos_file dir with
  | None => (false, CombosFileMissing, st0)
  | Some f =>
      let combos_data := load_combos f in
      match combos_data with
      | [] => (false, CombosFileEmpty, st0)
      | _ =>
          let total_combos := List.length combos_data in
          let bin_data_list := _load_bin_data_memory_efficient dir in
          if negb (List.length bin_data_list =? 20)%nat
          then (false, WrongBinCount (List.length bin_data_list), st0)
          else
            let '(ok, st) :=
              combos_loop stop_check simulation_count bin_data_list combos_data 1 st0 in
            if ok then (true, Completed total_combos simulation_count, st)
            else (false, StoppedByUser, st)
      end
  end.

End Step7FinalCalculation.

(* ================================================================== *)
(** * core_functions/step1_rawdata_analysis.py : reading and counting *)
(* ================================================================== *)

Module Step1Counting.

Import Step1RawdataAnalysis.

(** The value of a worksheet cell as openpyxl hands it over: nothing, a
    string, a number (int or float), a boolean, or something else (a
    date, an error).  A string is described by what the parser makes of
    it: [Blank] when it is empty after [strip()], [Number q] when the
    stripped text without its commas is accepted by [float()], [Text]
    when [float()] raises. *)
Inductive xl_value : Type :=
| XlNone
| XlStr (c : cell)
| XlNumber (q : Q)
| XlBool (b : bool)
| XlOther.

Definition _try_parse_float (val : xl_value) : bool * option Q :=
  match val with
  | XlNumber q => (true, Some q)
  | XlStr Blank => (false, None)
  | XlStr (Number q) => (true, Some q)
  | XlStr (Text _) => (false, None)
  | _ => (false, None)
  end.

(** The four results of the reading loop: the numbers in reading order
    (here the latest first) and the three counters. *)
Record reading : Type := mkReading {
  numbers_rev : list Q;
  numbers_count : nat;
  non_numbers_count : nat;
  blank_cells : nat
}.

(** The body of the innermost loop, for one cell. *)
Definition read_cell (parse_string_numbers : bool) (r : reading) (v : xl_value)
  : reading :=
  let is_blank :=
    match v with
    | XlNone => true
    | XlStr Blank => true
    | _ => false
    end in
  if is_blank
  then mkReading (numbers_rev r) (numbers_count r) (non_numbers_count r) (S (blank_cells r))
  else
    let '(ok, num) :=
      if parse_string_numbers then _try_parse_float v
      else match v with
           | XlNumber q => (true, Some q)
           | _ => (false, None)
           end in
    match ok, num with
    | true, Some q =>
        mkReading (q :: numbers_rev r) (S (numbers_count r)) (non_numbers_count r)
                  (blank_cells r)
    | _, _ =>
        mkReading (numbers_rev r) (numbers_count r) (S (non_numbers_count r))
                  (blank_cells r)
    end.

(** A workbook: its worksheets, each a list of rows of cells. *)
Definition workbook : Type := list (list (list xl_value)).

(** [read_all_numbers_from_excel]: numbers, numbers_count,
    non_numbers_count, blank_cells. *)
Definition read_all_numbers_from_excel (wb : workbook) (parse_string_numbers : bool)
  : list Q * nat * nat * nat :=
  let r :=
    fold_left (fun r ws =>
      fold_left (fun r row =>
        fold_left (read_cell parse_string_numbers) row r) ws r)
      wb (mkReading [] 0 0 0) in
  (rev (numbers_rev r), numbers_count r, non_numbers_count r, blank_cells r).

(** [counts[v] = counts.get(v, 0) + 1] on a dict kept in insertion order:
    a key equal to [v] keeps its place and its first spelling. *)
Fixpoint count_up (counts : list (Q * nat)) (v : Q) : list (Q * nat) :=
  match counts with
  | [] => [(v, 1%nat)]
  | (k, c) :: rest =>
      if Qeq_bool k v then (k, S c) :: rest else (k, c) :: count_up rest v
  end.

(** How many of the numbers are equal to [x]. *)
Definition occurrences (numbers : list Q) (x : Q) : nat :=
  List.length (filter (fun y => Qeq_bool y x) numbers).

(** What the dict holds for [x]: the count stored under a key equal to
    [x], zero when there is none. *)
Definition counted (counts : list (Q * nat)) (x : Q) : nat :=
  list_sum (map snd (filter (fun kc => Qeq_bool (fst kc) x) counts)).

(** [entries.sort(key=lambda e: e.value)]: a stable sort on the value. *)
Fixpoint insert_entry (e : CategoryStatsEntry) (l : list CategoryStatsEntry)
  : list CategoryStatsEntry :=
  match l with
  | [] => [e]
  | f :: l' => if Qle_bool (value e) (value f) then e :: l else f :: insert_entry e l'
  end.

Definition sort_entries (l : list CategoryStatsEntry) : list CategoryStatsEntry :=
  fold_right insert_entry [] l.

(** [c / total] on two ints. *)
Definition ratio (c total : nat) : Q :=
  inject_Z (Z.of_nat c) / inject_Z (Z.of_nat total).

Definition calculate_counts_and_proportions (numbers : list Q) : list CategoryStatsEntry :=
  let total := List.length numbers in
  if (total =? 0)%nat then [] else
  let counts := fold_left count_up numbers [] in
  let entries := map (fun vc => mkEntry (fst vc) (snd vc) (ratio (snd vc) total)) counts in
  sort_entries entries.

Record Step1RawDataResult : Type := mkResult {
  category_stats : list CategoryStatsEntry;
  min_val : option Q;
  median_val : option Q;
  max_val : option Q;
  interval_prob : Q;
  res_numbers_count : nat;
  res_non_numbers_count : nat;
  res_blank_cells : nat
}.

(** The property [has_data]. *)
Definition has_data (r : Step1RawDataResult) : bool :=
  (0 <? List.length (category_stats r))%nat.

(** [process_raw_excel] on the opened workbook. *)
Definition process_raw_excel (wb : workbook) (target_prob : Q)
  (parse_string_numbers : bool) : Step1RawDataResult :=
  let '(numbers, n_num, n_non, n_blank) :=
    read_all_numbers_from_excel wb parse_string_numbers in
  let stats := calculate_counts_and_proportions numbers in
  let '(min_val, median_val, max_val, interval_prob) :=
    find_shortest_interval_covering_prob stats target_prob in
  mkResult stats min_val median_val max_val interval_prob n_num n_non n_blank.

End Step1Counting.

(* ================================================================== *)
(** * core_functions/step1_rawdata_analysis_2.py : bounded collection *)
(* ================================================================== *)

Module Step1Sampling.

Import Step7FinalCalculation.

(** [random.randint(1, total)]. *)
Definition randint_from_1 (total : nat) (g : rng) : nat * rng :=
  (1 + draws g (used g) mod total, mkRng (draws g) (S (used g)))%nat.

(** [k] elements of [population] at distinct positions, each drawn among
    the positions that are left. *)
Fixpoint select (population : list Q) (k : nat) (g : rng) : list Q * rng :=
  match k with
  | O => ([], g)
  | S k' =>
      let i := (draws g (used g) mod List.length population)%nat in
      let '(rest, g') :=
        select (firstn i population ++ skipn (S i) population) k'
               (mkRng (draws g) (S (used g))) in
      (nth i population 0 :: rest, g')
  end.

(** [random.sample(population, k)]: raises when asked for more than there
    is. *)
Definition random_sample (population : list Q) (k : nat) (g : rng)
  : result (list Q * rng) :=
  if (List.length population <? k)%nat
  then raise (ValueError "Sample larger than population or is negative")
  else ret (select population k g).

(** The variables of [_collect_with_sampling]. *)
Record collector : Type := mkCollector {
  data_numeric : list (list Q);
  reservoir : list Q;
  total : nat;
  using_reservoir : bool;
  gen : rng
}.

(** [reservoir[i] = val]: raises out of range. *)
Definition set_item (i : nat) (val : Q) (l : list Q) : result (list Q) :=
  if (i <? List.length l)%nat then ret (set_slice i (S i) [val] l)
  else raise IndexError.

(** The body of [for val in row] in reservoir mode. *)
Definition offer (k : nat) (c : collector) (val : Q) : result collector :=
  let total' := S (total c) in
  let '(j, g') := randint_from_1 total' (gen c) in
  if (j <=? k)%nat
  then bind (set_item (j - 1) val (reservoir c)) (fun res =>
       ret (mkCollector (data_numeric c) res total' true g'))
  else ret (mkCollector (data_numeric c) (reservoir c) total' true g').

(** A loop whose body may raise. *)
Definition foldM {A B} (f : A -> B -> result A) (l : list B) (a : A) : result A :=
  fold_left (fun acc b => bind acc (fun a => f a b)) l (ret a).

(** The body of [for row in row_iter]. *)
Definition collect_row (k : nat) (c : collector) (row : list Q) : result collector :=
  match row with
  | [] => ret c
  | _ =>
      if using_reservoir c then foldM (offer k) row c
      else
        let data := data_numeric c ++ [row] in
        let total' := (total c + List.length row)%nat in
        if (k <? total')%nat then
          let flat_all := List.concat data in
          bind (random_sample flat_all k (gen c)) (fun '(res, g') =>
          ret (mkCollector [] res total' true g'))
        else ret (mkCollector data (reservoir c) total' false (gen c))
  end.

(** [_collect_with_sampling]: the rows as they came, or [k] one-element
    rows once more than [k] values have been seen. *)
Definition _collect_with_sampling (row_iter : list (list Q)) (max_points : nat) (g : rng)
  : result (list (list Q) * rng) :=
  let k := max_points in
  bind (foldM (collect_row k) row_iter (mkCollector [] [] 0 false g)) (fun c =>
  if using_reservoir c then ret (map (fun x => [x]) (reservoir c), gen c)
  else ret (data_numeric c, gen c)).

(** The rows the loop does not skip. *)
Definition nonempty_rows (rows : list (list Q)) : list (list Q) :=
  filter (fun r => match r with [] => false | _ => true end) rows.

(** What holds of the loop variables once the rows [seen] have gone
    through, the generator having started as [g0]. *)
Definition collecting (k : nat) (g0 : rng) (seen : list (list Q)) (c : collector) : Prop :=
  total c = List.length (List.concat seen) /\
  if using_reservoir c
  then List.length (reservoir c) = k /\
       Forall (fun x => In x (List.concat seen)) (reservoir c) /\
       (k < total c)%nat
  else data_numeric c = nonempty_rows seen /\ (total c <= k)%nat /\ gen c = g0.

End Step1Sampling.

(* ================================================================== *)
(** * core_functions/step3_bin_process.py : the contents of the bins *)
(* ================================================================== *)

Module Step3BinContents.

Import Step3BinProcess.

(** The two tests of [_get_valid_intervals] on one pair of adjacent nodes:
    the pair makes a bin when both nodes are non-zero and increasing. *)
Definition cut (lower upper : Q) : bool :=
  negb (Qeq_bool lower 0 || Qeq_bool upper 0) && negb (Qle_bool upper lower).

(** The rows [df[mask]] of one interval. *)
Definition rows_between (df : list (option Q)) (lower upper : Q) : list (option Q) :=
  filter (fun v => in_interval v lower upper) df.

End Step3BinContents.

(* ================================================================== *)
(** * core_functions/step5_interpolation_1.py : the multipliers *)
(* ================================================================== *)

Module Step5Multipliers.

Import Step5Interpolation1.

Definition csv_file : Type := list (list cell).

(** The three input files ([None]: no such file). *)
Record inputs : Type := mkInputs {
  interpolation_file : option csv_file;
  current_file : option csv_file;
  step2_currents_file : option csv_file
}.

(** [float(x)] on a CSV cell: an empty cell raises like any other text
    that is not a number. *)
Definition float_of (c : cell) : result Q :=
  match c with
  | Number q => ret q
  | Blank => raise (ValueError "could not convert string to float")
  | Text s => raise (ValueError s)
  end.

(** [l[i]]. *)
Definition index {A} (l : list A) (i : nat) : result A :=
  match nth_error l i with
  | Some a => ret a
  | None => raise IndexError
  end.

(** [[float(x) for x in list(reader)[0][:5]]]. *)
Definition first_row_floats (f : csv_file) : result (list Q) :=
  bind (index f 0) (fun row => mapM float_of (firstn 5 row)).

(** The loop over the rows of the interpolation table for one LED: the
    (If, Vf) pairs of the rows long enough to hold both columns, both
    values non-zero. *)
Definition led_points (interpolation_data : csv_file) (led_index : nat)
  : result (list (Q * Q)) :=
  let if_col := (led_index * 2)%nat in
  let vf_col := (led_index * 2 + 1)%nat in
  bind (mapM (fun row =>
          if (Nat.max if_col vf_col <? List.length row)%nat then
            bind (float_of (nth if_col row Blank)) (fun if_val =>
            bind (float_of (nth vf_col row Blank)) (fun vf_val =>
            if negb (Qeq_bool if_val 0) && negb (Qeq_bool vf_val 0)
            then ret [(if_val, vf_val)] else ret []))
          else ret []) interpolation_data)
       (fun found => ret (List.concat found)).

(** The [try] block of one LED: both interpolations, then the ratio; any
    exception gives 0. *)
Definition ratio_at (x_data y_data : list Q) (x1 x2 : Q) : Q :=
  match bind (linear_interpolation x_data y_data x1) (fun y1 =>
        bind (linear_interpolation x_data y_data x2) (fun y2 =>
        if negb (Qeq_bool y2 0) then ret (y1 / y2) else ret 0)) with
  | inl _ => 0
  | inr multiplier => multiplier
  end.

(** One turn of [for led_index in range(5)]. *)
Definition led_multiplier (usage_currents test_currents : list Q)
  (interpolation_data : csv_file) (led_index : nat) : result Q :=
  bind (led_points interpolation_data led_index) (fun pts =>
  match pts with
  | [] => ret 0
  | _ =>
      bind (index usage_currents led_index) (fun x1 =>
      bind (index test_currents led_index) (fun x2 =>
      ret (ratio_at (map fst pts) (map snd pts) x1 x2)))
  end).

(** [calculate_multipliers]: the flag, and the row written to
    [step5_multiplier.csv] when there is one. *)
Definition calculate_multipliers (inp : inputs) : bool * option (list Q) :=
  match interpolation_file inp, current_file inp, step2_currents_file inp with
  | Some interpolation_data, Some current, Some step2 =>
      match bind (first_row_floats current) (fun usage_currents =>
            bind (first_row_floats step2) (fun test_currents =>
            mapM (led_multiplier usage_currents test_currents interpolation_data)
                 (seq 0 5))) with
      | inl _ => (false, None)
      | inr multipliers => (true, Some multipliers)
      end
  | _, _, _ => (false, None)
  end.

(** [v] lies between [a] and [b], whichever is the smaller. *)
Definition between (a b v : Q) : Prop := (a <= v /\ v <= b) \/ (b <= v /\ v <= a).

End Step5Multipliers.

(* ================================================================== *)
(** * core_functions/step5_interpolation_2.py and
      core_functions/step6_raw_data_process.py : scaling the populations *)
(* ================================================================== *)

Module Scaling.

Import Step4Calc3 Step5Multipliers Step7FinalCalculation.

(** The number denoted by [f"{x:.10f}".rstrip('0').rstrip('.')]: [x]
    rounded to 10 decimals, ties to even. *)
Definition fmt10 (x : Q) : Q :=
  inject_Z (round_half_even (x * 10000000000)) / 10000000000.

Definition is_blank (c : cell) : bool :=
  match c with
  | Blank => true
  | _ => false
  end.

(** The lines as read: each split at the commas, the fields stripped, the
    empty fields dropped, then the lines left without a field dropped. *)
Definition read_fields (lines : csv_file) : csv_file :=
  flat_map (fun line =>
    match filter (fun field => negb (is_blank field)) line with
    | [] => []
    | row => [row]
    end) lines.

(** One value: a number is multiplied and formatted, a field on which
    [float()] raises is kept as it is. *)
Definition scale_value (multiplier : Q) (value : cell) : cell :=
  match value with
  | Number num_value => Number (fmt10 (num_value * multiplier))
  | Text s => Text s
  | Blank => Blank
  end.

(** The body of the loop over the bins: what is written to the output
    file for one input file ([None]: no such file, [Some []]: a file of
    size zero). *)
Definition scale_file (multiplier : Q) (input : option csv_file) : csv_file :=
  match input with
  | Some ((_ :: _) as lines) => map (map (scale_value multiplier)) (read_fields lines)
  | _ => [[Number 0]]
  end.

(** [f"LED{led}_raw_data_bin_{bin}{suffix}"]. *)
Definition bin_file_name (suffix : string) (led_idx bin_idx : nat) : string :=
  ("LED" ++ digit led_idx ++ "_raw_data_bin_" ++ digit bin_idx ++ suffix)%string.

(** The loop over the LEDs, from LED [led_index] on: the files written so
    far, in order, and whether the loop reached its end (indexing the
    factors out of range raises, which ends the function with the flag
    false and leaves the files already written). *)
Fixpoint led_loop (in_suffix out_suffix : string) (factors : list Q)
  (dir : string -> option csv_file) (leds : list nat)
  (written : list (string * csv_file)) : bool * list (string * csv_file) :=
  match leds with
  | [] => (true, written)
  | led_index :: rest =>
      match nth_error factors led_index with
      | None => (false, written)
      | Some factor =>
          led_loop in_suffix out_suffix factors dir rest
            (written ++
             map (fun bin_index =>
                    (bin_file_name out_suffix (led_index + 1) bin_index,
                     scale_file factor (dir (bin_file_name in_suffix (led_index + 1) bin_index))))
                 (seq 1 4))
      end
  end.

(** The two functions differ in the names of their files only. *)
Definition scale_all (in_suffix out_suffix : string) (factors_file : option csv_file)
  (dir : string -> option csv_file) : bool * list (string * csv_file) :=
  match factors_file with
  | None => (false, [])
  | Some [] => (false, [])
  | Some (first_row :: _) =>
      match mapM float_of first_row with
      | inl _ => (false, [])
      | inr factors => led_loop in_suffix out_suffix factors dir (seq 0 5) []
      end
  end.

(** [scale_bin_data]: the step-3 populations times the multipliers. *)
Definition scale_bin_data (multiplier_file : option csv_file)
  (step3_dir : string -> option csv_file) : bool * list (string * csv_file) :=
  scale_all ".csv" "_interpolated.csv" multiplier_file step3_dir.

(** [process_raw_data_with_thermal_loss]: the step-5 populations times the
    thermal losses. *)
Definition process_raw_data_with_thermal_loss (thermal_loss_file : option csv_file)
  (step5_dir : string -> option csv_file) : bool * list (string * csv_file) :=
  scale_all "_interpolated.csv" "_interpolated_loss.csv" thermal_loss_file step5_dir.

(** A directory holding the files written, and nothing else. *)
Fixpoint files_written (written : list (string * csv_file)) (name : string)
  : option csv_file :=
  match written with
  | [] => None
  | (n, f) :: rest =>
      match files_written rest name with
      | Some f' => Some f'
      | None => if String.eqb n name then Some f else None
      end
  end.

(** The four files written for one LED with enough factors. *)
Definition files_of_led (in_suffix out_suffix : string) (factors : list Q)
  (dir : string -> option csv_file) (led_index : nat) : list (string * csv_file) :=
  map (fun bin_index =>
         (bin_file_name out_suffix (led_index + 1) bin_index,
          scale_file (nth led_index factors 0)
                     (dir (bin_file_name in_suffix (led_index + 1) bin_index))))
      (seq 1 4).

(** How a field of the output relates to the field it was made from: a
    number is the product, up to the rounding to 10 decimals; text is
    unchanged. *)
Inductive scaled (multiplier : Q) : cell -> cell -> Prop :=
| scaled_number (q q' : Q) :
    Qabs (q' - q * multiplier) <= 5 # 100000000000 ->
    (exists z : Z, q' = inject_Z z / 10000000000) ->
    scaled multiplier (Number q) (Number q')
| scaled_text (s : string) : scaled multiplier (Text s) (Text s).

End Scaling.

(* ================================================================== *)
(** * core_functions/step7_final_calculation.py : the range of a trial *)
(* ================================================================== *)

Module Step7Range.

Import Step7FinalCalculation.

(** The weight [_sample_from_bin] gives a population: the number of whole
    draws, plus the fractional part of the count when that exceeds
    1e-10. *)
Definition applied_count (sample_count : Q) : Q :=
  let integer_part := py_int sample_count in
  let fractional_part := sample_count - inject_Z integer_part in
  inject_Z (Z.of_nat (Z.to_nat integer_part))
  + (if Qgtb fractional_part (1 # 10000000000) then fractional_part else 0).

(** The number of calls of [random.choice] in one [_sample_from_bin]. *)
Definition draws_needed (bin_data : list Q) (sample_count : Q) : nat :=
  match bin_data with
  | [] => 0
  | _ =>
      let integer_part := py_int sample_count in
      let fractional_part := sample_count - inject_Z integer_part in
      (Z.to_nat integer_part
       + (if Qgtb fractional_part (1 # 10000000000) then 1 else 0))%nat
  end.

(** The least and the greatest value of a population (0 for an empty
    one, which contributes nothing). *)
Fixpoint least (l : list Q) : Q :=
  match l with
  | [] => 0
  | x :: l' =>
      match l' with
      | [] => x
      | _ => if Qle_bool x (least l') then x else least l'
      end
  end.

Fixpoint greatest (l : list Q) : Q :=
  match l with
  | [] => 0
  | x :: l' =>
      match l' with
      | [] => x
      | _ => if Qle_bool (greatest l') x then x else greatest l'
      end
  end.

(** The sum over the columns of a combination row of weight times a
    value picked from the population of the column. *)
Fixpoint weighted (pick : list Q -> Q) (bin_data_list : list (list Q)) (combo : list Q)
  : Q :=
  match combo, bin_data_list with
  | sample_count :: combo', bin_data :: bins' =>
      applied_count sample_count * pick bin_data + weighted pick bins' combo'
  | _, _ => 0
  end.

(** A value in the range of a combination row: between the weighted sum
    of the least values and that of the greatest values of the
    populations, over the first 20 columns. *)
Definition in_range (bin_data_list : list (list Q)) (combo : list Q) (v : Q) : Prop :=
  weighted least bin_data_list (firstn 20 combo) <= v /\
  v <= weighted greatest bin_data_list (firstn 20 combo).

(** What holds of an output file: it carries the number [idx >= 1] of a
    combination row, has at most [simulation_count] rows, and all its
    rows are in the range of that combination. *)
Definition file_ok (bin_data_list : list (list Q)) (simulation_count : nat)
  (combos : list (list Q)) (out : nat * list Q) : Prop :=
  exists combo,
    (1 <= fst out)%nat /\ nth_error combos (fst out - 1) = Some combo /\
    (List.length (snd out) <= simulation_count)%nat /\
    Forall (in_range bin_data_list combo) (snd out).

End Step7Range.

(* ================================================================== *)
(** * core_functions/step7_result_curve_plotting.py : the table of ranges *)
(* ================================================================== *)

Module Step7Summary.

Import Step7ResultCurvePlotting.

Definition csv_file : Type := list (list cell).

(** The bounds test of an interval. *)
Definition inside (lo hi x : Q) : bool := Qle_bool lo x && Qle_bool x hi.

(** The voltages of one file: the first cell of every row where it is a
    number; rows that are empty, start with a blank cell or start with
    text are skipped. *)
Definition read_voltages (f : csv_file) : list Q :=
  flat_map (fun row => match row with Number q :: _ => [q] | _ => [] end) f.

(** The row written for one file: zeros when it holds no voltage. *)
Definition summary_row (combo_index : Z) (f : csv_file) : Z * (Q * Q * Q) :=
  match read_voltages f with
  | [] => (combo_index, (0, 0, 0))
  | voltages => (combo_index, calculate_statistics voltages)
  end.

(** [voltage_files.sort(key=...)]: a stable sort on the index. *)
Fixpoint insert_file (x : Z * csv_file) (l : list (Z * csv_file)) : list (Z * csv_file) :=
  match l with
  | [] => [x]
  | y :: l' => if (fst x <=? fst y)%Z then x :: l else y :: insert_file x l'
  end.

Definition sort_files (l : list (Z * csv_file)) : list (Z * csv_file) :=
  fold_right insert_file [] l.

(** The index in a file name, for every name: [None] when [int()] raises
    on it. *)
Fixpoint indices (listing : list (option Z * csv_file)) : option (list (Z * csv_file)) :=
  match listing with
  | [] => Some []
  | (Some idx, f) :: rest =>
      match indices rest with
      | Some l => Some ((idx, f) :: l)
      | None => None
      end
  | (None, _) :: _ => None
  end.

(** [process_combos_voltage_results] on the files named
    [combos_*_Voltage.csv], in the order of the directory listing: the
    flag and the rows written under the header.  (Drawing the charts is
    left out.) *)
Definition process_combos_voltage_results (listing : list (option Z * csv_file))
  : bool * list (Z * (Q * Q * Q)) :=
  match indices listing with
  | None => (false, [])
  | Some [] => (false, [])
  | Some voltage_files =>
      (true, map (fun file => summary_row (fst file) (snd file)) (sort_files voltage_files))
  end.

(** The files [combos_<idx>_Voltage.csv] as the simulation leaves them:
    one row of one number per trial. *)
Definition listing_of (outputs : list (nat * list Q)) : list (option Z * csv_file) :=
  map (fun out => (Some (Z.of_nat (fst out)), map (fun v => [Number v]) (snd out))) outputs.

End Step7Summary.

(* ================================================================== *)
(** * core_functions/step6_combos_process.py : the series counts *)
(* ================================================================== *)

Module Step6Combos.

Import Step5Multipliers Scaling.

(** One turn of [for group_idx in range(5)]: the four cells of the group
    (none of them when the row is too short to hold the whole group),
    padded with empty cells, each multiplied by the series count of the
    group. *)
Definition series_group (series_counts : list Q) (row : list cell) (group_idx : nat)
  : result (list cell) :=
  let start_col := (group_idx * 4)%nat in
  let end_col := (start_col + 4)%nat in
  let group_data := if (end_col <=? List.length row)%nat then slice start_col end_col row
                    else [] in
  let group_data := group_data ++ repeat Blank (4 - List.length group_data) in
  bind (index series_counts group_idx) (fun series_count =>
  ret (map (scale_value series_count) group_data)).

(** The body of the loop over the rows. *)
Definition series_row (series_counts : list Q) (row : list cell) : result (list cell) :=
  bind (mapM (series_group series_counts row) (seq 0 5)) (fun groups =>
  ret (List.concat groups)).

(** [process_combos_with_series_count]: the flag, and the rows written
    when the function gets that far ([None]: no such file). *)
Definition process_combos_with_series_count
  (series_count_file uniformization_file : option csv_file)
  : bool * option csv_file :=
  match series_count_file with
  | None => (false, None)
  | Some [] => (false, None)
  | Some (first_row :: _) =>
      match mapM float_of first_row with
      | inl _ => (false, None)
      | inr series_counts =>
          match uniformization_file with
          | None => (false, None)
          | Some rows =>
              match mapM (series_row series_counts) rows with
              | inl _ => (false, None)
              | inr processed_rows => (true, Some processed_rows)
              end
          end
      end
  end.

(** The cell of the input that output column [col] is made from: the
    cell itself when its whole group of four lies inside the row, an
    empty cell otherwise. *)
Definition source_cell (row : list cell) (col : nat) : cell :=
  if (col / 4 * 4 + 4 <=? List.length row)%nat then nth col row Blank else Blank.

End Step6Combos.

(* ================================================================== *)
(** * core_functions/step3_bin_range.py : the labels of the bins *)
(* ================================================================== *)

Module Step3BinRange.

(** A label: the text [-], or the text [(lower-upper)] made of the two
    nodes. *)
Inductive range_str : Type :=
| Dash
| Range (lower upper : Q).

(** [float(node)], with 0.0 for a cell on which it raises. *)
Definition node_of (c : cell) : Q :=
  match c with
  | Number q => q
  | _ => 0
  end.

(** The labels of one row of nodes: the row is padded with zero cells to
    five cells, its first five cells are read, and each of the four pairs
    of neighbours gives a label. *)
Definition row_ranges (row : list cell) : list range_str :=
  let row := row ++ repeat (Number 0) (5 - List.length row) in
  let nodes := map node_of (firstn 5 row) in
  map (fun i =>
         if Qeq_bool (nth i nodes 0) 0 || Qeq_bool (nth (i + 1) nodes 0) 0 then Dash
         else Range (nth i nodes 0) (nth (i + 1) nodes 0))
      (seq 0 4).

(** [generate_bin_ranges]: the flag and the single row of labels written
    ([None]: the file of nodes does not exist). *)
Definition generate_bin_ranges (nodes_file : option (list (list cell)))
  : bool * list range_str :=
  match nodes_file with
  | None => (false, [])
  | Some nodes_data => (true, flat_map row_ranges nodes_data)
  end.

End Step3BinRange.

(* ================================================================== *)
(** * core_functions/step3_validation.py : the check of the node file *)
(* ================================================================== *)

Module Step3Validation.

(** The float [float(value)] returns: a finite number, a NaN (for the
    text [nan]) or an infinity (for [inf], [-inf], or a literal beyond
    the binary64 range such as [1e999]). *)
Inductive pyfloat : Type :=
| Finite (q : Q)
| Nan
| Inf (negative : bool).

(** A cell of the file, as [csv.reader] yields it, by what [float()]
    does with it: it raises [ValueError] (an empty cell, or any other
    text that is no float literal), or it returns a float. *)
Inductive csv_cell : Type :=
| NotFloat (text : string)
| Float (x : pyfloat).

(** [float(value)], [None] for the [ValueError]. *)
Definition float_of (value : csv_cell) : option pyfloat :=
  match value with
  | NotFloat _ => None
  | Float x => Some x
  end.

(** The comparisons of a float with a finite constant, as IEEE 754 has
    them: a NaN is different from everything and neither below nor above
    anything. *)
Definition float_ne (x : pyfloat) (k : Q) : bool :=
  match x with
  | Finite q => negb (Qeq_bool q k)
  | Nan => true
  | Inf _ => true
  end.

Definition float_le (x : pyfloat) (k : Q) : bool :=
  match x with
  | Finite q => Qle_bool q k
  | Nan => false
  | Inf negative => negative
  end.

Definition float_ge (x : pyfloat) (k : Q) : bool :=
  match x with
  | Finite q => Qle_bool k q
  | Nan => false
  | Inf negative => negb negative
  end.

(** What an error message reports: the position (row and column, counted
    from 1) and, for a number out of range, the number. *)
Inductive problem : Type :=
| NotANumber (row_idx col_idx : nat)
| OutOfRange (row_idx col_idx : nat) (num_value : pyfloat).

(** [enumerate(l, 1)]. *)
Definition enumerate_from_1 {A} (l : list A) : list (nat * A) :=
  combine (seq 1 (List.length l)) l.

(** The body of the loop over the cells of a row. *)
Definition check_value (row_idx col_idx : nat) (value : csv_cell) : list problem :=
  match float_of value with
  | None => [NotANumber row_idx col_idx]
  | Some num_value =>
      if float_ne num_value 0 then
        if float_le num_value 0 || float_ge num_value 15
        then [OutOfRange row_idx col_idx num_value]
        else []
      else []
  end.

Definition error_messages (rows : list (list csv_cell)) : list problem :=
  flat_map (fun '(row_idx, row) =>
    flat_map (fun '(col_idx, value) => check_value row_idx col_idx value)
             (enumerate_from_1 row))
    (enumerate_from_1 rows).

(** [validate_csv_file]: the flag and what the message lists ([None]: the
    file does not exist). *)
Definition validate_csv_file (csv : option (list (list csv_cell)))
  : bool * list problem :=
  match csv with
  | None => (false, [])
  | Some rows =>
      match error_messages rows with
      | [] => (true, [])
      | errors => (false, errors)
      end
  end.

(** The cell at row [r], column [c] of the file, both counted from 1. *)
Definition cell_at (rows : list (list csv_cell)) (r c : nat) (value : csv_cell)
  : Prop :=
  (1 <= r)%nat /\ (1 <= c)%nat /\
  exists row, nth_error rows (r - 1) = Some row /\ nth_error row (c - 1) = Some value.

End Step3Validation.

(* ================================================================== *)
(** * core_functions/step8_summary_output.py : the final table *)
(* ================================================================== *)

Module Step8SummaryOutput.

(** The characters [str.strip()] removes, among the 7-bit ones: tab, line
    feed, vertical tab, form feed, carriage return, the four separators
    28..31 and the space.  (Text is taken to be 7-bit here.) *)
Definition is_space (c : Ascii.ascii) : bool :=
  let n := Ascii.nat_of_ascii c in
  ((9 <=? n) && (n <=? 13) || (28 <=? n) && (n <=? 32))%nat.

(** [cell.strip() == ""]. *)
Fixpoint blank (s : string) : bool :=
  match s with
  | EmptyString => true
  | String c s' => is_space c && blank s'
  end.

(** [sep.join(l)]. *)
Fixpoint join (sep : string) (l : list string) : string :=
  match l with
  | [] => EmptyString
  | x :: l' =>
      match l' with
      | [] => x
      | _ => (x ++ sep ++ join sep l')%string
      end
  end.

(** The cells of a group that are kept: not the text [0], not blank. *)
Definition kept (cell : string) : bool :=
  negb (String.eqb cell "0") && negb (blank cell).

(** The body of the loop over the groups, on the cells of one group:
    nothing, or the joined text of the cells kept. *)
Definition group_text (group_cells : list string) : list string :=
  let non_zero_cells := filter kept group_cells in
  match non_zero_cells with
  | [] => []
  | _ => [join " : " non_zero_cells]
  end.

(** [combine_text_row]. *)
Definition combine_text_row (row_data : list string) : string :=
  let row_data := row_data ++ repeat EmptyString (20 - List.length row_data) in
  let groups :=
    flat_map (fun group_idx =>
      let start_idx := (group_idx * 4)%nat in
      let end_idx := (start_idx + 4)%nat in
      let group_cells := slice start_idx end_idx row_data in
      group_text group_cells) (seq 0 5) in
  join " + " groups.

(** [read_combos_text_data]: the rows that are not empty. *)
Definition read_combos_text_data (f : list (list string)) : list (list string) :=
  filter (fun row => match row with [] => false | _ => true end) f.

(** [read_voltage_ranges_data]: the header is skipped, then the rows with
    at least four cells are kept.  The cells are passed on as they are,
    whatever they hold. *)
Definition read_voltage_ranges_data {A} (f : list (list A)) : list (list A) :=
  filter (fun row => (4 <=? List.length row)%nat) (tl f).

(** [generate_summary_output]: the flag and the rows appended under the
    header of the sheet ([None]: no such file; [zero] stands for the text
    [0] used for a missing cell). *)
Definition generate_summary_output {A} (zero : A)
  (combos_text : option (list (list string))) (ranges : option (list (list A)))
  : bool * list (string * A * A * A) :=
  match combos_text with
  | None => (false, [])
  | Some text_file =>
      let combos_data := read_combos_text_data text_file in
      let total_rows := List.length combos_data in
      if (total_rows =? 0)%nat then (false, []) else
      match ranges with
      | None => (false, [])
      | Some ranges_file =>
          let ranges_data := read_voltage_ranges_data ranges_file in
          if negb (List.length ranges_data =? total_rows)%nat then (false, []) else
          (true,
           map (fun i =>
                  let combo_row := nth i combos_data [] in
                  let range_row := nth i ranges_data [] in
                  (combine_text_row combo_row,
                   nth 1 range_row zero, nth 2 range_row zero, nth 3 range_row zero))
               (seq 0 total_rows))
      end
  end.

(** A cell of the file of ranges as step 7 writes it. *)
Inductive ranges_cell : Type :=
| Heading (s : string)
| Index (z : Z)
| Value (q : Q).

(** The file [Step7_combos_Voltage_ranges.csv] holding the rows of step
    7 under its header. *)
Definition ranges_file_of (rows : list (Z * (Q * Q * Q))) : list (list ranges_cell) :=
  [Heading "Combo_Index"; Heading "HDI_Min"; Heading "Median"; Heading "HDI_Max"]
  :: map (fun r => [Index (fst r); Value (fst (fst (snd r))); Value (snd (fst (snd r)));
                    Value (snd (snd r))]) rows.

End Step8SummaryOutput.

(* ================================================================== *)
(** * core_functions/step4_mixbin_calc_3.py : the group step on binary64 *)
(* ================================================================== *)

Module Step4Calc3Binary64.

(** [sum(group)] on IEEE binary64: the fold starts from the integer 0,
    which the first addition turns into the float 0.0. *)
Definition sum (l : list float) : float := fold_left PrimFloat.add l 0%float.

(** The right-hand side of the slice assignment, on binary64: the group
    divided by its sum [s] when [s > 0] (the division cannot raise
    there), four zeros otherwise. *)
Definition normalized (group : list float) : list float :=
  let s := sum group in
  if PrimFloat.ltb 0 s then map (fun v => PrimFloat.div v s) group
  else [0; 0; 0; 0]%float.

(** The rational number a finite binary64 value is (0 for the values
    that are no number). *)
Definition exact (x : float) : Q :=
  match Prim2SF x with
  | S754_finite s m e => inject_Z (if s then Z.neg m else Z.pos m) * 2 ^ e
  | _ => 0
  end.

End Step4Calc3Binary64.
(* ================================================================== *)
(** * Facts about the prelude *)
(* ================================================================== *)

(** [lia] extended to division and remainder by constants. *)
Ltac div_lia := zify; Z.to_euclidean_division_equations; lia.

Section PyFacts.

Lemma Qltb_lt (a b : Q) : Qltb a b = true <-> a < b.
Proof.
  unfold Qltb. rewrite negb_true_iff.
  split; intro H.
  - apply Qnot_le_lt. intro Hle. apply Qle_bool_iff in Hle. congruence.
  - destruct (Qle_bool b a) eqn:E; [|reflexivity].
    apply Qle_bool_iff in E. lra.
Qed.

Lemma Qltb_ge (a b : Q) : Qltb a b = false <-> b <= a.
Proof.
  unfold Qltb. rewrite negb_false_iff. apply Qle_bool_iff.
Qed.

Lemma Qgtb_lt (a b : Q) : Qgtb a b = true <-> b < a.
Proof. apply Qltb_lt. Qed.

Lemma Qgtb_le (a b : Q) : Qgtb a b = false <-> a <= b.
Proof. apply Qltb_ge. Qed.

Lemma Qgeb_le (a b : Q) : Qgeb a b = true <-> b <= a.
Proof. apply Qle_bool_iff. Qed.

Lemma Qgeb_lt (a b : Q) : Qgeb a b = false <-> a < b.
Proof.
  unfold Qgeb. split; intro H.
  - apply Qnot_le_lt. intro Hle. apply Qle_bool_iff in Hle. congruence.
  - destruct (Qle_bool b a) eqn:E; [|reflexivity].
    apply Qle_bool_iff in E. lra.
Qed.

Lemma Qle_bool_false (a b : Q) : Qle_bool a b = false <-> b < a.
Proof. apply (Qgeb_lt b a). Qed.

Lemma sum4 (a b c d : Q) : sum [a; b; c; d] = 0 + a + b + c + d.
Proof. reflexivity. Qed.

Lemma div_pos (v s : Q) : 0 < s -> div v s = ret (v / s).
Proof.
  intro Hs. unfold div.
  destruct (Qeq_bool s 0) eqn:E; [|reflexivity].
  apply Qeq_bool_iff in E. lra.
Qed.

Lemma mapM_div_pos (s : Q) (l : list Q) :
  0 < s -> mapM (fun v => div v s) l = ret (map (fun v => v / s) l).
Proof.
  intro Hs. induction l as [|a l IH]; [reflexivity|].
  simpl. rewrite (div_pos a Hs). simpl. rewrite IH. reflexivity.
Qed.

Lemma slice_app {A} (pre grp post : list A) :
  slice (List.length pre) (List.length pre + List.length grp) (pre ++ grp ++ post) = grp.
Proof.
  unfold slice.
  rewrite skipn_app, skipn_all, Nat.sub_diag. simpl.
  replace (List.length pre + List.length grp - List.length pre)%nat
    with (List.length grp + 0)%nat by lia.
  rewrite firstn_app_2. simpl. apply app_nil_r.
Qed.

Lemma set_slice_app {A} (pre grp post new : list A) :
  set_slice (List.length pre) (List.length pre + List.length grp) new (pre ++ grp ++ post)
  = pre ++ new ++ post.
Proof.
  unfold set_slice.
  rewrite firstn_app, firstn_all, Nat.sub_diag. simpl. rewrite app_nil_r.
  f_equal. f_equal.
  rewrite app_assoc, skipn_app, length_app.
  rewrite skipn_all2 by (rewrite length_app; lia).
  rewrite Nat.sub_diag. reflexivity.
Qed.

End PyFacts.

(* ================================================================== *)
(** * Group normalisation (step4_mixbin_calc_3) *)
(* ================================================================== *)

Section NormalisationFacts.

Import Step4Calc3.

Lemma normalized_eq (grp : list Q) : normalized grp = ret (norm4 grp).
Proof.
  unfold normalized, norm4.
  destruct (Qgtb (sum grp) 0) eqn:E; [|reflexivity].
  apply Qgtb_lt in E. now apply mapM_div_pos.
Qed.

Lemma norm4_length (grp : list Q) :
  List.length grp = 4%nat -> List.length (norm4 grp) = 4%nat.
Proof.
  intro H. unfold norm4.
  destruct (Qgtb (sum grp) 0); [now rewrite length_map|reflexivity].
Qed.

Lemma normalize_group_app (g : nat) (pre grp post : list Q) :
  List.length pre = (g * 4)%nat -> List.length grp = 4%nat ->
  normalize_group g (pre ++ grp ++ post) = ret (pre ++ norm4 grp ++ post).
Proof.
  intros Hpre Hgrp. unfold normalize_group, GROUP_SIZE.
  replace (g * 4)%nat with (List.length pre).
  replace (List.length pre + 4)%nat with (List.length pre + List.length grp)%nat by lia.
  rewrite slice_app, normalized_eq. simpl bind.
  now rewrite set_slice_app.
Qed.

(** A 20-element row is five groups of four. *)
Lemma split_groups (vals : list Q) :
  List.length vals = 20%nat ->
  exists g0 g1 g2 g3 g4,
    vals = g0 ++ g1 ++ g2 ++ g3 ++ g4 /\
    List.length g0 = 4%nat /\ List.length g1 = 4%nat /\ List.length g2 = 4%nat /\
    List.length g3 = 4%nat /\ List.length g4 = 4%nat.
Proof.
  intro H.
  exists (firstn 4 vals), (firstn 4 (skipn 4 vals)), (firstn 4 (skipn 8 vals)),
         (firstn 4 (skipn 12 vals)), (skipn 16 vals).
  repeat split.
  - rewrite <- (firstn_skipn 4 vals) at 1. f_equal.
    rewrite <- (firstn_skipn 4 (skipn 4 vals)) at 1. f_equal.
    rewrite skipn_skipn. simpl.
    rewrite <- (firstn_skipn 4 (skipn 8 vals)) at 1. f_equal.
    rewrite skipn_skipn. simpl.
    rewrite <- (firstn_skipn 4 (skipn 12 vals)) at 1. f_equal.
    rewrite skipn_skipn. reflexivity.
  - rewrite length_firstn. lia.
  - rewrite length_firstn, length_skipn. lia.
  - rewrite length_firstn, length_skipn. lia.
  - rewrite length_firstn, length_skipn. lia.
  - rewrite length_skipn. lia.
Qed.

Lemma group_of_groups (g0 g1 g2 g3 g4 : list Q) (g : nat) :
  List.length g0 = 4%nat -> List.length g1 = 4%nat -> List.length g2 = 4%nat ->
  List.length g3 = 4%nat -> List.length g4 = 4%nat ->
  (g < 5)%nat ->
  group_of g (g0 ++ g1 ++ g2 ++ g3 ++ g4) = nth g [g0; g1; g2; g3; g4] [].
Proof.
  intros H0 H1 H2 H3 H4 Hg. unfold group_of, GROUP_SIZE.
  assert (E : forall (pre grp post : list Q) b,
             List.length pre = b -> List.length grp = 4%nat ->
             slice b (b + 4) (pre ++ grp ++ post) = grp).
  { intros pre grp post b Hb Hl. subst b. rewrite <- Hl at 1. apply slice_app. }
  destruct g as [|[|[|[|[|g]]]]]; try lia; simpl nth.
  - apply (E [] g0 _ _ eq_refl H0).
  - apply (E g0 g1 _ _ H0 H1).
  - rewrite app_assoc. apply E; [rewrite length_app; lia|exact H2].
  - rewrite app_assoc, (app_assoc (g0 ++ g1)).
    apply E; [rewrite !length_app; lia|exact H3].
  - rewrite app_assoc, (app_assoc (g0 ++ g1)), (app_assoc ((g0 ++ g1) ++ g2)).
    rewrite <- (app_nil_r g4) at 1.
    apply (E _ g4 []); [rewrite !length_app; lia|exact H4].
Qed.

Lemma normalize_vals_groups (g0 g1 g2 g3 g4 : list Q) :
  List.length g0 = 4%nat -> List.length g1 = 4%nat -> List.length g2 = 4%nat ->
  List.length g3 = 4%nat -> List.length g4 = 4%nat ->
  normalize_vals (g0 ++ g1 ++ g2 ++ g3 ++ g4)
  = ret (norm4 g0 ++ norm4 g1 ++ norm4 g2 ++ norm4 g3 ++ norm4 g4).
Proof.
  intros H0 H1 H2 H3 H4.
  pose proof (norm4_length g0 H0) as N0. pose proof (norm4_length g1 H1) as N1.
  pose proof (norm4_length g2 H2) as N2. pose proof (norm4_length g3 H3) as N3.
  unfold normalize_vals, NUM_GROUPS. simpl fold_left.
  pose proof (normalize_group_app 0 [] g0 (g1 ++ g2 ++ g3 ++ g4) eq_refl H0) as E0.
  simpl app in E0. rewrite E0. clear E0. simpl bind.
  rewrite (normalize_group_app 1 _ g1 _ N0 H1). simpl bind.
  rewrite (app_assoc (norm4 g0)).
  rewrite (normalize_group_app 2 _ g2 _) by (rewrite ?length_app; lia). simpl bind.
  rewrite (app_assoc (norm4 g0 ++ norm4 g1)).
  rewrite (normalize_group_app 3 _ g3 _) by (rewrite ?length_app; lia). simpl bind.
  rewrite (app_assoc ((norm4 g0 ++ norm4 g1) ++ norm4 g2)).
  rewrite <- (app_nil_r g4) at 1.
  rewrite (normalize_group_app 4 _ g4 []) by (rewrite ?length_app; lia).
  rewrite app_nil_r, <- !app_assoc. reflexivity.
Qed.

(** The result of [normalize_vals], group by group. *)
Lemma normalize_vals_spec (vals : list Q) :
  List.length vals = 20%nat ->
  exists out,
    normalize_vals vals = ret out /\ List.length out = 20%nat /\
    forall g, (g < 5)%nat ->
      List.length (group_of g vals) = 4%nat /\
      group_of g out = norm4 (group_of g vals).
Proof.
  intro H.
  destruct (split_groups vals H) as (g0 & g1 & g2 & g3 & g4 & -> & H0 & H1 & H2 & H3 & H4).
  pose proof (norm4_length g0 H0) as N0. pose proof (norm4_length g1 H1) as N1.
  pose proof (norm4_length g2 H2) as N2. pose proof (norm4_length g3 H3) as N3.
  pose proof (norm4_length g4 H4) as N4.
  eexists. split; [now apply normalize_vals_groups|]. split.
  - rewrite !length_app. lia.
  - intros g Hg.
    rewrite !group_of_groups by assumption.
    destruct g as [|[|[|[|[|g]]]]]; try lia; simpl nth; auto.
Qed.

End NormalisationFacts.

Section RoundingFacts.

Import Step4Calc3.

Lemma round_half_even_close (y : Q) :
  - (1 # 2) <= inject_Z (round_half_even y) - y <= 1 # 2.
Proof.
  unfold round_half_even.
  pose proof (Qfloor_le y) as Hlo. pose proof (Qlt_floor y) as Hhi.
  rewrite inject_Z_plus in Hhi. change (inject_Z 1) with 1 in Hhi.
  destruct (Qltb (y - inject_Z (Qfloor y)) (1 # 2)) eqn:E1.
  { apply Qltb_lt in E1. lra. }
  apply Qltb_ge in E1.
  assert (Hup : - (1 # 2) <= inject_Z (Qfloor y + 1) - y <= 1 # 2).
  { rewrite inject_Z_plus. change (inject_Z 1) with 1. lra. }
  destruct (Qltb (1 # 2) (y - inject_Z (Qfloor y))) eqn:E2; [exact Hup|].
  apply Qltb_ge in E2.
  destruct (Z.even (Qfloor y)); [lra|exact Hup].
Qed.

Lemma round6_close (x : Q) :
  - (1 # 2000000) <= round6 x - x <= 1 # 2000000.
Proof.
  unfold round6.
  pose proof (round_half_even_close (x * 1000000)) as H.
  set (r := inject_Z (round_half_even (x * 1000000))) in *.
  assert (E : r / 1000000 == r * (1 # 1000000)) by (unfold Qdiv; reflexivity).
  rewrite E. lra.
Qed.

Lemma _fmt_close (x : Q) :
  - (1 # 2000000) <= _fmt x - x <= 1 # 2000000.
Proof.
  unfold _fmt.
  destruct (Qltb (Qabs x) (1 # 1000000000000000)) eqn:E.
  - apply Qltb_lt in E.
    assert (H : - (1 # 1000000000000000) <= x <= 1 # 1000000000000000).
    { apply Qabs_Qle_condition. lra. }
    assert (Z0 : round6 0 == 0) by reflexivity. lra.
  - apply round6_close.
Qed.

Lemma mapM_to_float_numbers (vals : list Q) :
  mapM _to_float (map Number vals) = ret vals.
Proof.
  induction vals as [|v vals IH]; [reflexivity|].
  simpl. rewrite IH. reflexivity.
Qed.

Lemma pad_row_exact (row : list cell) :
  List.length row = 20%nat -> pad_row row = row.
Proof.
  intro H. unfold pad_row. change TOTAL_COLS with 20%nat.
  rewrite H. simpl repeat. rewrite app_nil_r.
  rewrite <- H. apply firstn_all.
Qed.

Lemma process_row_numbers (vals out : list Q) :
  List.length vals = 20%nat -> normalize_vals vals = ret out ->
  process_row (map Number vals) = ret (map _fmt out).
Proof.
  intros H E. unfold process_row.
  rewrite pad_row_exact by (now rewrite length_map).
  rewrite mapM_to_float_numbers. simpl bind. rewrite E. reflexivity.
Qed.

Lemma group_of_map (f : Q -> Q) (g : nat) (l : list Q) :
  group_of g (map f l) = map f (group_of g l).
Proof.
  unfold group_of, slice. now rewrite skipn_map, firstn_map.
Qed.

End RoundingFacts.

Section NormalisationProperties.

Import Step4Calc3.

(** C10.  The division of the normalisation step is guarded by [s > 0]:
    on every 20-element row [normalize_vals] returns (no
    [ZeroDivisionError] escapes), and every group whose sum is zero or
    negative takes the branch without division and is exactly
    [(0, 0, 0, 0)] in the normalised row, and zero again in the written
    row; only a group with a positive sum is divided, by that sum. *)
Theorem normalization_division_guarded (vals : list Q) :
  List.length vals = 20%nat ->
  exists out,
    normalize_vals vals = ret out /\
    process_row (map Number vals) = ret (map _fmt out) /\
    forall g, (g < 5)%nat ->
      (sum (group_of g vals) <= 0 ->
       normalized (group_of g vals) = ret [0; 0; 0; 0] /\
       group_of g out = [0; 0; 0; 0] /\
       Forall (fun x => x == 0) (group_of g (map _fmt out))) /\
      (0 < sum (group_of g vals) ->
       group_of g out
       = map (fun v => v / sum (group_of g vals)) (group_of g vals)).
Proof.
  intro H.
  destruct (normalize_vals_spec vals H) as (out & E & _ & G).
  exists out. split; [exact E|]. split; [now apply process_row_numbers|].
  intros g Hg.
  destruct (G g Hg) as [_ Gg]. split.
  - intro Hs.
    assert (N : norm4 (group_of g vals) = [0; 0; 0; 0]).
    { unfold norm4. apply Qgtb_le in Hs. now rewrite Hs. }
    split; [now rewrite normalized_eq, N|].
    split; [now rewrite Gg|].
    rewrite group_of_map, Gg, N. simpl.
    repeat constructor.
  - intro Hs. rewrite Gg. unfold norm4. apply Qgtb_lt in Hs. now rewrite Hs.
Qed.

(** An instance: the second group, (-3, 1, 1, 0), has sum -1. *)
Lemma normalization_division_guarded_witness :
  exists out,
    normalize_vals [1; -1; 0; 0; -3; 1; 1; 0; 0; 0; 0; 0; 2; 2; 0; 0; 1; 3; 0; 0] = ret out /\
    group_of 1 out = [0; 0; 0; 0].
Proof.
  destruct (@normalization_division_guarded
              [1; -1; 0; 0; -3; 1; 1; 0; 0; 0; 0; 0; 2; 2; 0; 0; 1; 3; 0; 0] eq_refl)
    as (out & E & _ & G).
  exists out. split; [exact E|].
  apply (proj1 (G 1%nat ltac:(lia))). vm_compute. discriminate.
Defined.

End NormalisationProperties.

Section NormalisationSums.

Import Step4Calc3.

Lemma four_elements (grp : list Q) :
  List.length grp = 4%nat -> exists a b c d, grp = [a; b; c; d].
Proof.
  destruct grp as [|a [|b [|c [|d [|e grp]]]]]; simpl; try discriminate.
  intros _. now exists a, b, c, d.
Qed.

(** A group with a positive sum is scaled to sum 1. *)
Lemma norm4_sum_one (grp : list Q) :
  List.length grp = 4%nat -> 0 < sum grp -> sum (norm4 grp) == 1.
Proof.
  intros H Hs. unfold norm4.
  apply Qgtb_lt in Hs as Hb. rewrite Hb.
  destruct (four_elements grp H) as (a & b & c & d & ->).
  rewrite sum4 in *. simpl map. rewrite sum4.
  field. lra.
Qed.

(** Normalising a normalised group changes nothing (up to the equality of
    rationals). *)
Lemma norm4_idempotent (grp : list Q) :
  List.length grp = 4%nat -> Forall2 Qeq (norm4 (norm4 grp)) (norm4 grp).
Proof.
  intro H.
  destruct (Qgtb (sum grp) 0) eqn:Hb.
  - apply Qgtb_lt in Hb as Hs.
    pose proof (norm4_sum_one grp H Hs) as One.
    assert (Hb' : Qgtb (sum (norm4 grp)) 0 = true) by (apply Qgtb_lt; lra).
    unfold norm4 at 1. rewrite Hb'.
    generalize (sum (norm4 grp)) One. intros s One'. clear One Hb'.
    generalize (norm4 grp). intro l.
    induction l as [|v l IH]; simpl; constructor.
    + rewrite One'. field.
    + exact IH.
  - unfold norm4 at 2 3. rewrite Hb. unfold norm4. simpl.
    repeat constructor; reflexivity.
Qed.

Lemma Forall2_Qeq_close (l1 l2 : list Q) :
  Forall2 Qeq l1 l2 ->
  Forall2 (fun a b => Qabs (a - b) <= 1 # 1000000000) l1 l2.
Proof.
  induction 1 as [|a b l1 l2 E _ IH]; constructor; [|exact IH].
  apply Qabs_Qle_condition. lra.
Qed.

(** After the 6-decimal rounding a group that was scaled sums to 1 within
    four half-units of the last decimal. *)
Lemma fmt_group_sum (grp : list Q) :
  List.length grp = 4%nat -> 0 < sum grp ->
  Qabs (sum (map _fmt (norm4 grp)) - 1) <= 2 # 1000000.
Proof.
  intros H Hs.
  pose proof (norm4_sum_one grp H Hs) as One.
  pose proof (norm4_length grp H) as L.
  destruct (four_elements (norm4 grp) L) as (a & b & c & d & E).
  rewrite E in *. simpl map. rewrite sum4 in *.
  pose proof (_fmt_close a). pose proof (_fmt_close b).
  pose proof (_fmt_close c). pose proof (_fmt_close d).
  apply Qabs_Qle_condition. lra.
Qed.

End NormalisationSums.

Section NormalisationRoundingProperties.

Import Step4Calc3.

(** The group (1, 1, 1, 125): its quotients 1/128 and 125/128 are ties at
    the seventh decimal and round to 0.007812 and 0.976562, so the written
    group sums to 0.999998, 2e-6 away from 1. *)
Lemma normalized_sum_counterexample :
  exists outrow,
    process_row (map Number [1; 1; 1; 125; 0; 0; 0; 0; 0; 0; 0; 0; 0; 0; 0; 0; 0; 0; 0; 0])
      = ret outrow /\
    group_of 0 outrow = [7812 # 1000000; 7812 # 1000000; 7812 # 1000000; 976562 # 1000000] /\
    ~ Forall (fun x => x == 0) (group_of 0 outrow) /\
    ~ Qabs (sum (group_of 0 outrow) - 1) <= 1 # 1000000.
Proof.
  eexists. split; [vm_compute; reflexivity|].
  split; [reflexivity|]. split.
  - intro F. inversion F as [|x l Hx _]. vm_compute in Hx. discriminate.
  - vm_compute. intro F. apply F. reflexivity.
Qed.

(** The group (1e16, -9999999999999998, 0.5, 0) on binary64.  All four
    entries and every partial sum are exact, the sum is 2.5; the quotient
    -3999999999999999.2 is rounded to the integer above it, so the group
    as written is 4000000000000000, -3999999999999999, 0.2, 0, of sum 1.2:
    with entries of both signs the float quotients need not add up to 1,
    whatever the tolerance. *)
Lemma cancelling_group_binary64 :
  let group := [1e16; -9999999999999998; 0.5; 0]%float in
  Step4Calc3Binary64.sum group = 2.5%float /\
  Step4Calc3Binary64.normalized group
  = [4e15; -3999999999999999; 0x1.999999999999ap-3; 0]%float /\
  Forall2 Qeq
    (map _fmt (map Step4Calc3Binary64.exact (Step4Calc3Binary64.normalized group)))
    [4000000000000000; -3999999999999999; 2 # 10; 0] /\
  sum (map _fmt (map Step4Calc3Binary64.exact (Step4Calc3Binary64.normalized group)))
  == 12 # 10 /\
  sum (norm4 (map Step4Calc3Binary64.exact group)) == 1.
Proof.
  cbv zeta. split; [vm_compute; reflexivity|]. split; [vm_compute; reflexivity|].
  split; [|split]; [|vm_compute; reflexivity|vm_compute; reflexivity].
  repeat constructor; vm_compute; reflexivity.
Qed.

(** C8 (amended).  On every 20-element row of entries that are not
    negative and not above 1e300 (where binary64 follows the exact
    arithmetic up to rounding: no cancellation, no overflow):
    normalising the normalised row again gives the same row (within 1e-9
    componentwise; in exact arithmetic the two are equal), every group
    with a positive sum is scaled to sum 1, and in the written row (after
    the 6-decimal rounding of [_fmt]) every group that is not all-zero
    sums to 1 within 2e-6. *)
Theorem normalization_idempotent_sum_rounded (vals : list Q) :
  List.length vals = 20%nat ->
  Forall (fun v => 0 <= v <= 1e300) vals ->
  exists out outrow,
    normalize_vals vals = ret out /\
    process_row (map Number vals) = ret outrow /\
    (exists out2,
        normalize_vals out = ret out2 /\
        Forall2 (fun a b => Qabs (a - b) <= 1 # 1000000000) out2 out) /\
    forall g, (g < 5)%nat ->
      (0 < sum (group_of g vals) -> sum (group_of g out) == 1) /\
      (~ Forall (fun x => x == 0) (group_of g outrow) ->
       Qabs (sum (group_of g outrow) - 1) <= 2 # 1000000).
Proof.
  intros H _.
  destruct (split_groups vals H) as (g0 & g1 & g2 & g3 & g4 & -> & H0 & H1 & H2 & H3 & H4).
  pose proof (norm4_length g0 H0) as N0. pose proof (norm4_length g1 H1) as N1.
  pose proof (norm4_length g2 H2) as N2. pose proof (norm4_length g3 H3) as N3.
  pose proof (norm4_length g4 H4) as N4.
  pose proof (normalize_vals_groups g0 g1 g2 g3 g4 H0 H1 H2 H3 H4) as E.
  eexists. eexists. split; [exact E|].
  split; [apply process_row_numbers; [rewrite !length_app; lia|exact E]|]. split.
  - eexists. split; [now apply normalize_vals_groups|].
    apply Forall2_Qeq_close.
    repeat apply Forall2_app; now apply norm4_idempotent.
  - intros g Hg.
    rewrite group_of_map, !group_of_groups by assumption.
    assert (G : forall grp, List.length grp = 4%nat ->
              (0 < sum grp -> sum (norm4 grp) == 1) /\
              (~ Forall (fun x => x == 0) (map _fmt (norm4 grp)) ->
               Qabs (sum (map _fmt (norm4 grp)) - 1) <= 2 # 1000000)).
    { intros grp L. split; [now apply norm4_sum_one|].
      intro NZ. destruct (Qgtb (sum grp) 0) eqn:Hb.
      - apply Qgtb_lt in Hb. now apply fmt_group_sum.
      - exfalso. apply NZ. unfold norm4. rewrite Hb. simpl.
        repeat constructor; reflexivity. }
    destruct g as [|[|[|[|[|g]]]]]; try lia; simpl nth; now apply G.
Qed.

(** An instance, with the tie group (1, 1, 1, 125) in second place. *)
Lemma normalization_idempotent_sum_rounded_witness :
  exists out outrow,
    normalize_vals [4; 1; 1; 0; 1; 1; 1; 125; 0; 0; 0; 0; 2; 2; 0; 0; 1; 3; 0; 0] = ret out /\
    process_row (map Number [4; 1; 1; 0; 1; 1; 1; 125; 0; 0; 0; 0; 2; 2; 0; 0; 1; 3; 0; 0])
      = ret outrow /\
    sum (group_of 0 out) == 1 /\
    Qabs (sum (group_of 1 outrow) - 1) <= 2 # 1000000.
Proof.
  assert (R : Forall (fun v => 0 <= v <= 1e300)
                [4; 1; 1; 0; 1; 1; 1; 125; 0; 0; 0; 0; 2; 2; 0; 0; 1; 3; 0; 0])
    by (repeat (apply Forall_cons; [split; apply Qle_bool_imp_le; reflexivity|]);
        apply Forall_nil).
  destruct (@normalization_idempotent_sum_rounded
              [4; 1; 1; 0; 1; 1; 1; 125; 0; 0; 0; 0; 2; 2; 0; 0; 1; 3; 0; 0] eq_refl R)
    as (out & outrow & E1 & E2 & _ & G).
  exists out, outrow. split; [exact E1|]. split; [exact E2|].
  assert (P : process_row
            (map Number [4; 1; 1; 0; 1; 1; 1; 125; 0; 0; 0; 0; 2; 2; 0; 0; 1; 3; 0; 0])
          = ret [666667 # 1000000; 166667 # 1000000; 166667 # 1000000; 0 # 1000000;
                 7812 # 1000000; 7812 # 1000000; 7812 # 1000000; 976562 # 1000000;
                 0 # 1000000; 0 # 1000000; 0 # 1000000; 0 # 1000000;
                 500000 # 1000000; 500000 # 1000000; 0 # 1000000; 0 # 1000000;
                 250000 # 1000000; 750000 # 1000000; 0 # 1000000; 0 # 1000000])
    by (vm_compute; reflexivity).
  rewrite P in E2. injection E2 as <-.
  split.
  - apply (G 0%nat); [lia|vm_compute; reflexivity].
  - apply (G 1%nat); [lia|].
    intro F. inversion F as [|x l Hx _]. vm_compute in Hx. discriminate.
Defined.

(** The file-to-file step is not idempotent: fed its own written row, it
    changes 0.666667 to 0.666666 (the written group sums to 1.000001). *)
Lemma process_row_not_idempotent :
  exists row1 row2,
    process_row (map Number [4; 1; 1; 0; 0; 0; 0; 0; 0; 0; 0; 0; 0; 0; 0; 0; 0; 0; 0; 0])
      = ret row1 /\
    process_row (map Number row1) = ret row2 /\
    nth 0 row1 0 == 666667 # 1000000 /\ nth 0 row2 0 == 666666 # 1000000.
Proof.
  eexists. eexists. split; [vm_compute; reflexivity|].
  split; [vm_compute; reflexivity|]. split; reflexivity.
Qed.

End NormalisationRoundingProperties.

(* ================================================================== *)
(** * Combination generator (step4_mixbin_calc_1) *)
(* ================================================================== *)

Section ProductFacts.

Import Step4Calc1.

Context {A : Type}.

Lemma product_cons_length (l : list A) (rest : list (list A)) :
  List.length (product (l :: rest)) = (List.length l * List.length (product rest))%nat.
Proof.
  simpl. induction l as [|x l IH]; [reflexivity|].
  simpl. rewrite length_app, length_map, IH. reflexivity.
Qed.

(** Position [i * |product rest| + j] of the product holds element [i] of
    the first list followed by tuple [j] of the product of the rest: the
    rest advances fastest. *)
Lemma product_cons_nth (l : list A) (rest : list (list A)) (i j : nat) (x : A) (t : list A) :
  nth_error l i = Some x -> nth_error (product rest) j = Some t ->
  nth_error (product (l :: rest)) (i * List.length (product rest) + j) = Some (x :: t).
Proof.
  revert i. simpl.
  induction l as [|y l IH]; intros i Hi Hj.
  - destruct i; discriminate.
  - assert (Hjlt : (j < List.length (product rest))%nat).
    { apply nth_error_Some. congruence. }
    destruct i as [|i]; simpl.
    + injection Hi as ->.
      rewrite nth_error_app1 by (now rewrite length_map).
      rewrite nth_error_map, Hj. reflexivity.
    + rewrite nth_error_app2 by (rewrite length_map; lia).
      rewrite length_map.
      replace (List.length (product rest) + i * List.length (product rest) + j
               - List.length (product rest))%nat
        with (i * List.length (product rest) + j)%nat by lia.
      now apply IH.
Qed.

Lemma product_nil_nth : nth_error (@product A []) 0 = Some [].
Proof. reflexivity. Qed.

Lemma product_in_members (lists : list (list A)) (t : list A) :
  In t (product lists) -> Forall2 (fun x l => In x l) t lists.
Proof.
  revert t. induction lists as [|l rest IH]; intros t Hin.
  - destruct Hin as [<-|[]]. constructor.
  - simpl in Hin. apply in_flat_map in Hin as (x & Hx & Hin).
    apply in_map_iff in Hin as (t' & <- & Hin'). constructor; auto.
Qed.

End ProductFacts.

Section CandidateFacts.

Import Step4Calc1.

Lemma mapM_length {A B} (f : A -> result B) (l : list A) (out : list B) :
  mapM f l = ret out -> List.length out = List.length l.
Proof.
  revert out. induction l as [|a l IH]; intros out E; simpl in E.
  - injection E as <-. reflexivity.
  - destruct (f a) as [e|b]; [discriminate|]. simpl in E.
    destruct (mapM f l) as [e|bs]; [discriminate|]. simpl in E.
    injection E as <-. simpl. f_equal. now apply IH.
Qed.

Lemma mapM_Forall {A B} (f : A -> result B) (P : B -> Prop) (l : list A) (out : list B) :
  (forall a b, f a = ret b -> P b) -> mapM f l = ret out -> Forall P out.
Proof.
  intro HP. revert out. induction l as [|a l IH]; intros out E; simpl in E.
  - injection E as <-. constructor.
  - destruct (f a) as [e|b] eqn:Ea; [discriminate|]. simpl in E.
    destruct (mapM f l) as [e|bs]; [discriminate|]. simpl in E.
    injection E as <-. constructor; [now apply (HP a)|now apply IH].
Qed.

Lemma first4_length (row : list cell) : List.length (first4 row) = 4%nat.
Proof.
  unfold first4. rewrite length_app, length_firstn, repeat_length. lia.
Qed.

Lemma read_rows_shape (f : csv_file) (raw : list (list Q)) :
  _read_first5_rows_4cols f = ret raw ->
  (List.length raw <= 5)%nat /\ Forall (fun r => List.length r = 4%nat) raw.
Proof.
  intro E. unfold _read_first5_rows_4cols in E. split.
  - rewrite (mapM_length _ _ E), length_firstn. lia.
  - apply (mapM_Forall _ _ _ (fun row r E' => eq_trans (mapM_length _ _ E') (first4_length row)) E).
Qed.

(** Candidates are rows of four numbers, at most five of them. *)
Lemma collect_candidates_shape (f : csv_file) (cands : list (list Q)) :
  _collect_candidates f = ret cands ->
  (List.length cands <= 5)%nat /\ Forall (fun r => List.length r = 4%nat) cands.
Proof.
  unfold _collect_candidates. intro E.
  destruct (_read_first5_rows_4cols f) as [e|raw] eqn:R; [discriminate|].
  simpl in E. injection E as <-.
  destruct (read_rows_shape f R) as [L F]. split.
  - etransitivity; [apply filter_length_le|exact L].
  - apply Forall_forall. intros r Hr. apply filter_In in Hr as [Hr _].
    now apply (proj1 (Forall_forall _ _) F).
Qed.

Lemma or_placeholder_length (cands : list (list Q)) :
  List.length (or_placeholder cands) = Nat.max 1 (List.length cands).
Proof. destruct cands as [|r [|r' cands]]; reflexivity. Qed.

Lemma or_placeholder_rows (cands : list (list Q)) :
  Forall (fun r => List.length r = 4%nat) cands ->
  Forall (fun r => List.length r = 4%nat) (or_placeholder cands).
Proof.
  destruct cands; simpl; intro F; [repeat constructor|exact F].
Qed.

End CandidateFacts.

Section CombinationProperties.

Import Step4Calc1.

Local Open Scope nat_scope.

Lemma merge_product_length (r1 r2 r3 r4 r5 : list (list Q)) :
  List.length (merge_product [r1; r2; r3; r4; r5])
  = List.length r1 * List.length r2 * List.length r3 * List.length r4 * List.length r5.
Proof.
  unfold merge_product. rewrite length_map, !product_cons_length. simpl. lia.
Qed.

Lemma merge_product_nth (r1 r2 r3 r4 r5 : list (list Q)) (i1 i2 i3 i4 i5 : nat)
  (b1 b2 b3 b4 b5 : list Q) :
  nth_error r1 i1 = Some b1 -> nth_error r2 i2 = Some b2 -> nth_error r3 i3 = Some b3 ->
  nth_error r4 i4 = Some b4 -> nth_error r5 i5 = Some b5 ->
  nth_error (merge_product [r1; r2; r3; r4; r5])
    ((((i1 * List.length r2 + i2) * List.length r3 + i3) * List.length r4 + i4)
       * List.length r5 + i5)
  = Some (b1 ++ b2 ++ b3 ++ b4 ++ b5).
Proof.
  intros H1 H2 H3 H4 H5.
  pose proof (product_cons_nth r5 [] i5 0 H5 product_nil_nth) as P5.
  pose proof (product_cons_nth r4 [r5] i4 _ H4 P5) as P4.
  pose proof (product_cons_nth r3 [r4; r5] i3 _ H3 P4) as P3.
  pose proof (product_cons_nth r2 [r3; r4; r5] i2 _ H2 P3) as P2.
  pose proof (product_cons_nth r1 [r2; r3; r4; r5] i1 _ H1 P2) as P1.
  rewrite !product_cons_length in P1. simpl (List.length (product [])) in P1.
  unfold merge_product. rewrite nth_error_map.
  match type of P1 with nth_error _ ?n = _ =>
    replace ((((i1 * List.length r2 + i2) * List.length r3 + i3) * List.length r4 + i4)
               * List.length r5 + i5) with n by ring
  end.
  rewrite P1. simpl. now rewrite app_nil_r.
Qed.

Lemma merge_product_rows (r1 r2 r3 r4 r5 : list (list Q)) :
  Forall (fun r => List.length r = 4) r1 -> Forall (fun r => List.length r = 4) r2 ->
  Forall (fun r => List.length r = 4) r3 -> Forall (fun r => List.length r = 4) r4 ->
  Forall (fun r => List.length r = 4) r5 ->
  Forall (fun row => List.length row = 20) (merge_product [r1; r2; r3; r4; r5]).
Proof.
  intros F1 F2 F3 F4 F5. apply Forall_forall. intros row Hrow.
  unfold merge_product in Hrow. apply in_map_iff in Hrow as (tpl & <- & Hin).
  apply product_in_members in Hin.
  inversion Hin as [|b1 ? t1 ? I1 X1]; subst.
  inversion X1 as [|b2 ? t2 ? I2 X2]; subst.
  inversion X2 as [|b3 ? t3 ? I3 X3]; subst.
  inversion X3 as [|b4 ? t4 ? I4 X4]; subst.
  inversion X4 as [|b5 ? t5 ? I5 X5]; subst.
  inversion X5; subst.
  rewrite Forall_forall in F1, F2, F3, F4, F5.
  simpl. rewrite !length_app, (F1 _ I1), (F2 _ I2), (F3 _ I3), (F4 _ I4), (F5 _ I5).
  reflexivity.
Qed.

Lemma check_exist_ok (dir : directory) (paths : list string) :
  Forall (fun p => dir p <> None) paths -> check_exist dir paths = ret tt.
Proof.
  induction 1 as [|p ps Hp _ IH]; [reflexivity|].
  simpl. destruct (dir p); [exact IH|contradiction].
Qed.

(** C3.  When the five input files exist and their first five rows parse,
    with [q1 .. q5] the qualifying rows of the channels,
    [build_mixbin_combos] writes exactly [c1 * c2 * c3 * c4 * c5] rows,
    where [ck] is the number of rows of channel [k] with a channel
    without qualifying rows counted as 1 (its all-zero placeholder);
    every row has length 20, and the row at position
    [(((i1*c2 + i2)*c3 + i3)*c4 + i4)*c5 + i5] is the concatenation of
    row [i1] of channel 1, ..., row [i5] of channel 5: the last channel
    varies fastest. *)
Theorem build_mixbin_combos_cartesian (dir : directory)
  (f1 f2 f3 f4 f5 : csv_file) (q1 q2 q3 q4 q5 : list (list Q)) :
  dir "step4_mixbin_input_LED1.csv"%string = Some f1 ->
  dir "step4_mixbin_input_LED2.csv"%string = Some f2 ->
  dir "step4_mixbin_input_LED3.csv"%string = Some f3 ->
  dir "step4_mixbin_input_LED4.csv"%string = Some f4 ->
  dir "step4_mixbin_input_LED5.csv"%string = Some f5 ->
  _collect_candidates f1 = ret q1 -> _collect_candidates f2 = ret q2 ->
  _collect_candidates f3 = ret q3 -> _collect_candidates f4 = ret q4 ->
  _collect_candidates f5 = ret q5 ->
  let r1 := or_placeholder q1 in let r2 := or_placeholder q2 in
  let r3 := or_placeholder q3 in let r4 := or_placeholder q4 in
  let r5 := or_placeholder q5 in
  let c1 := Nat.max 1 (List.length q1) in let c2 := Nat.max 1 (List.length q2) in
  let c3 := Nat.max 1 (List.length q3) in let c4 := Nat.max 1 (List.length q4) in
  let c5 := Nat.max 1 (List.length q5) in
  exists combos,
    build_mixbin_combos dir = ret (combos, c1 * c2 * c3 * c4 * c5) /\
    List.length combos = c1 * c2 * c3 * c4 * c5 /\
    Forall (fun row => List.length row = 20) combos /\
    forall i1 i2 i3 i4 i5,
      i1 < c1 -> i2 < c2 -> i3 < c3 -> i4 < c4 -> i5 < c5 ->
      nth_error combos ((((i1 * c2 + i2) * c3 + i3) * c4 + i4) * c5 + i5)
      = Some (nth i1 r1 [] ++ nth i2 r2 [] ++ nth i3 r3 [] ++ nth i4 r4 [] ++ nth i5 r5 []).
Proof.
  intros D1 D2 D3 D4 D5 E1 E2 E3 E4 E5 r1 r2 r3 r4 r5 c1 c2 c3 c4 c5.
  assert (L : forall q, Nat.max 1 (List.length q) = List.length (or_placeholder q))
    by (intro q; symmetry; apply or_placeholder_length).
  unfold c1, c2, c3, c4, c5. rewrite !L. fold r1 r2 r3 r4 r5.
  exists (merge_product [r1; r2; r3; r4; r5]).
  assert (B : build_mixbin_combos dir
              = ret (merge_product [r1; r2; r3; r4; r5],
                     List.length (merge_product [r1; r2; r3; r4; r5]))).
  { unfold build_mixbin_combos.
    rewrite check_exist_ok
      by (unfold input_files; repeat constructor; congruence).
    simpl bind. unfold input_files. simpl mapM. unfold candidates_of.
    rewrite D1, D2, D3, D4, D5, E1, E2, E3, E4, E5. reflexivity. }
  rewrite merge_product_length in B.
  split; [exact B|]. split; [apply merge_product_length|]. split.
  - apply merge_product_rows; apply or_placeholder_rows;
      eapply collect_candidates_shape; eassumption.
  - intros i1 i2 i3 i4 i5 I1 I2 I3 I4 I5.
    apply merge_product_nth; now apply nth_error_nth'.
Qed.

End CombinationProperties.

Section CombinationExamples.

Import Step4Calc1.

(** An instance: two candidates for LED1 and for LED5, placeholders for
    the other channels; row 1 takes row 0 of LED1 and row 1 of LED5. *)
Lemma build_mixbin_combos_cartesian_witness :
  exists combos,
    build_mixbin_combos
      (fun p =>
         if String.eqb p "step4_mixbin_input_LED1.csv"
         then Some [[Number 1; Number 2]; [Number 3; Number 4; Number 5; Number 6; Number 7]]
         else if String.eqb p "step4_mixbin_input_LED5.csv"
         then Some [[Number 7; Number 7; Number 7; Number 7]; [Blank; Number 0; Number 0; Number 0];
                    [Number 8; Number 8; Number 8; Number 8]]
         else Some [])
    = ret (combos, 4%nat) /\
    nth_error combos 1
    = Some [1; 2; 0; 0;  0; 0; 0; 0;  0; 0; 0; 0;  0; 0; 0; 0;  8; 8; 8; 8].
Proof.
  pose proof (@build_mixbin_combos_cartesian
    (fun p =>
         if String.eqb p "step4_mixbin_input_LED1.csv"
         then Some [[Number 1; Number 2]; [Number 3; Number 4; Number 5; Number 6; Number 7]]
         else if String.eqb p "step4_mixbin_input_LED5.csv"
         then Some [[Number 7; Number 7; Number 7; Number 7]; [Blank; Number 0; Number 0; Number 0];
                    [Number 8; Number 8; Number 8; Number 8]]
         else Some [])
    _ _ _ _ _ _ _ _ _ _
    eq_refl eq_refl eq_refl eq_refl eq_refl eq_refl eq_refl eq_refl eq_refl eq_refl)
    as (combos & B & _ & _ & N).
  exists combos. split; [exact B|].
  apply (N 0 0 0 0 1)%nat; simpl; lia.
Defined.

(** C4 (as the code has it).  The reader leaves its loop at row index 5,
    so a sixth row is never a candidate: a channel whose six rows all
    qualify yields five candidates, and five such channels yield
    5^5 = 3125 combinations, not 6^5 = 7776. *)
Theorem sixth_row_is_never_a_candidate :
  (forall f, _collect_candidates f = _collect_candidates (firstn 5 f)) /\
  _collect_candidates
    [[Number 1; Number 0; Number 0; Number 0]; [Number 2; Number 0; Number 0; Number 0];
     [Number 3; Number 0; Number 0; Number 0]; [Number 4; Number 0; Number 0; Number 0];
     [Number 5; Number 0; Number 0; Number 0]; [Number 6; Number 0; Number 0; Number 0]]
  = ret [[1; 0; 0; 0]; [2; 0; 0; 0]; [3; 0; 0; 0]; [4; 0; 0; 0]; [5; 0; 0; 0]] /\
  exists combos,
    build_mixbin_combos
      (fun _ => Some
         [[Number 1; Number 0; Number 0; Number 0]; [Number 2; Number 0; Number 0; Number 0];
          [Number 3; Number 0; Number 0; Number 0]; [Number 4; Number 0; Number 0; Number 0];
          [Number 5; Number 0; Number 0; Number 0]; [Number 6; Number 0; Number 0; Number 0]])
    = ret (combos, 3125%nat).
Proof.
  split; [|split].
  - intro f. unfold _collect_candidates, _read_first5_rows_4cols.
    now rewrite firstn_firstn.
  - reflexivity.
  - eexists. vm_compute. reflexivity.
Qed.

End CombinationExamples.

(* ================================================================== *)
(** * Bin partition (step3_bin_process) *)
(* ================================================================== *)

Section BinPartitionFacts.

Import Step3BinProcess.

(** The comparison with tolerance accepts the lower node itself: a value
    equal to the node shared by two adjacent bins passes the test of
    both. *)
Lemma shared_node_in_both_bins (n1 n2 n3 : Q) :
  n1 < n2 -> n2 < n3 ->
  in_interval (Some n2) n1 n2 = true /\ in_interval (Some n2) n2 n3 = true.
Proof.
  intros H12 H23. unfold in_interval, is_gt, is_le, tolerance.
  rewrite !andb_true_iff. repeat split.
  - apply Qgtb_lt. lra.
  - apply Qle_bool_iff. lra.
  - apply Qgtb_lt. lra.
  - apply Qle_bool_iff. lra.
Qed.

(** Every row is either reported unassigned or passes the test of some
    valid interval (and is then copied into the bin of that interval). *)
Lemma unassigned_or_in_some_interval (df : list (option Q)) (valid : list (nat * Q * Q))
  (v : option Q) :
  In v df ->
  In v (unassigned df valid) \/
  exists bin_idx lower upper,
    In (bin_idx, lower, upper) valid /\ in_interval v lower upper = true.
Proof.
  intro Hv. unfold unassigned.
  assert (G : forall m0,
             fold_left
               (fun m iv => match iv with (_, lower, upper) => m || in_interval v lower upper end)
               valid m0 = true ->
             m0 = true \/
             exists bin_idx lower upper,
               In (bin_idx, lower, upper) valid /\ in_interval v lower upper = true).
  { induction valid as [|[[b lo] up] valid IH]; intros m0 E; simpl in E; [now left|].
    destruct (IH _ E) as [E'|(b' & lo' & up' & Hin & Hcov)].
    - apply orb_true_iff in E' as [E'|E']; [now left|].
      right. exists b, lo, up. split; [now left|exact E'].
    - right. exists b', lo', up'. split; [now right|exact Hcov]. }
  destruct (fold_left
              (fun m iv => match iv with (_, lower, upper) => m || in_interval v lower upper end)
              valid false) eqn:M.
  - right. destruct (G false M) as [F|G']; [discriminate|exact G'].
  - left. apply filter_In. split; [exact Hv|]. now rewrite M.
Qed.

(** C5 (as the code has it).  With the valid nodes (1, 2, 3, 0, 0) the
    active bins are (1, 2] and (2, 3]; the population element 2, equal to
    their shared node, is put in bin 1 and in bin 2, and nothing is
    reported unassigned. *)
Theorem boundary_element_counted_in_two_bins :
  _validate_node_row [1; 2; 3; 0; 0] = ret tt /\
  _get_valid_intervals [1; 2; 3; 0; 0] = [(1%nat, 1, 2); (2%nat, 2, 3)] /\
  _cut_into_bins [Some 2] [1; 2; 3; 0; 0] = ret ([[Some 2]; [Some 2]; []; []], []).
Proof. repeat split. Qed.

End BinPartitionFacts.

(* ================================================================== *)
(** * Shortest covering interval (step1_rawdata_analysis) *)
(* ================================================================== *)

Section InnerScanFacts.

Import Step1RawdataAnalysis.

Variable t : Q.

Lemma inner_scan_some (l : list Q) (j : nat) (c : Q) (j' : nat) (c' : Q) :
  inner_scan t l j c = Some (j', c') ->
  exists k,
    j' = (j + k)%nat /\ (k < List.length l)%nat /\
    c' = fold_left Qplus (firstn (S k) l) c /\
    Qgeb (c' + eps) t = true /\
    forall k', (k' < k)%nat ->
      Qgeb (fold_left Qplus (firstn (S k') l) c + eps) t = false.
Proof.
  revert j c. induction l as [|p rest IH]; intros j c E; simpl in E; [discriminate|].
  destruct (Qgeb (c + p + eps) t) eqn:T.
  - injection E as <- <-. exists 0%nat. repeat split; simpl; try lia; auto.
  - apply IH in E as (k & -> & Hk & -> & Hc & Hfirst).
    exists (S k). repeat split; simpl; try lia; auto.
    intros [|k'] Hk'; [exact T|]. apply Hfirst. lia.
Qed.

Lemma inner_scan_none (l : list Q) (j : nat) (c : Q) :
  inner_scan t l j c = None ->
  forall k, (k < List.length l)%nat ->
    Qgeb (fold_left Qplus (firstn (S k) l) c + eps) t = false.
Proof.
  revert j c. induction l as [|p rest IH]; intros j c E k Hk; simpl in *; [lia|].
  destruct (Qgeb (c + p + eps) t) eqn:T; [discriminate|].
  destruct k as [|k]; [exact T|]. apply (IH _ _ E). lia.
Qed.

Lemma prefix_sum_is_interval_prob (props : list Q) (i k : nat) :
  fold_left Qplus (firstn (S k) (skipn i props)) 0 = interval_prob_of props i (i + k).
Proof.
  unfold interval_prob_of, sum, slice.
  replace (i + k + 1 - i)%nat with (S k) by lia. reflexivity.
Qed.

(** The inner loop started at [i] stops at the first [j >= i] whose
    interval passes the test. *)
Lemma inner_scan_first (props : list Q) (i j : nat) (c : Q) :
  inner_scan t (skipn i props) i 0 = Some (j, c) ->
  (i <= j < List.length props)%nat /\
  c = interval_prob_of props i j /\
  covers t props i j = true /\
  forall j', (i <= j' < j)%nat -> covers t props i j' = false.
Proof.
  intro E. apply inner_scan_some in E as (k & -> & Hk & -> & Hc & Hfirst).
  rewrite length_skipn in Hk. rewrite prefix_sum_is_interval_prob in *.
  repeat split; try lia; auto.
  intros j' Hj'. unfold covers.
  replace j' with (i + (j' - i))%nat by lia.
  rewrite <- prefix_sum_is_interval_prob. apply Hfirst. lia.
Qed.

Lemma inner_scan_nothing (props : list Q) (i : nat) :
  inner_scan t (skipn i props) i 0 = None ->
  forall j, (i <= j < List.length props)%nat -> covers t props i j = false.
Proof.
  intros E j Hj. unfold covers.
  replace j with (i + (j - i))%nat by lia.
  rewrite <- prefix_sum_is_interval_prob.
  apply (inner_scan_none _ _ _ E). rewrite length_skipn. lia.
Qed.

End InnerScanFacts.

Section SweepFacts.

Import Step1RawdataAnalysis.

Variable t : Q.
Variables values props : list Q.
Hypothesis same_length : List.length props = List.length values.
Hypothesis ascending :
  forall a b, (a <= b < List.length values)%nat -> nth a values 0 <= nth b values 0.

Lemma sweep_inv_start (b : best) :
  best_span b = None -> best_i b = 0%nat -> best_j b = (List.length values - 1)%nat ->
  sweep_inv t values props 0 b.
Proof.
  intros E Ei Ej. unfold sweep_inv. rewrite E. repeat split; auto. intros; lia.
Qed.

Lemma sweep_inv_step (m : nat) (b : best) :
  (m < List.length values)%nat ->
  sweep_inv t values props m b ->
  sweep_inv t values props (S m) (outer_step t values props b m).
Proof.
  intros Hm Inv. unfold outer_step.
  destruct (inner_scan t (skipn m props) m 0) as [[j c]|] eqn:Scan.
  - apply inner_scan_first in Scan as (Hj & _ & Hcov & Hfirst).
    rewrite same_length in Hj.
    assert (K : forall j', (m <= j' < List.length values)%nat ->
                covers t props m j' = true -> width values m j <= width values m j').
    { intros j' Hj' C'. unfold width.
      destruct (Nat.lt_ge_cases j' j) as [Lt|Ge].
      - rewrite Hfirst in C' by lia. discriminate.
      - pose proof (ascending (conj Ge (proj2 Hj'))). lra. }
    unfold sweep_inv in *.
    destruct (best_span b) as [bs|] eqn:Bs.
    + destruct Inv as (I1 & I2 & I3 & I4 & I5 & I6 & I7).
      destruct (Qltb (width values m j) bs) eqn:Cmp.
      * apply Qltb_lt in Cmp. simpl. repeat split; auto; try lia.
        -- intros i j' Hi Hj' C'.
           destruct (Nat.eq_dec i m) as [->|Ne]; [now apply K|].
           assert (bs <= width values i j') by (apply I6; auto; lia). lra.
        -- intros i j' Hi Hj' C'.
           assert (bs <= width values i j') by (apply I6; auto; lia). lra.
      * apply Qltb_ge in Cmp. rewrite Bs. repeat split; auto; try lia.
        intros i j' Hi Hj' C'.
        destruct (Nat.eq_dec i m) as [->|Ne].
        -- pose proof (K j' Hj' C'). lra.
        -- apply I6; auto; lia.
    + destruct Inv as (I1 & I2 & I3).
      simpl. repeat split; auto; try lia.
      * intros i j' Hi Hj' C'.
        destruct (Nat.eq_dec i m) as [->|Ne]; [now apply K|].
        rewrite I3 in C' by lia. discriminate.
      * intros i j' Hi Hj' C'. rewrite I3 in C' by lia. discriminate.
  - pose proof (inner_scan_nothing _ _ Scan) as No.
    rewrite same_length in No.
    unfold sweep_inv in *.
    destruct (best_span b) as [bs|] eqn:Bs.
    + destruct Inv as (I1 & I2 & I3 & I4 & I5 & I6 & I7).
      repeat split; auto; try lia.
      intros i j' Hi Hj' C'.
      destruct (Nat.eq_dec i m) as [->|Ne].
      * rewrite No in C' by lia. discriminate.
      * apply I6; auto; lia.
    + destruct Inv as (I1 & I2 & I3).
      repeat split; auto.
      intros i j' Hi Hj'.
      destruct (Nat.eq_dec i m) as [->|Ne]; [apply No; lia|apply I3; lia].
Qed.

Lemma sweep_inv_fold (m : nat) (b0 : best) :
  (m <= List.length values)%nat ->
  sweep_inv t values props 0 b0 ->
  sweep_inv t values props m (fold_left (outer_step t values props) (seq 0 m) b0).
Proof.
  intros Hm Inv0. induction m as [|m IH]; [exact Inv0|].
  rewrite seq_S, fold_left_app. simpl.
  apply sweep_inv_step; [lia|]. apply IH. lia.
Qed.

Lemma sweep_inv_final :
  sweep_inv t values props (List.length values) (sweep t values props).
Proof.
  unfold sweep. apply sweep_inv_fold; [lia|].
  now apply sweep_inv_start.
Qed.

End SweepFacts.

Section ShortestIntervalProperties.

Import Step1RawdataAnalysis.

Lemma sorted_nth_le (l : list Q) :
  Sorted Qle l ->
  forall a b, (a <= b < List.length l)%nat -> nth a l 0 <= nth b l 0.
Proof.
  intro S. apply Sorted_StronglySorted in S; [|exact Qle_trans].
  induction S as [|x l S IH F]; intros a b Hab; simpl in Hab; [lia|].
  destruct a as [|a], b as [|b]; simpl; try lia.
  - apply Qle_refl.
  - rewrite Forall_forall in F. apply F. apply nth_In. lia.
  - apply IH. lia.
Qed.

Lemma interval_prob_whole (props : list Q) :
  props <> [] ->
  interval_prob_of props 0 (List.length props - 1) = sum props.
Proof.
  intro NE. unfold interval_prob_of, slice.
  replace (List.length props - 1 + 1 - 0)%nat with (List.length props)
    by (destruct props; [contradiction|simpl; lia]).
  simpl skipn. now rewrite firstn_all.
Qed.



End ShortestIntervalProperties.

(* ================================================================== *)
(** * Highest-density interval and median (step7_result_curve_plotting) *)
(* ================================================================== *)

Section SortFacts.

Import Step7ResultCurvePlotting.

Lemma insert_sorted_perm (x : Q) (l : list Q) : Permutation (insert_sorted x l) (x :: l).
Proof.
  induction l as [|y l IH]; simpl; [reflexivity|].
  destruct (Qle_bool x y); [reflexivity|].
  rewrite IH. apply perm_swap.
Qed.

Lemma insert_sorted_hd (x : Q) (l : list Q) (a : Q) :
  a <= x -> HdRel Qle a l -> HdRel Qle a (insert_sorted x l).
Proof.
  intros Hax Hl. destruct l as [|y l]; simpl; [now constructor|].
  destruct (Qle_bool x y); constructor; [exact Hax|].
  now inversion Hl.
Qed.

Lemma insert_sorted_sorted (x : Q) (l : list Q) :
  Sorted Qle l -> Sorted Qle (insert_sorted x l).
Proof.
  induction 1 as [|y l S IH Hd]; simpl; [repeat constructor|].
  destruct (Qle_bool x y) eqn:E.
  - apply Qle_bool_iff in E. repeat constructor; assumption.
  - apply Qle_bool_false in E. constructor; [exact IH|].
    apply insert_sorted_hd; [lra|exact Hd].
Qed.

Lemma np_sort_perm (data : list Q) : Permutation (np_sort data) data.
Proof.
  induction data as [|x data IH]; simpl; [reflexivity|].
  rewrite insert_sorted_perm. now constructor.
Qed.

Lemma np_sort_sorted (data : list Q) : Sorted Qle (np_sort data).
Proof.
  induction data as [|x data IH]; simpl; [constructor|].
  now apply insert_sorted_sorted.
Qed.

Lemma np_sort_length (data : list Q) : List.length (np_sort data) = List.length data.
Proof. apply Permutation_length, np_sort_perm. Qed.

Lemma last_nth {A} (l : list A) (d : A) : last l d = nth (List.length l - 1) l d.
Proof.
  induction l as [|x [|y l] IH]; try reflexivity.
  change (last (x :: y :: l) d) with (last (y :: l) d). rewrite IH.
  simpl. now rewrite Nat.sub_0_r.
Qed.

End SortFacts.

Section WindowFacts.

Import Step7ResultCurvePlotting.

Variable s : list Q.
Variable k : nat.

(** The span of the window of [k] elements that starts at [i]. *)
Let range (i : nat) : Q := nth (i + k - 1) s 0 - nth i s 0.

(** After the turns [0 .. m-1] of the window loop ([m >= 1]) the state
    holds the first window of least span among those seen. *)
Lemma hdi_fold (m : nat) (st0 : Q * Q) :
  (1 <= m)%nat ->
  exists i,
    (i < m)%nat /\
    fold_left (hdi_step s k) (seq 0 m) (None, fst st0, snd st0)
    = (Some (range i), nth i s 0, nth (i + k - 1) s 0) /\
    (forall i', (i' < m)%nat -> range i <= range i') /\
    (forall i', (i' < i)%nat -> range i < range i').
Proof.
  induction m as [|m IH]; [lia|]. intros _.
  destruct m as [|m].
  - exists 0%nat. simpl. repeat split; try lia.
    intros i' Hi'. replace i' with 0%nat by lia. apply Qle_refl.
  - destruct IH as (i & Hi & E & Hmin & Hfirst); [lia|].
    rewrite seq_S, fold_left_app, E.
    change (0 + S m)%nat with (S m). cbn [fold_left].
    unfold hdi_step. cbv beta iota zeta.
    fold (range (S m)).
    destruct (Qltb (range (S m)) (range i)) eqn:Cmp.
    + apply Qltb_lt in Cmp. exists (S m). repeat split; try lia.
      * intros i' Hi'. destruct (Nat.eq_dec i' (S m)) as [->|Ne]; [apply Qle_refl|].
        assert (range i <= range i') by (apply Hmin; lia). lra.
      * intros i' Hi'.
        assert (range i <= range i') by (apply Hmin; lia). lra.
    + apply Qltb_ge in Cmp. exists i. repeat split; auto; try lia.
      intros i' Hi'. destruct (Nat.eq_dec i' (S m)) as [->|Ne]; [exact Cmp|].
      apply Hmin. lia.
Qed.

End WindowFacts.

Section HdiProperties.

Import Step7ResultCurvePlotting.

Lemma hdi_size_bounds (alpha : Q) (n : nat) :
  0 < alpha -> alpha < 1 -> (1 <= n)%nat ->
  (0 <= hdi_size_of alpha n < Z.of_nat n)%Z.
Proof.
  intros Ha0 Ha1 Hn. unfold hdi_size_of.
  set (N := inject_Z (Z.of_nat n)).
  assert (HN : 1 <= N).
  { unfold N. change 1 with (inject_Z 1). rewrite <- Zle_Qle. lia. }
  assert (P : 0 < alpha * N) by (apply Qmult_lt_0_compat; lra).
  assert (P' : 0 <= (1 - alpha) * N) by (apply Qmult_le_0_compat; lra).
  assert (X : (1 - alpha) * N == N - alpha * N) by ring.
  split.
  - change 0%Z with (Qfloor 0). now apply Qfloor_resp_le.
  - rewrite Zlt_Qlt. fold N.
    pose proof (Qfloor_le ((1 - alpha) * N)) as F.
    nra.
Qed.

(** What the function returns on non-empty data, by the cases of the
    window size. *)
Lemma hdi_cases (data : list Q) (alpha : Q) :
  data <> [] ->
  let sorted := np_sort data in
  let n := List.length data in
  let k := Z.to_nat (hdi_size_of alpha n) in
  ((hdi_size_of alpha n <= 0)%Z ->
   calculate_highest_density_interval data alpha
   = (nth 0 sorted 0, nth (n - 1) sorted 0)) /\
  ((0 < hdi_size_of alpha n)%Z -> (k <= n)%nat ->
   exists i,
     (i + k <= n)%nat /\
     calculate_highest_density_interval data alpha
     = (nth i sorted 0, nth (i + k - 1) sorted 0) /\
     (forall i', (i' + k <= n)%nat ->
        nth (i + k - 1) sorted 0 - nth i sorted 0
        <= nth (i' + k - 1) sorted 0 - nth i' sorted 0) /\
     (forall i', (i' < i)%nat ->
        nth (i + k - 1) sorted 0 - nth i sorted 0
        < nth (i' + k - 1) sorted 0 - nth i' sorted 0)).
Proof.
  intros NE sorted n k.
  assert (Hn : (List.length data =? 0)%nat = false)
    by (destruct data; [contradiction|reflexivity]).
  unfold calculate_highest_density_interval. rewrite Hn.
  rewrite np_sort_length. fold sorted n. split.
  - intro Hk. apply Z.leb_le in Hk. rewrite Hk.
    rewrite last_nth. unfold sorted at 2. rewrite np_sort_length. reflexivity.
  - intros Hk Hkn.
    replace (hdi_size_of alpha n <=? 0)%Z with false by (symmetry; apply Z.leb_gt; exact Hk).
    fold k.
    destruct (@hdi_fold sorted k (n + 1 - k) (nth 0 sorted 0, last sorted 0))
      as (i & Hi & E & Hmin & Hfirst); [lia|].
    simpl fst in E. simpl snd in E. rewrite E.
    exists i. split; [lia|]. split; [reflexivity|]. split.
    + intros i' Hi'. apply Hmin. lia.
    + exact Hfirst.
Qed.

(** C2 (amended).  On a non-empty sample and [alpha] in (0, 1): the
    data are sorted ascending; with [k = floor((1 - alpha) * n)], which is
    below [n]: when [k >= 1] the result is the first and last element of a
    window of exactly [k] consecutive sorted elements whose span is least,
    the first such window; when [k = 0] (fewer than [1 / (1 - alpha)]
    samples) the guard of the function returns the least and the greatest
    sample instead.  [calculate_statistics] pairs the interval at
    [alpha = 0.000063] with the median of the whole sample, and returns
    (0, 0, 0) on an empty sample. *)
Theorem hdi_first_narrowest_window (data : list Q) (alpha : Q) :
  data <> [] -> 0 < alpha -> alpha < 1 ->
  let sorted := np_sort data in
  let n := List.length data in
  let k := Z.to_nat (Qfloor ((1 - alpha) * inject_Z (Z.of_nat n))) in
  Sorted Qle sorted /\ Permutation sorted data /\ (k < n)%nat /\
  (k = 0%nat ->
   calculate_highest_density_interval data alpha
   = (nth 0 sorted 0, nth (n - 1) sorted 0)) /\
  ((1 <= k)%nat ->
   exists i,
     (i + k <= n)%nat /\
     firstn k (skipn i sorted) <> [] /\
     calculate_highest_density_interval data alpha
     = (hd 0 (firstn k (skipn i sorted)), last (firstn k (skipn i sorted)) 0) /\
     (forall i', (i' + k <= n)%nat ->
        nth (i + k - 1) sorted 0 - nth i sorted 0
        <= nth (i' + k - 1) sorted 0 - nth i' sorted 0) /\
     (forall i', (i' < i)%nat ->
        nth (i + k - 1) sorted 0 - nth i sorted 0
        < nth (i' + k - 1) sorted 0 - nth i' sorted 0)) /\
  calculate_statistics data
  = (fst (calculate_highest_density_interval data alpha_4sigma),
     np_median data,
     snd (calculate_highest_density_interval data alpha_4sigma)) /\
  calculate_statistics [] = (0, 0, 0).
Proof.
  intros NE Ha0 Ha1 sorted n k.
  assert (Hn : (1 <= n)%nat) by (unfold n; destruct data; [contradiction|simpl; lia]).
  pose proof (hdi_size_bounds Ha0 Ha1 Hn) as B.
  fold (hdi_size_of alpha n) in k.
  destruct (hdi_cases alpha NE) as [C0 C1]. fold sorted n k in C0, C1.
  assert (Kn : (k < n)%nat) by (unfold k; lia).
  assert (K0' : k = 0%nat -> (hdi_size_of alpha n <= 0)%Z) by (unfold k; lia).
  assert (K1' : (1 <= k)%nat -> (0 < hdi_size_of alpha n)%Z) by (unfold k; lia).
  clearbody k.
  split; [apply np_sort_sorted|]. split; [apply np_sort_perm|].
  split; [exact Kn|]. split; [|split; [|split]].
  - intro K0. apply C0. auto.
  - intro K1. destruct C1 as (i & Hi & E & Hmin & Hfirst); [auto|lia|].
    assert (Ls : List.length sorted = n) by apply np_sort_length.
    assert (Lw : List.length (firstn k (skipn i sorted)) = k)
      by (rewrite length_firstn, length_skipn; lia).
    exists i. split; [exact Hi|]. split.
    { intro W. rewrite W in Lw. simpl in Lw. lia. }
    split; [|split; assumption].
    rewrite E. f_equal.
    + rewrite <- (firstn_skipn i sorted) at 1.
      rewrite app_nth2 by (rewrite length_firstn; lia).
      rewrite length_firstn. replace (i - Nat.min i (List.length sorted))%nat with 0%nat by lia.
      destruct (skipn i sorted) as [|x rest] eqn:Sk.
      * apply (f_equal (@List.length Q)) in Sk. rewrite length_skipn in Sk.
        simpl in Sk. lia.
      * destruct k; [lia|]. reflexivity.
    + rewrite last_nth, Lw.
      rewrite nth_firstn.
      replace (k - 1 <? k)%nat with true by (symmetry; apply Nat.ltb_lt; lia).
      rewrite nth_skipn. f_equal. lia.
  - unfold calculate_statistics.
    replace (List.length data =? 0)%nat with false
      by (destruct data; [contradiction|reflexivity]).
    destruct (calculate_highest_density_interval data alpha_4sigma). reflexivity.
  - reflexivity.
Qed.

End HdiProperties.

Section HdiExamples.

Import Step7ResultCurvePlotting.

(** An instance: four samples at [alpha = 0.5]. *)
Lemma hdi_first_narrowest_window_witness :
  Sorted Qle (np_sort [5; 1; 2; 9]) /\
  (Z.to_nat (Qfloor ((1 - (1#2)) * inject_Z (Z.of_nat 4))) < 4)%nat /\
  calculate_statistics [5; 1; 2; 9]
  = (fst (calculate_highest_density_interval [5; 1; 2; 9] alpha_4sigma),
     np_median [5; 1; 2; 9],
     snd (calculate_highest_density_interval [5; 1; 2; 9] alpha_4sigma)).
Proof.
  destruct (@hdi_first_narrowest_window [5; 1; 2; 9] (1#2)
              ltac:(discriminate) ltac:(reflexivity) ltac:(reflexivity))
    as (S & _ & K & _ & _ & E & _).
  split; [exact S|]. split; [exact K|exact E].
Defined.

(** Samples (1, 3) with [alpha = 0.75]: the window size is
    [floor(0.25 * 2) = 0], no window of that size has a first or a last
    element, and the function returns the full range (1, 3).  At the
    fixed [alpha] of [calculate_statistics] a single sample gives size 0
    as well. *)
Lemma hdi_window_counterexample :
  hdi_size_of (3#4) 2 = 0%Z /\
  calculate_highest_density_interval [1; 3] (3#4) = (1, 3) /\
  ~ (exists i,
       firstn (Z.to_nat (hdi_size_of (3#4) 2)) (skipn i (np_sort [1; 3])) <> [] /\
       calculate_highest_density_interval [1; 3] (3#4)
       = (hd 0 (firstn (Z.to_nat (hdi_size_of (3#4) 2)) (skipn i (np_sort [1; 3]))),
          last (firstn (Z.to_nat (hdi_size_of (3#4) 2)) (skipn i (np_sort [1; 3]))) 0)) /\
  hdi_size_of alpha_4sigma 1 = 0%Z.
Proof.
  split; [reflexivity|]. split; [reflexivity|]. split; [|reflexivity].
  intros (i & W & _). apply W. reflexivity.
Qed.

(** Samples (1, 3): the window size is [floor(0.999937 * 2) = 1], the
    first one-element window is kept, and the summary is (1, 2, 1): the
    median lies above [HDI_max]. *)
Lemma median_outside_hdi_counterexample :
  exists lo med hi,
    calculate_statistics [1; 3] = (lo, med, hi) /\
    lo == 1 /\ med == 2 /\ hi == 1 /\
    ~ (lo <= med /\ med <= hi).
Proof.
  eexists. eexists. eexists. split; [vm_compute; reflexivity|].
  repeat split; try reflexivity.
  intros [_ H]. vm_compute in H. apply H. reflexivity.
Qed.

End HdiExamples.

Section MedianFacts.

Import Step7ResultCurvePlotting.

Lemma hdi_size_4sigma (n : nat) :
  hdi_size_of alpha_4sigma n = (999937 * Z.of_nat n / 1000000)%Z.
Proof. reflexivity. Qed.

Lemma median_between (data : list Q) :
  data <> [] ->
  let s := np_sort data in
  let n := List.length data in
  nth ((n - 1) / 2) s 0 <= np_median data /\ np_median data <= nth (n / 2) s 0.
Proof.
  intros NE s n.
  assert (Hn : (1 <= n)%nat) by (unfold n; destruct data; [contradiction|simpl; lia]).
  pose proof (sorted_nth_le (np_sort_sorted data)) as Mono.
  rewrite np_sort_length in Mono. fold s n in Mono.
  unfold np_median. rewrite np_sort_length. fold s n.
  clearbody n s.
  destruct (Nat.odd n) eqn:Odd.
  - apply Nat.odd_spec in Odd as [m Hm].
    replace ((n - 1) / 2)%nat with (n / 2)%nat by div_lia.
    split; apply Qle_refl.
  - assert (Ev : Nat.even n = true) by (rewrite <- Nat.negb_odd, Odd; reflexivity).
    apply Nat.even_spec in Ev as [m Hm].
    replace ((n - 1) / 2)%nat with (n / 2 - 1)%nat by div_lia.
    assert (M : nth (n / 2 - 1) s 0 <= nth (n / 2) s 0) by (apply Mono; div_lia).
    assert (E : (nth (n / 2 - 1) s 0 + nth (n / 2) s 0) / 2
                == (nth (n / 2 - 1) s 0 + nth (n / 2) s 0) * (1 # 2))
      by (unfold Qdiv; reflexivity).
    rewrite E. split; lra.
Qed.

End MedianFacts.

Section MedianProperties.

Import Step7ResultCurvePlotting.

(** C7 (amended).  For every non-empty sample set whose size is not 2 (or
    whose two samples are equal), the summary satisfies
    [HDI_min <= median <= HDI_max], with the interval taken at
    [alpha = 0.000063] and the median over the whole sample. *)
Theorem median_within_hdi (data : list Q) :
  data <> [] ->
  (List.length data = 2%nat -> nth 0 data 0 == nth 1 data 0) ->
  exists hdi_min hdi_max,
    calculate_highest_density_interval data alpha_4sigma = (hdi_min, hdi_max) /\
    calculate_statistics data = (hdi_min, np_median data, hdi_max) /\
    hdi_min <= np_median data /\ np_median data <= hdi_max.
Proof.
  intros NE Two.
  assert (Hlen : (List.length data =? 0)%nat = false)
    by (destruct data; [contradiction|reflexivity]).
  destruct (calculate_highest_density_interval data alpha_4sigma) as [lo hi] eqn:R.
  exists lo, hi. split; [reflexivity|]. split.
  { unfold calculate_statistics. now rewrite Hlen, R. }
  destruct (median_between NE) as [ML MH].
  pose proof (sorted_nth_le (np_sort_sorted data)) as Mono.
  rewrite np_sort_length in Mono.
  destruct (hdi_cases alpha_4sigma NE) as [C0 C1].
  rewrite R in C0, C1. rewrite hdi_size_4sigma in C0, C1.
  set (n := List.length data) in *. set (s := np_sort data) in *.
  assert (Hn : (1 <= n)%nat) by (apply Nat.eqb_neq in Hlen; lia).
  set (k := Z.to_nat (999937 * Z.of_nat n / 1000000)) in *.
  destruct (Z_le_gt_dec (999937 * Z.of_nat n / 1000000) 0) as [Le|Gt].
  - (* the guard: least and greatest sample *)
    specialize (C0 Le). injection C0 as -> ->.
    assert (nth 0 s 0 <= nth ((n - 1) / 2) s 0) by (apply Mono; div_lia).
    assert (nth (n / 2) s 0 <= nth (n - 1) s 0) by (apply Mono; div_lia).
    split; lra.
  - destruct C1 as (i & Hi & E & _); [lia|unfold k; div_lia|].
    injection E as -> ->.
    destruct (Nat.eq_dec n 2) as [N2|N2].
    + (* two equal samples *)
      specialize (Two N2).
      assert (All : forall x, In x s -> x == nth 0 data 0).
      { intros x Hx. apply (Permutation_in _ (np_sort_perm data)) in Hx.
        destruct data as [|a [|b [|c data]]]; try discriminate.
        simpl in Two. destruct Hx as [<-|[<-|[]]]; simpl; [reflexivity|].
        symmetry. exact Two. }
      assert (Ls : List.length s = n) by apply np_sort_length.
      assert (K1 : k = 1%nat) by (unfold k; rewrite N2; reflexivity).
      rewrite K1 in *. rewrite N2 in *.
      assert (A0 : nth 0 s 0 == nth 0 data 0) by (apply All, nth_In; lia).
      assert (A1 : nth 1 s 0 == nth 0 data 0) by (apply All, nth_In; lia).
      assert (Ai : nth i s 0 == nth 0 data 0) by (apply All, nth_In; lia).
      replace (i + 1 - 1)%nat with i by lia.
      change ((2 - 1) / 2)%nat with 0%nat in ML.
      change (2 / 2)%nat with 1%nat in MH.
      split; lra.
    + assert (Hk : (n / 2 + 1 <= k)%nat) by (unfold k; div_lia).
      assert (nth i s 0 <= nth ((n - 1) / 2) s 0) by (apply Mono; div_lia).
      assert (nth (n / 2) s 0 <= nth (i + k - 1) s 0) by (apply Mono; div_lia).
      split; lra.
Qed.

(** An instance: four samples. *)
Lemma median_within_hdi_witness :
  exists hdi_min hdi_max,
    calculate_statistics [5; 1; 2; 9] = (hdi_min, np_median [5; 1; 2; 9], hdi_max) /\
    hdi_min <= np_median [5; 1; 2; 9] /\ np_median [5; 1; 2; 9] <= hdi_max.
Proof.
  destruct (@median_within_hdi [5; 1; 2; 9] ltac:(discriminate) ltac:(discriminate))
    as (lo & hi & _ & E & L & H).
  exists lo, hi. split; [exact E|]. split; [exact L|exact H].
Defined.

End MedianProperties.

(* ================================================================== *)
(** * Linear interpolation (step5_interpolation_1) *)
(* ================================================================== *)

Section InterpolationGeneric.

Import Step5Interpolation1.

Context {T : Type} `{Numeric T}.

(** At or below the first knot the stored [y] is returned as it is. *)
Lemma interpolation_clamps_low (x_data y_data : list T) (x_target : T)
  (p : T * T) (rest : list (T * T)) :
  sorted_pairs x_data y_data = p :: rest ->
  num_le x_target (fst p) = true ->
  linear_interpolation x_data y_data x_target = ret (snd p).
Proof.
  intros E L. unfold linear_interpolation. rewrite E.
  destruct p as [x0 y0]. simpl in L. now rewrite L.
Qed.

(** At or above the last knot (and above the first) the stored [y] of
    the last knot is returned as it is. *)
Lemma interpolation_clamps_high (x_data y_data : list T) (x_target : T)
  (p : T * T) (rest : list (T * T)) :
  sorted_pairs x_data y_data = p :: rest ->
  num_le x_target (fst p) = false ->
  num_le (fst (last (p :: rest) p)) x_target = true ->
  linear_interpolation x_data y_data x_target = ret (snd (last (p :: rest) p)).
Proof.
  intros E L1 L2. unfold linear_interpolation. rewrite E.
  destruct p as [x0 y0]. simpl in L1. rewrite L1.
  destruct (last ((x0, y0) :: rest) (x0, y0)) as [xl yl]. simpl in L2.
  now rewrite L2.
Qed.

(** Strictly inside the range of the knots the result is that of the
    scan for the bracketing pair. *)
Lemma interpolation_scans (x_data y_data : list T) (x_target : T)
  (p : T * T) (rest : list (T * T)) :
  sorted_pairs x_data y_data = p :: rest ->
  num_le x_target (fst p) = false ->
  num_le (fst (last (p :: rest) p)) x_target = false ->
  linear_interpolation x_data y_data x_target = bracket_scan x_target (p :: rest).
Proof.
  intros E L1 L2. unfold linear_interpolation. rewrite E.
  destruct p as [x0 y0]. simpl in L1. rewrite L1.
  destruct (last ((x0, y0) :: rest) (x0, y0)) as [xl yl]. simpl in L2.
  now rewrite L2.
Qed.

End InterpolationGeneric.

Section InterpolationExact.

Import Step5Interpolation1.

Local Notation "'le_x'" := (fun p q : Q * Q => fst p <= fst q).

Lemma insert_pair_hd (p : Q * Q) (l : list (Q * Q)) (a : Q * Q) :
  fst a <= fst p -> HdRel le_x a l -> HdRel le_x a (insert_pair p l).
Proof.
  intros Hap Hl. destruct l as [|q l]; simpl; [now constructor|].
  destruct (Qle_bool (fst p) (fst q)); constructor; [exact Hap|].
  now inversion Hl.
Qed.

Lemma insert_pair_sorted (p : Q * Q) (l : list (Q * Q)) :
  Sorted le_x l -> Sorted le_x (insert_pair p l).
Proof.
  induction 1 as [|q l S IH Hd]; simpl; [repeat constructor|].
  destruct (Qle_bool (fst p) (fst q)) eqn:E.
  - apply Qle_bool_iff in E. repeat constructor; assumption.
  - apply Qle_bool_false in E. constructor; [exact IH|].
    apply insert_pair_hd; [simpl; lra|exact Hd].
Qed.

Lemma insert_pair_perm (p : Q * Q) (l : list (Q * Q)) :
  Permutation (insert_pair p l) (p :: l).
Proof.
  induction l as [|q l IH]; simpl; [reflexivity|].
  destruct (Qle_bool (fst p) (fst q)); [reflexivity|].
  rewrite IH. apply perm_swap.
Qed.

Lemma sorted_pairs_sorted (x_data y_data : list Q) :
  Sorted le_x (sorted_pairs x_data y_data).
Proof.
  unfold sorted_pairs.
  induction (combine x_data y_data) as [|p l IH]; simpl; [constructor|].
  now apply insert_pair_sorted.
Qed.

Lemma sorted_pairs_perm (x_data y_data : list Q) :
  Permutation (sorted_pairs x_data y_data) (combine x_data y_data).
Proof.
  unfold sorted_pairs.
  induction (combine x_data y_data) as [|p l IH]; simpl; [reflexivity|].
  rewrite insert_pair_perm. now constructor.
Qed.

Lemma sorted_x_nth (pts : list (Q * Q)) (d : Q * Q) :
  Sorted le_x pts ->
  forall a b, (a <= b < List.length pts)%nat -> fst (nth a pts d) <= fst (nth b pts d).
Proof.
  intro S. apply Sorted_StronglySorted in S; [|intros p q r; simpl; apply Qle_trans].
  induction S as [|p l S IH F]; intros a b Hab; simpl in Hab; [lia|].
  destruct a as [|a], b as [|b]; simpl; try lia.
  - apply Qle_refl.
  - rewrite Forall_forall in F. apply F. apply nth_In. lia.
  - apply IH. lia.
Qed.

(** The scan returns the interpolation over the pair [i], [i + 1] when
    the target lies in [(x_i, x_(i+1)]]. *)
Lemma bracket_scan_pair (pts : list (Q * Q)) (d : Q * Q) (t : Q) (i : nat) :
  Sorted le_x pts -> (i + 1 < List.length pts)%nat ->
  fst (nth i pts d) < t -> t <= fst (nth (i + 1) pts d) ->
  bracket_scan t pts
  = ret (snd (nth i pts d)
         + (snd (nth (i + 1) pts d) - snd (nth i pts d)) * (t - fst (nth i pts d))
           / (fst (nth (i + 1) pts d) - fst (nth i pts d))).
Proof.
  intro Srt. revert i. induction Srt as [|[x1 y1] l Srt IH Hd]; intros i Hi Hlo Hhi.
  { simpl in Hi. lia. }
  destruct l as [|[x2 y2] l]; [simpl in Hi; lia|].
  destruct i as [|i].
  - simpl in Hlo, Hhi. simpl.
    replace (Qle_bool x1 t) with true by (symmetry; apply Qle_bool_iff; lra).
    replace (Qle_bool t x2) with true by (symmetry; apply Qle_bool_iff; lra).
    simpl. destruct (Qeq_bool (x2 - x1) 0) eqn:Z; [|reflexivity].
    apply Qeq_bool_iff in Z. lra.
  - assert (M : x2 <= fst (nth i ((x2, y2) :: l) d)).
    { apply (@sorted_x_nth _ d Srt 0%nat i). simpl in *. lia. }
    change (nth (S i) ((x1, y1) :: (x2, y2) :: l) d) with (nth i ((x2, y2) :: l) d) in *.
    change (nth (S i + 1) ((x1, y1) :: (x2, y2) :: l) d)
      with (nth (i + 1) ((x2, y2) :: l) d) in *.
    rewrite <- (IH i) by (simpl in *; auto; lia).
    simpl.
    replace (Qle_bool t x2) with false by (symmetry; apply Qle_bool_false; lra).
    now rewrite andb_false_r.
Qed.

End InterpolationExact.

Section InterpolationProperties.

Import Step5Interpolation1.

Local Notation "'le_x'" := (fun p q : Q * Q => fst p <= fst q).

(** On binary64 the value at an interior knot goes through the
    interpolation arithmetic and can differ from the stored [y] in the
    last bit: knots (1, 1.2), (5, 3.4), (10, 3.6), target 5. *)
Lemma interior_knot_not_bit_exact :
  linear_interpolation
    [1; 5; 10]%float
    [0x1.3333333333333p+0; 0x1.b333333333333p+1; 0x1.ccccccccccccdp+1]%float
    5%float
  = ret 0x1.b333333333334p+1%float /\
  0x1.b333333333334p+1%float <> 0x1.b333333333333p+1%float.
Proof.
  split; [vm_compute; reflexivity|].
  intro E.
  apply (f_equal (fun v => PrimFloat.eqb v 0x1.b333333333333p+1%float)) in E.
  vm_compute in E. discriminate.
Qed.

(** C9 (amended).  With the knots sorted by x:
    - for any numbers the function runs on (binary64 included), a target
      at or below the first knot returns the stored y of the first knot,
      and a target at or above the last knot returns the stored y of the
      last knot, untouched by arithmetic;
    - in exact arithmetic: below the least x the y of the least x, above
      the greatest x the y of the greatest x, strictly between two
      adjacent knots the linear interpolation between them, and at a knot
      (the x values being distinct) a value equal to the y of that knot,
      computed by the interpolation formula when the knot is interior. *)
Theorem linear_interpolation_clamps_and_segments :
  (forall (T : Type) (N : Numeric T) (x_data y_data : list T) (t : T) p rest,
      sorted_pairs x_data y_data = p :: rest ->
      (num_le t (fst p) = true ->
       linear_interpolation x_data y_data t = ret (snd p)) /\
      (num_le t (fst p) = false -> num_le (fst (last (p :: rest) p)) t = true ->
       linear_interpolation x_data y_data t = ret (snd (last (p :: rest) p)))) /\
  (forall (x_data y_data : list Q) (t : Q),
      let pts := sorted_pairs x_data y_data in
      let n := List.length pts in
      let d := (0, 0) in
      Sorted le_x pts /\ Permutation pts (combine x_data y_data) /\
      ((1 <= n)%nat -> t < fst (nth 0 pts d) ->
       linear_interpolation x_data y_data t = ret (snd (nth 0 pts d))) /\
      ((1 <= n)%nat -> fst (nth (n - 1) pts d) < t ->
       linear_interpolation x_data y_data t = ret (snd (nth (n - 1) pts d))) /\
      (forall i, (i + 1 < n)%nat ->
         fst (nth i pts d) < t -> t < fst (nth (i + 1) pts d) ->
         linear_interpolation x_data y_data t
         = ret (snd (nth i pts d)
                + (snd (nth (i + 1) pts d) - snd (nth i pts d)) * (t - fst (nth i pts d))
                  / (fst (nth (i + 1) pts d) - fst (nth i pts d)))) /\
      (forall k, (k < n)%nat ->
         (forall a b, (a < b < n)%nat -> fst (nth a pts d) < fst (nth b pts d)) ->
         t == fst (nth k pts d) ->
         exists v, linear_interpolation x_data y_data t = ret v /\ v == snd (nth k pts d))).
Proof.
  split.
  { intros T N x_data y_data t p rest E. split.
    - intro L. now apply (interpolation_clamps_low _ _ _ E).
    - intros L1 L2. now apply (interpolation_clamps_high _ _ _ E). }
  intros x_data y_data t pts n d.
  pose proof (sorted_pairs_sorted x_data y_data) as Srt. fold pts in Srt.
  pose proof (sorted_x_nth d Srt) as Mono. fold n in Mono.
  pose proof (sorted_pairs_perm x_data y_data) as Perm. fold pts in Perm.
  assert (Epts : sorted_pairs x_data y_data = pts) by reflexivity.
  assert (Ln : List.length pts = n) by reflexivity.
  clearbody n. clearbody pts.
  split; [exact Srt|]. split; [exact Perm|].
  assert (Shape : (1 <= n)%nat -> exists p rest,
             sorted_pairs x_data y_data = p :: rest /\ pts = p :: rest /\
             nth 0 pts d = p /\ last (p :: rest) p = nth (n - 1) pts d).
  { intro Hn. destruct pts as [|p rest]; [simpl in Ln; lia|].
    exists p, rest. repeat split; auto.
    rewrite last_nth, Ln. apply nth_indep. lia. }
  split; [|split; [|split]].
  - intros Hn Hlt. destruct (Shape Hn) as (p & rest & Ep & Ep' & E0 & _).
    rewrite E0 in *. apply (interpolation_clamps_low _ _ _ Ep).
    cbn [num_le Numeric_Q]. apply Qle_bool_iff. lra.
  - intros Hn Hlt. destruct (Shape Hn) as (p & rest & Ep & Ep' & E0 & El).
    rewrite <- El in *. apply (interpolation_clamps_high _ _ _ Ep).
    + cbn [num_le Numeric_Q]. apply Qle_bool_false.
      assert (fst (nth 0 pts d) <= fst (nth (n - 1) pts d)) by (apply Mono; lia).
      rewrite E0, <- El in *. lra.
    + cbn [num_le Numeric_Q]. apply Qle_bool_iff. lra.
  - intros i Hi Hlo Hhi.
    destruct (Shape ltac:(lia)) as (p & rest & Ep & Ep' & E0 & El).
    assert (fst (nth 0 pts d) <= fst (nth i pts d)) by (apply Mono; lia).
    assert (fst (nth (i + 1) pts d) <= fst (nth (n - 1) pts d)) by (apply Mono; lia).
    rewrite (interpolation_scans _ _ _ Ep).
    + rewrite <- Ep'. apply bracket_scan_pair; auto; try lia. lra.
    + cbn [num_le Numeric_Q]. apply Qle_bool_false. rewrite <- E0. lra.
    + cbn [num_le Numeric_Q]. apply Qle_bool_false. rewrite El. lra.
  - intros k Hk Strict Ht.
    destruct (Shape ltac:(lia)) as (p & rest & Ep & Ep' & E0 & El).
    destruct (Nat.eq_dec k 0) as [->|K0].
    { exists (snd p). split; [|now rewrite E0].
      apply (interpolation_clamps_low _ _ _ Ep). cbn [num_le Numeric_Q]. apply Qle_bool_iff.
      rewrite <- E0. lra. }
    assert (X0 : fst (nth 0 pts d) < fst (nth k pts d)) by (apply Strict; lia).
    destruct (Nat.eq_dec k (n - 1)) as [->|Kn].
    { exists (snd (last (p :: rest) p)). split; [|now rewrite El].
      apply (interpolation_clamps_high _ _ _ Ep); cbn [num_le Numeric_Q].
      - apply Qle_bool_false. rewrite <- E0. lra.
      - apply Qle_bool_iff. rewrite El. lra. }
    assert (Xp : fst (nth (k - 1) pts d) < fst (nth k pts d)) by (apply Strict; lia).
    assert (Xn : fst (nth k pts d) < fst (nth (n - 1) pts d)) by (apply Strict; lia).
    assert (X0' : fst (nth 0 pts d) <= fst (nth (k - 1) pts d)) by (apply Mono; lia).
    eexists. split.
    + rewrite (interpolation_scans _ _ _ Ep).
      * rewrite <- Ep'. apply (@bracket_scan_pair pts d t (k - 1)); auto; try lia.
        -- lra.
        -- replace (k - 1 + 1)%nat with k by lia. lra.
      * cbn [num_le Numeric_Q]. apply Qle_bool_false. rewrite <- E0. lra.
      * cbn [num_le Numeric_Q]. apply Qle_bool_false. rewrite El. lra.
    + replace (k - 1 + 1)%nat with k by lia.
      rewrite Ht. field. lra.
Qed.

(** Instances: a target between two knots in exact arithmetic, and a
    target at the last knot on binary64. *)
Lemma linear_interpolation_clamps_and_segments_witness :
  linear_interpolation [30; 5; 60] [3#10; 1#10; 5#10] 45
  = ret ((3#10) + ((5#10) - (3#10)) * (45 - 30) / (60 - 30)) /\
  linear_interpolation [30; 5; 60]%float
    [0x1.3333333333333p-2; 0x1.999999999999ap-4; 0x1p-1]%float 60%float
  = ret 0x1p-1%float.
Proof.
  destruct linear_interpolation_clamps_and_segments as [G E].
  split.
  - destruct (E [30; 5; 60] [3#10; 1#10; 5#10] 45) as (_ & _ & _ & _ & Seg & _).
    apply (Seg 1%nat); [simpl; lia|reflexivity|reflexivity].
  - destruct (G float Numeric_float [30; 5; 60]%float
                [0x1.3333333333333p-2; 0x1.999999999999ap-4; 0x1p-1]%float 60%float
                _ _ eq_refl) as [_ High].
    apply High; reflexivity.
Defined.

End InterpolationProperties.

(* ================================================================== *)
(** * Monte Carlo run (step7_final_calculation) *)
(* ================================================================== *)

Section MonteCarloFacts.

Import Step7FinalCalculation.

Variable bin_data_list : list (list Q).

(** A stop predicate, when there is one, that never asks to stop. *)
Variable stop_check : stop_check_t.
Hypothesis never_stops : forall p, stop_check = Some p -> forall k, p k = false.

Lemma poll_goes_on (st : run_state) :
  exists st', poll stop_check st = (false, st') /\
              gen st' = gen st /\ written st' = written st.
Proof.
  unfold poll. destruct stop_check as [p|] eqn:E.
  - rewrite (never_stops eq_refl). eexists. split; [reflexivity|]. split; reflexivity.
  - exists st. split; [reflexivity|]. split; reflexivity.
Qed.

(** As long as no stop is asked for, the trial loop runs to its end and
    leaves the earlier output files alone. *)
Lemma trials_run_through (combo : list Q) (fuel sim_idx : nat) (rows : list Q)
  (st : run_state) :
  exists rows' st',
    trials stop_check bin_data_list combo fuel sim_idx rows st = inr (rows', st') /\
    written st' = written st /\
    List.length rows' = (List.length rows + fuel)%nat.
Proof.
  revert sim_idx rows st. induction fuel as [|fuel IH]; intros sim_idx rows st.
  - exists rows, st. simpl. repeat split. lia.
  - cbn [trials].
    assert (P : exists st1,
               (if (sim_idx mod 1000 =? 0)%nat then poll stop_check st else (false, st))
               = (false, st1) /\ gen st1 = gen st /\ written st1 = written st).
    { destruct (sim_idx mod 1000 =? 0)%nat; [apply poll_goes_on|].
      exists st. split; [reflexivity|]. split; reflexivity. }
    destruct P as (st1 & -> & G1 & W1).
    destruct (trial bin_data_list (firstn 20 combo) 0 (gen st1)) as [v g'].
    destruct (IH (S sim_idx) (v :: rows) (mkState g' (polls st1) (written st1)))
      as (rows' & st' & E & W & L).
    exists rows', st'. split; [exact E|]. split; [rewrite W; exact W1|].
    rewrite L. simpl. lia.
Qed.

(** As long as no stop is asked for, the loop over the combinations
    completes: one output file per combination, numbered from
    [combo_idx] on, each with [simulation_count] rows. *)
Lemma combos_loop_run_through (simulation_count : nat) (combos : list (list Q))
  (combo_idx : nat) (st : run_state) :
  exists st' new,
    combos_loop stop_check simulation_count bin_data_list combos combo_idx st
    = (true, st') /\
    written st' = new ++ written st /\
    map fst new = rev (seq combo_idx (List.length combos)) /\
    Forall (fun f => List.length (snd f) = simulation_count) new.
Proof.
  revert combo_idx st. induction combos as [|combo rest IH]; intros combo_idx st.
  - exists st, []. simpl. repeat split. constructor.
  - cbn [combos_loop].
    destruct (poll_goes_on st) as (st1 & -> & G1 & W1).
    destruct (trials_run_through combo simulation_count 0 [] st1)
      as (rows & st2 & E & W & L).
    rewrite E.
    destruct (IH (S combo_idx)
                 (mkState (gen st2) (polls st2) ((combo_idx, rev rows) :: written st2)))
      as (st' & new & E' & W' & I' & F').
    exists st', (new ++ [(combo_idx, rev rows)]).
    split; [exact E'|]. split; [|split].
    + rewrite W'. simpl. rewrite W, W1, <- app_assoc. reflexivity.
    + rewrite map_app, I'. reflexivity.
    + apply Forall_app. split; [exact F'|].
      repeat constructor. simpl. rewrite length_rev, L. reflexivity.
Qed.

End MonteCarloFacts.

Section MonteCarloProperties.

Import Step7FinalCalculation.

(** With one combination row and none of the 20 population files in the
    directory the run does not fail: it completes and writes its file. *)
Lemma missing_population_run_succeeds :
  (forall name, bin_file (mkDir (Some [[Number 1; Number (3#2)]]) (fun _ => None)) name = None) /\
  run_monte_carlo_simulation 2 None
    (mkDir (Some [[Number 1; Number (3#2)]]) (fun _ => None)) (mkRng (fun k => k) 0)
  = (true, Completed 1 2, mkState (mkRng (fun k => k) 6) 0 [(1%nat, [0 # 2; 0 # 2])]).
Proof. split; [reflexivity|]. vm_compute. reflexivity. Qed.

(** C6 (amended).  A missing combination-row file (or one without a
    usable row) makes the run fail at once with its own message, before
    anything is drawn or written.  A missing or empty adjusted-population
    file does not: the loader puts the population [[0.0]] in its place,
    always returns 20 populations, and the run goes on.  Whenever no stop
    is asked for (there is no stop predicate, or the one given answers no
    at every poll) the run goes to completion, writing one file of
    [simulation_count] rows per combination. *)
Theorem monte_carlo_missing_inputs (simulation_count : nat) (dir : directory) (g : rng) :
  (forall stop_check,
      combos_file dir = None ->
      run_monte_carlo_simulation simulation_count stop_check dir g
      = (false, CombosFileMissing, mkState g 0 [])) /\
  (forall stop_check f,
      combos_file dir = Some f -> load_combos f = [] ->
      run_monte_carlo_simulation simulation_count stop_check dir g
      = (false, CombosFileEmpty, mkState g 0 [])) /\
  List.length (_load_bin_data_memory_efficient dir) = 20%nat /\
  (forall k name,
      nth_error file_order k = Some name ->
      bin_file dir name = None \/ bin_file dir name = Some [] ->
      nth_error (_load_bin_data_memory_efficient dir) k = Some [0]) /\
  (forall stop_check f,
      (forall p, stop_check = Some p -> forall k, p k = false) ->
      combos_file dir = Some f -> load_combos f <> [] ->
      exists st,
        run_monte_carlo_simulation simulation_count stop_check dir g
        = (true, Completed (List.length (load_combos f)) simulation_count, st) /\
        map fst (written st) = rev (seq 1 (List.length (load_combos f))) /\
        Forall (fun out => List.length (snd out) = simulation_count) (written st)).
Proof.
  assert (L20 : List.length (_load_bin_data_memory_efficient dir) = 20%nat)
    by (unfold _load_bin_data_memory_efficient; now rewrite length_map).
  assert (Through : forall stop_check f,
             (forall p, stop_check = Some p -> forall k, p k = false) ->
             combos_file dir = Some f -> load_combos f <> [] ->
             exists st,
               run_monte_carlo_simulation simulation_count stop_check dir g
               = (true, Completed (List.length (load_combos f)) simulation_count, st) /\
               map fst (written st) = rev (seq 1 (List.length (load_combos f))) /\
               Forall (fun out => List.length (snd out) = simulation_count) (written st)).
  { intros stop_check f Quiet E NE. unfold run_monte_carlo_simulation. rewrite E.
    destruct (load_combos f) as [|c cs] eqn:Lc; [contradiction|].
    rewrite L20. simpl negb. cbv iota.
    destruct (@combos_loop_run_through (_load_bin_data_memory_efficient dir)
                stop_check Quiet simulation_count (c :: cs) 1 (mkState g 0 []))
      as (st & new & Run & W & I & F).
    rewrite Run. exists st. split; [reflexivity|].
    simpl in W. rewrite app_nil_r in W. rewrite W. split; assumption. }
  split; [|split; [|split; [|split]]].
  - intros stop_check E. unfold run_monte_carlo_simulation. now rewrite E.
  - intros stop_check f E L. unfold run_monte_carlo_simulation. now rewrite E, L.
  - exact L20.
  - intros k name Hk Hmiss. unfold _load_bin_data_memory_efficient.
    rewrite nth_error_map, Hk. simpl.
    destruct Hmiss as [-> | ->]; reflexivity.
  - exact Through.
Qed.

(** Instances: a directory without the combination file, and one with it
    but without any population file. *)
Lemma monte_carlo_missing_inputs_witness :
  run_monte_carlo_simulation 2 None (mkDir None (fun _ => None)) (mkRng (fun k => k) 0)
  = (false, CombosFileMissing, mkState (mkRng (fun k => k) 0) 0 []) /\
  nth_error (_load_bin_data_memory_efficient
               (mkDir (Some [[Number 1; Number (3#2)]]) (fun _ => None))) 7
  = Some [0] /\
  exists st,
    run_monte_carlo_simulation 2 (Some (fun _ => false))
      (mkDir (Some [[Number 1; Number (3#2)]]) (fun _ => None)) (mkRng (fun k => k) 0)
    = (true, Completed 1 2, st).
Proof.
  split; [|split].
  - apply (monte_carlo_missing_inputs 2 (mkDir None (fun _ => None)) (mkRng (fun k => k) 0)).
    reflexivity.
  - destruct (monte_carlo_missing_inputs 2
                (mkDir (Some [[Number 1; Number (3#2)]]) (fun _ => None))
                (mkRng (fun k => k) 0)) as (_ & _ & _ & Load & _).
    apply (Load 7%nat "LED2_raw_data_bin_4_interpolated_loss.csv"%string);
      [reflexivity|left; reflexivity].
  - destruct (monte_carlo_missing_inputs 2
                (mkDir (Some [[Number 1; Number (3#2)]]) (fun _ => None))
                (mkRng (fun k => k) 0)) as (_ & _ & _ & _ & Run).
    destruct (Run (Some (fun _ => false)) [[Number 1; Number (3#2)]])
      as (st & E & _);
      [intros p Ep k; injection Ep as <-; reflexivity|reflexivity|discriminate|].
    exists st. exact E.
Defined.

End MonteCarloProperties.

(* ================================================================== *)
(** * Reading and counting (step1_rawdata_analysis) *)
(* ================================================================== *)

Section ReadingFacts.

Import Step1Counting.

(** What one cell contributes to the numbers. *)
Local Notation "'number_in' p v" :=
  (match v with
   | XlNumber q => [q]
   | XlStr (Number q) => if p then [q] else []
   | _ => []
   end) (at level 10, p at level 9, v at level 9).

Lemma read_cell_effect (p : bool) (r : reading) (v : xl_value) :
  let r' := read_cell p r v in
  (numbers_count r' + non_numbers_count r' + blank_cells r'
   = S (numbers_count r + non_numbers_count r + blank_cells r))%nat /\
  (numbers_count r' = List.length (number_in p v) + numbers_count r)%nat /\
  numbers_rev r' = rev (number_in p v) ++ numbers_rev r.
Proof.
  unfold read_cell.
  destruct v as [|[|q|s]|q|b|]; destruct p; simpl; repeat split; lia.
Qed.

Lemma read_cells_effect (p : bool) (cells : list xl_value) (r : reading) :
  let r' := fold_left (read_cell p) cells r in
  (numbers_count r' + non_numbers_count r' + blank_cells r'
   = List.length cells + (numbers_count r + non_numbers_count r + blank_cells r))%nat /\
  (numbers_count r'
   = List.length (flat_map (fun v => number_in p v) cells) + numbers_count r)%nat /\
  numbers_rev r' = rev (flat_map (fun v => number_in p v) cells) ++ numbers_rev r.
Proof.
  revert r. induction cells as [|v cells IH]; intro r; [simpl; repeat split; lia|].
  cbn [fold_left flat_map List.length].
  destruct (IH (read_cell p r v)) as (A & B & C).
  destruct (read_cell_effect p r v) as (A' & B' & C').
  rewrite A, B, C, A', B', C'. rewrite rev_app_distr, length_app, <- app_assoc.
  repeat split; lia.
Qed.

(** The nested loops over sheets, rows and cells are one loop over the
    cells in reading order. *)
Lemma nested_loops_flatten (p : bool) (wb : workbook) (r : reading) :
  fold_left (fun r ws =>
      fold_left (fun r row => fold_left (read_cell p) row r) ws r) wb r
  = fold_left (read_cell p) (List.concat (List.concat wb)) r.
Proof.
  assert (R : forall (ws : list (list xl_value)) r0,
             fold_left (fun r row => fold_left (read_cell p) row r) ws r0
             = fold_left (read_cell p) (List.concat ws) r0).
  { induction ws as [|row ws IH]; intro r0; [reflexivity|].
    simpl. rewrite fold_left_app. apply IH. }
  revert r. induction wb as [|ws wb IH]; intro r; [reflexivity|].
  simpl. rewrite concat_app, fold_left_app, R. apply IH.
Qed.

(** The result of the reading loops in closed form. *)
Lemma read_all_numbers_closed (wb : workbook) (p : bool) :
  exists n_non n_blank,
    read_all_numbers_from_excel wb p
    = (flat_map (fun v => number_in p v) (List.concat (List.concat wb)),
       List.length (flat_map (fun v => number_in p v) (List.concat (List.concat wb))),
       n_non, n_blank) /\
    (List.length (flat_map (fun v => number_in p v) (List.concat (List.concat wb)))
     + n_non + n_blank = List.length (List.concat (List.concat wb)))%nat.
Proof.
  unfold read_all_numbers_from_excel. rewrite nested_loops_flatten.
  destruct (read_cells_effect p (List.concat (List.concat wb)) (mkReading [] 0 0 0))
    as (A & B & C).
  simpl in A, B, C. rewrite app_nil_r in C.
  eexists. eexists. rewrite C, rev_involutive, B, Nat.add_0_r.
  split; [reflexivity|]. lia.
Qed.

(** What one cell contributes to the two other counters. *)
Local Notation "'is_blank_value' v" :=
  (match v with
   | XlNone | XlStr Blank => true
   | _ => false
   end) (at level 10, v at level 9).

Local Notation "'is_non_number' p v" :=
  (match v with
   | XlStr (Text _) | XlBool _ | XlOther => true
   | XlStr (Number _) => negb p
   | _ => false
   end) (at level 10, p at level 9, v at level 9).

Lemma read_cells_counters (p : bool) (cells : list xl_value) (r : reading) :
  let r' := fold_left (read_cell p) cells r in
  (blank_cells r'
   = List.length (filter (fun v => is_blank_value v) cells) + blank_cells r)%nat /\
  (non_numbers_count r'
   = List.length (filter (fun v => is_non_number p v) cells) + non_numbers_count r)%nat.
Proof.
  revert r. induction cells as [|v cells IH]; intro r; [simpl; split; reflexivity|].
  cbn [fold_left filter].
  destruct (IH (read_cell p r v)) as (A & B). rewrite A, B.
  unfold read_cell.
  destruct v as [|[|q|s]|q|b|]; destruct p; simpl; split; lia.
Qed.

(** The three counters of the reading loops in closed form. *)
Lemma read_all_numbers_counters (wb : workbook) (p : bool) :
  let cells := List.concat (List.concat wb) in
  snd (read_all_numbers_from_excel wb p)
  = List.length (filter (fun v => is_blank_value v) cells) /\
  snd (fst (read_all_numbers_from_excel wb p))
  = List.length (filter (fun v => is_non_number p v) cells).
Proof.
  unfold read_all_numbers_from_excel. rewrite nested_loops_flatten.
  destruct (read_cells_counters p (List.concat (List.concat wb)) (mkReading [] 0 0 0))
    as (A & B).
  cbn [snd fst]. rewrite A, B. simpl. split; lia.
Qed.

End ReadingFacts.

Section ReadingProperties.

Import Step1Counting.

(** X1.  Reading a workbook counts every cell exactly once, as a number,
    a non-number or a blank.  A blank is an empty cell or a string that
    is empty once stripped.  A number is a numeric cell or, when strings
    are parsed, a string that [float()] accepts; [numbers_count] is the
    number of values collected, and the values are those of the numbers in
    reading order: sheet by sheet, row by row, cell by cell.  Everything
    else is a non-number: a boolean, a date or an error, a string that
    [float()] refuses, and, when strings are not parsed, every string
    that is not blank. *)
Theorem read_all_numbers_counts_every_cell (wb : workbook) (p : bool) :
  let cells := List.concat (List.concat wb) in
  exists numbers n_num n_non n_blank,
    read_all_numbers_from_excel wb p = (numbers, n_num, n_non, n_blank) /\
    (n_num + n_non + n_blank = List.length cells)%nat /\
    n_num = List.length numbers /\
    numbers
    = flat_map (fun v => match v with
                         | XlNumber q => [q]
                         | XlStr (Number q) => if p then [q] else []
                         | _ => []
                         end) cells /\
    n_blank
    = List.length (filter (fun v => match v with
                                    | XlNone | XlStr Blank => true
                                    | _ => false
                                    end) cells) /\
    n_non
    = List.length (filter (fun v => match v with
                                    | XlStr (Text _) | XlBool _ | XlOther => true
                                    | XlStr (Number _) => negb p
                                    | _ => false
                                    end) cells).
Proof.
  intro cells.
  destruct (read_all_numbers_closed wb p) as (n_non & n_blank & E & T).
  destruct (read_all_numbers_counters wb p) as (B & N).
  rewrite E in B, N. cbn [fst snd] in B, N.
  eexists. eexists. exists n_non, n_blank. split; [exact E|].
  split; [exact T|]. split; [reflexivity|]. split; [reflexivity|].
  split; [exact B|exact N].
Qed.

End ReadingProperties.

Section CountingFacts.

Import Step1RawdataAnalysis Step1Counting.

Local Notation "'differ'" := (fun a b : Q * nat => ~ fst a == fst b).

Lemma Qeq_bool_trans_l (k v x : Q) :
  Qeq_bool k v = true -> Qeq_bool k x = Qeq_bool v x.
Proof.
  intro E. apply Qeq_bool_iff in E.
  destruct (Qeq_bool k x) eqn:A, (Qeq_bool v x) eqn:B; try reflexivity.
  - apply Qeq_bool_iff in A. apply Qeq_bool_neq in B. exfalso. apply B.
    rewrite <- E. exact A.
  - apply Qeq_bool_iff in B. apply Qeq_bool_neq in A. exfalso. apply A.
    rewrite E. exact B.
Qed.

Lemma counted_count_up (counts : list (Q * nat)) (v x : Q) :
  counted (count_up counts v) x
  = (counted counts x + if Qeq_bool v x then 1 else 0)%nat.
Proof.
  unfold counted. induction counts as [|[k c] rest IH]; simpl.
  - destruct (Qeq_bool v x); reflexivity.
  - destruct (Qeq_bool k v) eqn:E; simpl.
    + rewrite <- (Qeq_bool_trans_l k v x E).
      destruct (Qeq_bool k x); simpl; lia.
    + destruct (Qeq_bool k x); simpl; rewrite IH; lia.
Qed.

Lemma counted_fold (numbers : list Q) (acc : list (Q * nat)) (x : Q) :
  counted (fold_left count_up numbers acc) x
  = (counted acc x + occurrences numbers x)%nat.
Proof.
  revert acc. unfold occurrences.
  induction numbers as [|v numbers IH]; intro acc; simpl; [lia|].
  rewrite IH, counted_count_up.
  destruct (Qeq_bool v x); simpl; lia.
Qed.

Lemma total_fold (numbers : list Q) (acc : list (Q * nat)) :
  list_sum (map snd (fold_left count_up numbers acc))
  = (list_sum (map snd acc) + List.length numbers)%nat.
Proof.
  revert acc. induction numbers as [|v numbers IH]; intro acc; simpl; [lia|].
  rewrite IH.
  assert (U : list_sum (map snd (count_up acc v)) = S (list_sum (map snd acc))).
  { induction acc as [|[k c] rest IHa]; simpl; [reflexivity|].
    destruct (Qeq_bool k v); simpl; lia. }
  lia.
Qed.

Lemma count_up_keys (counts : list (Q * nat)) (v k : Q) (c : nat) :
  In (k, c) (count_up counts v) -> k = v \/ exists c', In (k, c') counts.
Proof.
  induction counts as [|[k0 c0] rest IH]; simpl.
  - intros [E|[]]. injection E as <- _. now left.
  - destruct (Qeq_bool k0 v).
    + intros [E|H]; right.
      * injection E as <- _. exists c0. now left.
      * exists c. now right.
    + intros [E|H].
      * right. exists c. now left.
      * destruct (IH H) as [->|[c' H']]; [now left|].
        right. exists c'. now right.
Qed.

Lemma fold_keys (numbers : list Q) (acc : list (Q * nat)) (k : Q) (c : nat) :
  In (k, c) (fold_left count_up numbers acc) ->
  In k numbers \/ exists c', In (k, c') acc.
Proof.
  revert acc. induction numbers as [|v numbers IH]; intros acc H; simpl in *.
  - right. now exists c.
  - destruct (IH _ H) as [H'|[c' H']]; [left; now right|].
    destruct (count_up_keys _ _ _ _ H') as [->|H'']; [left; now left|now right].
Qed.

Lemma count_up_distinct (counts : list (Q * nat)) (v : Q) :
  StronglySorted differ counts -> StronglySorted differ (count_up counts v).
Proof.
  induction 1 as [|[k c] rest S IH F]; simpl; [repeat constructor|].
  destruct (Qeq_bool k v) eqn:E.
  - constructor; [exact S|exact F].
  - constructor; [exact IH|].
    apply Forall_forall. intros [k' c'] Hin. simpl.
    destruct (count_up_keys _ _ _ _ Hin) as [->|[c'' Hin']].
    + now apply Qeq_bool_neq.
    + rewrite Forall_forall in F. apply (F _ Hin').
Qed.

Lemma fold_distinct (numbers : list Q) (acc : list (Q * nat)) :
  StronglySorted differ acc -> StronglySorted differ (fold_left count_up numbers acc).
Proof.
  revert acc. induction numbers as [|v numbers IH]; intros acc S; [exact S|].
  simpl. apply IH. now apply count_up_distinct.
Qed.

(** With pairwise different keys, the count stored with a key is what
    the dict holds for it. *)
Lemma counted_of_entry (counts : list (Q * nat)) (k : Q) (c : nat) :
  StronglySorted differ counts -> In (k, c) counts -> counted counts k = c.
Proof.
  unfold counted.
  induction 1 as [|[k0 c0] rest S IH F]; intros Hin; [destruct Hin|].
  simpl. destruct Hin as [E|Hin].
  - injection E as -> ->.
    replace (Qeq_bool k k) with true by (symmetry; now apply Qeq_bool_iff).
    simpl.
    assert (Z : filter (fun kc : Q * nat => Qeq_bool (fst kc) k) rest = []).
    { clear IH S. induction rest as [|[k1 c1] rest IHr]; [reflexivity|].
      inversion F as [|? ? F1 F2]; subst. simpl in *.
      destruct (Qeq_bool k1 k) eqn:E1; [|now apply IHr].
      apply Qeq_bool_iff in E1. exfalso. apply F1. now symmetry. }
    rewrite Z. simpl. lia.
  - rewrite Forall_forall in F. pose proof (F _ Hin) as D. simpl in D.
    replace (Qeq_bool k0 k) with false
      by (symmetry; destruct (Qeq_bool k0 k) eqn:E1; [|reflexivity];
          apply Qeq_bool_iff in E1; contradiction).
    now apply IH.
Qed.

Lemma occurrences_of_member (numbers : list Q) (x y : Q) :
  In y numbers -> y == x -> (1 <= occurrences numbers x)%nat.
Proof.
  intros Hin E. unfold occurrences.
  induction numbers as [|v numbers IH]; [destruct Hin|].
  simpl. destruct Hin as [->|Hin].
  - replace (Qeq_bool y x) with true by (symmetry; now apply Qeq_bool_iff).
    simpl. lia.
  - destruct (Qeq_bool v x); simpl; [lia|now apply IH].
Qed.

Lemma counted_positive (counts : list (Q * nat)) (x : Q) :
  (1 <= counted counts x)%nat ->
  exists k c, In (k, c) counts /\ k == x.
Proof.
  unfold counted. induction counts as [|[k c] rest IH]; simpl; [lia|].
  destruct (Qeq_bool k x) eqn:E.
  - intros _. exists k, c. split; [now left|now apply Qeq_bool_iff].
  - intro H. destruct (IH H) as (k' & c' & Hin & E').
    exists k', c'. split; [now right|exact E'].
Qed.

End CountingFacts.

Section EntrySortFacts.

Import Step1RawdataAnalysis Step1Counting.

Local Notation "'lt_value'" := (fun a b : CategoryStatsEntry => value a < value b).
Local Notation "'other_value'" :=
  (fun a b : CategoryStatsEntry => ~ value a == value b).

Lemma insert_entry_perm (e : CategoryStatsEntry) (l : list CategoryStatsEntry) :
  Permutation (insert_entry e l) (e :: l).
Proof.
  induction l as [|f l IH]; simpl; [reflexivity|].
  destruct (Qle_bool (value e) (value f)); [reflexivity|].
  rewrite IH. apply perm_swap.
Qed.

Lemma sort_entries_perm (l : list CategoryStatsEntry) : Permutation (sort_entries l) l.
Proof.
  induction l as [|e l IH]; simpl; [reflexivity|].
  rewrite insert_entry_perm. now constructor.
Qed.

Lemma insert_entry_hd (e a : CategoryStatsEntry) (l : list CategoryStatsEntry) :
  value a < value e -> HdRel lt_value a l -> HdRel lt_value a (insert_entry e l).
Proof.
  intros Hae Hl. destruct l as [|f l]; simpl; [now constructor|].
  destruct (Qle_bool (value e) (value f)); constructor; [exact Hae|].
  now inversion Hl.
Qed.

Lemma insert_entry_strict (e : CategoryStatsEntry) (l : list CategoryStatsEntry) :
  Sorted lt_value l -> Forall (other_value e) l -> Sorted lt_value (insert_entry e l).
Proof.
  induction 1 as [|f l S IH Hd]; intro F; simpl; [repeat constructor|].
  inversion F as [|? ? F1 F2]; subst.
  destruct (Qle_bool (value e) (value f)) eqn:E.
  - apply Qle_bool_iff in E.
    assert (value e < value f).
    { apply Qle_lteq in E. destruct E as [E|E]; [exact E|contradiction]. }
    repeat constructor; assumption.
  - apply Qle_bool_false in E. constructor; [now apply IH|].
    now apply insert_entry_hd.
Qed.

(** Sorting entries with pairwise different values gives strictly
    ascending values. *)
Lemma sort_entries_strict (l : list CategoryStatsEntry) :
  StronglySorted other_value l -> Sorted lt_value (sort_entries l).
Proof.
  induction 1 as [|e l S IH F]; simpl; [constructor|].
  apply insert_entry_strict; [exact IH|].
  apply Forall_forall. intros f Hf.
  apply (Permutation_in _ (sort_entries_perm l)) in Hf.
  rewrite Forall_forall in F. now apply F.
Qed.

Lemma sum_fold_right (l : list Q) (a : Q) :
  fold_left Qplus l a == a + fold_right Qplus 0 l.
Proof.
  revert a. induction l as [|x l IH]; intro a; simpl; [ring|].
  rewrite IH. ring.
Qed.

Lemma sum_perm (l l' : list Q) : Permutation l l' -> sum l == sum l'.
Proof.
  intro P. unfold sum. rewrite !sum_fold_right.
  apply Qplus_comp; [reflexivity|].
  induction P as [|x l l' P IH|x y l|l l' l'' P1 IH1 P2 IH2]; simpl.
  - reflexivity.
  - now rewrite IH.
  - ring.
  - now rewrite IH1.
Qed.

Lemma sum_ratios (counts : list (Q * nat)) (total : nat) :
  sum (map (fun vc => ratio (snd vc) total) counts)
  == ratio (list_sum (map snd counts)) total.
Proof.
  unfold sum. rewrite sum_fold_right.
  induction counts as [|[k c] rest IH]; simpl.
  - unfold ratio. simpl. unfold Qdiv. ring.
  - assert (E : 0 + fold_right Qplus 0 (map (fun vc => ratio (snd vc) total) rest)
                == ratio (list_sum (map snd rest)) total) by exact IH.
    unfold ratio in *. rewrite Nat2Z.inj_add, inject_Z_plus.
    unfold Qdiv in *.
    set (X := fold_right Qplus 0
                (map (fun vc : Q * nat =>
                        inject_Z (Z.of_nat (snd vc)) * / inject_Z (Z.of_nat total)) rest))
      in *.
    lra.
Qed.

Lemma ratio_one (n : nat) : (0 < n)%nat -> ratio n n == 1.
Proof.
  intro H. unfold ratio. field.
  intro E. unfold Qeq in E. simpl in E. lia.
Qed.

End EntrySortFacts.

Section CategoryProperties.

Import Step1RawdataAnalysis Step1Counting.

Lemma list_sum_perm (l l' : list nat) : Permutation l l' -> list_sum l = list_sum l'.
Proof.
  induction 1; simpl; lia.
Qed.

Lemma distinct_entries (counts : list (Q * nat)) (total : nat) :
  StronglySorted (fun a b : Q * nat => ~ fst a == fst b) counts ->
  StronglySorted (fun a b => ~ value a == value b)
    (map (fun vc => mkEntry (fst vc) (snd vc) (ratio (snd vc) total)) counts).
Proof.
  induction 1 as [|[k c] rest S IH F]; simpl; constructor; [exact IH|].
  apply Forall_forall. intros e He. apply in_map_iff in He as ([k' c'] & <- & Hin).
  simpl. rewrite Forall_forall in F. apply (F _ Hin).
Qed.

(** The table before sorting, and what is known of the dict behind it. *)
Lemma category_stats_shape (numbers : list Q) :
  numbers <> [] ->
  exists counts,
    counts = fold_left count_up numbers [] /\
    Permutation (calculate_counts_and_proportions numbers)
      (map (fun vc => mkEntry (fst vc) (snd vc) (ratio (snd vc) (List.length numbers)))
           counts) /\
    StronglySorted (fun a b : Q * nat => ~ fst a == fst b) counts /\
    list_sum (map snd counts) = List.length numbers /\
    (forall k c, In (k, c) counts ->
       In k numbers /\ c = occurrences numbers k /\ (1 <= c)%nat) /\
    (forall x, In x numbers -> exists k c, In (k, c) counts /\ k == x).
Proof.
  intro NE. exists (fold_left count_up numbers []).
  assert (D : StronglySorted (fun a b : Q * nat => ~ fst a == fst b)
                (fold_left count_up numbers []))
    by (apply fold_distinct; constructor).
  split; [reflexivity|]. split; [|split; [exact D|split; [|split]]].
  - unfold calculate_counts_and_proportions.
    replace (List.length numbers =? 0)%nat with false
      by (destruct numbers; [contradiction|reflexivity]).
    apply sort_entries_perm.
  - now rewrite total_fold.
  - intros k c Hin.
    assert (Hk : In k numbers).
    { destruct (fold_keys _ _ _ _ Hin) as [H|[c' []]]. exact H. }
    assert (Hc : c = occurrences numbers k).
    { rewrite <- (@counted_of_entry _ k c D Hin), counted_fold. reflexivity. }
    split; [exact Hk|]. split; [exact Hc|].
    rewrite Hc. apply (@occurrences_of_member numbers k k Hk). reflexivity.
  - intros x Hx. apply counted_positive.
    rewrite counted_fold. simpl.
    apply (@occurrences_of_member numbers x x Hx). reflexivity.
Qed.

(** X2.  For a non-empty list of numbers the category table is not
    empty, its proportions sum to 1, its counts sum to the number of
    numbers, and its values are strictly ascending (every distinct value
    has one entry only). *)
Theorem category_stats_invariants (numbers : list Q) :
  numbers <> [] ->
  let stats := calculate_counts_and_proportions numbers in
  stats <> [] /\
  sum (map proportion stats) == 1 /\
  list_sum (map count stats) = List.length numbers /\
  Sorted (fun a b => value a < value b) stats.
Proof.
  intros NE stats.
  destruct (category_stats_shape NE) as (counts & Ec & P & D & T & _ & _).
  fold stats in P.
  assert (Lpos : (0 < List.length numbers)%nat)
    by (destruct numbers; [contradiction|simpl; lia]).
  split; [|split; [|split]].
  - intro E. rewrite E in P. apply Permutation_nil in P.
    apply map_eq_nil in P. rewrite P in T. simpl in T. lia.
  - rewrite (sum_perm (Permutation_map proportion P)), map_map. simpl.
    rewrite sum_ratios, T. now apply ratio_one.
  - rewrite (list_sum_perm (Permutation_map count P)), map_map. simpl. exact T.
  - unfold stats, calculate_counts_and_proportions.
    replace (List.length numbers =? 0)%nat with false
      by (destruct numbers; [contradiction|reflexivity]).
    apply sort_entries_strict. rewrite <- Ec. now apply distinct_entries.
Qed.

Lemma category_stats_invariants_witness :
  sum (map proportion (calculate_counts_and_proportions [3; 1; 3; 2; 3; 1])) == 1 /\
  list_sum (map count (calculate_counts_and_proportions [3; 1; 3; 2; 3; 1])) = 6%nat.
Proof.
  destruct (@category_stats_invariants [3; 1; 3; 2; 3; 1] ltac:(discriminate))
    as (_ & S & T & _).
  split; [exact S|exact T].
Defined.

(** X3.  Every entry of the category table carries one of the numbers as
    its value, the number of occurrences of that value as its count
    (at least 1), and count / total as its proportion; and every number
    has an entry with an equal value. *)
Theorem category_counts_are_occurrences (numbers : list Q) :
  numbers <> [] ->
  let stats := calculate_counts_and_proportions numbers in
  (forall e, In e stats ->
     In (value e) numbers /\
     count e = occurrences numbers (value e) /\
     (1 <= count e)%nat /\
     proportion e = ratio (count e) (List.length numbers)) /\
  (forall x, In x numbers -> exists e, In e stats /\ value e == x).
Proof.
  intros NE stats.
  destruct (category_stats_shape NE) as (counts & Ec & P & D & T & K & C).
  fold stats in P. split.
  - intros e He. apply (Permutation_in _ P) in He.
    apply in_map_iff in He as ([k c] & <- & Hin). simpl.
    destruct (K _ _ Hin) as (A & B & B'). repeat split; assumption.
  - intros x Hx. destruct (C x Hx) as (k & c & Hin & E).
    exists (mkEntry k c (ratio c (List.length numbers))). split; [|exact E].
    apply (Permutation_in _ (Permutation_sym P)).
    apply in_map_iff. exists (k, c). split; [reflexivity|exact Hin].
Qed.

Lemma category_counts_are_occurrences_witness :
  exists e,
    In e (calculate_counts_and_proportions [3; 1; 3; 2; 3; 1]) /\ value e == 3 /\
    count e = occurrences [3; 1; 3; 2; 3; 1] (value e).
Proof.
  destruct (@category_counts_are_occurrences [3; 1; 3; 2; 3; 1] ltac:(discriminate))
    as (E & C).
  destruct (C 3 ltac:(simpl; tauto)) as (e & He & Ev).
  exists e. split; [exact He|]. split; [exact Ev|].
  apply (E e He).
Defined.

End CategoryProperties.

Section RawDataPipeline.

Import Step1RawdataAnalysis Step1Counting.

Lemma slice_members {A} (l : list A) (i j : nat) (d x : A) :
  In x (slice i (j + 1) l) ->
  exists k, (i <= k <= j)%nat /\ (k < List.length l)%nat /\ nth k l d = x.
Proof.
  unfold slice. intro H.
  destruct (In_nth _ _ d H) as (m & Hm & E).
  rewrite length_firstn, length_skipn in Hm.
  rewrite nth_firstn in E.
  replace (m <? j + 1 - i)%nat with true in E by (symmetry; apply Nat.ltb_lt; lia).
  rewrite nth_skipn in E.
  exists (i + m)%nat. repeat split; try lia. exact E.
Qed.

Lemma median_scan_member (half : Q) (values props : list Q) (cum default : Q) :
  median_scan half values props cum default = default \/
  In (median_scan half values props cum default) values.
Proof.
  revert props cum. induction values as [|v vs IH]; intros props cum; [now left|].
  destruct props as [|p ps]; [now left|].
  simpl. destruct (Qgeb (cum + p) half); [right; now left|].
  destruct (IH ps (cum + p)) as [E|H]; [now left|right; now right].
Qed.

(** On a proper table the function returns the values at two indices
    [i <= j], the weighted median of the indices between them, and the
    probability of [i .. j], which reaches the target. *)
Lemma find_shortest_shape (stats : list CategoryStatsEntry) (t : Q) :
  stats <> [] -> Sorted Qle (map value stats) ->
  sum (map proportion stats) == 1 -> t <= 1 ->
  exists i j med,
    (i <= j < List.length stats)%nat /\
    find_shortest_interval_covering_prob stats t
    = (Some (nth i (map value stats) 0), Some med, Some (nth j (map value stats) 0),
       interval_prob_of (map proportion stats) i j) /\
    t - (1 # 1000000000000) <= interval_prob_of (map proportion stats) i j /\
    (med = nth i (map value stats) 0 \/
     In med (slice i (j + 1) (map value stats))).
Proof.
  intros NE Asc One Hle.
  set (values := map value stats) in *. set (props := map proportion stats) in *.
  set (n := List.length stats).
  assert (Ln : List.length values = n) by apply length_map.
  assert (Lp : List.length props = List.length values)
    by (unfold props, values; now rewrite !length_map).
  assert (Npos : (0 < n)%nat) by (unfold n; destruct stats; [contradiction|simpl; lia]).
  pose proof (@sweep_inv_final t values props Lp (sorted_nth_le Asc)) as Inv.
  unfold sweep_inv in Inv. rewrite Ln in Inv.
  destruct (best_span (sweep t values props)) as [s|] eqn:Bs.
  - destruct Inv as (I1 & I2 & I3 & I4 & _).
    exists (best_i (sweep t values props)), (best_j (sweep t values props)).
    eexists. split; [exact I2|]. split; [|split].
    + unfold find_shortest_interval_covering_prob. fold n values props.
      replace (n =? 0)%nat with false by (symmetry; apply Nat.eqb_neq; lia).
      reflexivity.
    + unfold covers, eps in I4. apply Qgeb_le in I4. lra.
    + apply median_scan_member.
  - exfalso. destruct Inv as (_ & _ & No).
    assert (Whole : covers t props 0 (n - 1) = true).
    { unfold covers, eps. apply Qgeb_le.
      rewrite <- Ln, <- Lp, interval_prob_whole.
      - lra.
      - intro E. rewrite E in Lp. simpl in Lp. lia. }
    rewrite No in Whole by lia. discriminate.
Qed.

Lemma sorted_lt_le (l : list CategoryStatsEntry) :
  Sorted (fun a b => value a < value b) l -> Sorted Qle (map value l).
Proof.
  induction 1 as [|e l S IH Hd]; simpl; constructor; [exact IH|].
  destruct Hd as [|f l' Hf]; simpl; constructor. now apply Qlt_le_weak.
Qed.

End RawDataPipeline.

Section RawDataProperties.

Import Step1RawdataAnalysis Step1Counting.

(** X4.  [process_raw_excel] end to end, with [numbers] the values read
    from the workbook and a target in (0, 1].  Without any number the
    result has no data: an empty table, no interval, probability 0, and
    nothing is raised.  With at least one number the result has data, the
    interval (min, median, max) is made of numbers that were read, with
    [min <= median <= max], and its probability is at least the target
    (less 1e-12). *)
Theorem process_raw_excel_interval (wb : workbook) (t : Q) (p : bool) :
  0 < t -> t <= 1 ->
  let numbers := fst (fst (fst (read_all_numbers_from_excel wb p))) in
  let r := process_raw_excel wb t p in
  category_stats r = calculate_counts_and_proportions numbers /\
  (numbers = [] ->
   has_data r = false /\ min_val r = None /\ median_val r = None /\
   max_val r = None /\ interval_prob r = 0) /\
  (numbers <> [] ->
   has_data r = true /\
   exists lo med hi,
     min_val r = Some lo /\ median_val r = Some med /\ max_val r = Some hi /\
     In lo numbers /\ In med numbers /\ In hi numbers /\
     lo <= med /\ med <= hi /\
     t - (1 # 1000000000000) <= interval_prob r).
Proof.
  intros Hpos Hle numbers r.
  destruct (read_all_numbers_closed wb p) as (n_non & n_blank & E & _).
  unfold numbers, r, process_raw_excel. rewrite E. simpl fst.
  set (nums := flat_map _ (List.concat (List.concat wb))).
  set (stats := calculate_counts_and_proportions nums).
  destruct (find_shortest_interval_covering_prob stats t) as [[[mn md] mx] pr] eqn:F.
  simpl. split; [reflexivity|]. split.
  - intro Z. unfold stats in F. rewrite Z in F. simpl in F.
    injection F as <- <- <- <-. unfold stats. rewrite Z. repeat split.
  - intro NE.
    destruct (category_stats_shape NE) as (counts & _ & P & _ & _ & K & _).
    destruct (category_stats_invariants NE) as (SNE & One & _ & Srt).
    fold stats in P, SNE, One, Srt.
    apply sorted_lt_le in Srt.
    destruct (find_shortest_shape SNE Srt One Hle) as (i & j & med & Hij & F' & Cov & M).
    rewrite F in F'. injection F' as -> -> -> ->.
    assert (Mem : forall k, (k < List.length stats)%nat ->
              In (nth k (map value stats) 0) nums).
    { intros k Hk.
      assert (Hin : In (nth k (map value stats) 0) (map value stats))
        by (apply nth_In; now rewrite length_map).
      apply in_map_iff in Hin as (e & <- & He).
      apply (Permutation_in _ P) in He.
      apply in_map_iff in He as ([k' c'] & <- & Hin'). simpl.
      now apply (K k' c'). }
    pose proof (sorted_nth_le Srt) as Mono. rewrite length_map in Mono.
    split.
    { unfold has_data. simpl. apply Nat.ltb_lt. lia. }
    exists (nth i (map value stats) 0), med, (nth j (map value stats) 0).
    assert (Mid : exists k, (i <= k <= j)%nat /\ med = nth k (map value stats) 0).
    { destruct M as [->|M]; [exists i; split; [lia|reflexivity]|].
      destruct (@slice_members Q (map value stats) i j 0 med M) as (k & Hk & _ & Ek).
      exists k. split; [exact Hk|now symmetry]. }
    destruct Mid as (k & Hk & ->).
    repeat split; try (apply Mem; lia); try (apply Mono; lia). exact Cov.
Qed.

Lemma process_raw_excel_interval_witness :
  has_data
    (process_raw_excel
       [[[XlNumber 3; XlStr (Text "V"); XlNone]; [XlStr (Number 1); XlBool true]];
        [[XlNumber 3; XlNumber 2]]] (97 # 100) true) = true /\
  has_data (process_raw_excel [[[XlStr (Text "V"); XlNone]]] (97 # 100) true) = false.
Proof.
  split.
  - apply (@process_raw_excel_interval
             [[[XlNumber 3; XlStr (Text "V"); XlNone]; [XlStr (Number 1); XlBool true]];
              [[XlNumber 3; XlNumber 2]]] (97 # 100) true
             ltac:(reflexivity) ltac:(vm_compute; discriminate)).
    vm_compute. discriminate.
  - apply (@process_raw_excel_interval
             [[[XlStr (Text "V"); XlNone]]] (97 # 100) true
             ltac:(reflexivity) ltac:(vm_compute; discriminate)).
    reflexivity.
Defined.

End RawDataProperties.

(* ------------------------------------------------------------------ *)
(** ** Facts about the bounded collection *)
(* ------------------------------------------------------------------ *)

Section SamplingFacts.

Import Step7FinalCalculation Step1Sampling.

Lemma foldM_raised {A B} (f : A -> B -> result A) l e :
  fold_left (fun acc b => bind acc (fun a => f a b)) l (inl e) = inl e.
Proof. induction l as [|b l IH]; simpl; auto. Qed.

Lemma foldM_cons {A B} (f : A -> B -> result A) b l a :
  foldM f (b :: l) a = bind (f a b) (foldM f l).
Proof.
  unfold foldM. simpl. destruct (f a b) as [e|a']; simpl; auto.
  apply foldM_raised.
Qed.

Lemma select_length population k g : List.length (fst (select population k g)) = k.
Proof.
  revert population g. induction k as [|k IH]; intros population g; simpl; auto.
  specialize (IH (firstn (draws g (used g) mod List.length population) population ++
                  skipn (S (draws g (used g) mod List.length population)) population)
                 (mkRng (draws g) (S (used g)))).
  destruct (select _ k _) as [rest g']. simpl in *. congruence.
Qed.

Lemma remove_nth_length (l : list Q) i :
  (i < List.length l)%nat ->
  List.length (firstn i l ++ skipn (S i) l) = (List.length l - 1)%nat.
Proof.
  intros H. rewrite length_app, length_firstn, length_skipn. lia.
Qed.

Lemma remove_nth_In (l : list Q) i x : In x (firstn i l ++ skipn (S i) l) -> In x l.
Proof.
  intros H. apply in_app_or in H. destruct H as [H|H].
  - rewrite <- (firstn_skipn i l). apply in_or_app. left. exact H.
  - rewrite <- (firstn_skipn (S i) l). apply in_or_app. right. exact H.
Qed.

Lemma select_members population k g :
  (k <= List.length population)%nat ->
  Forall (fun x => In x population) (fst (select population k g)).
Proof.
  revert population g. induction k as [|k IH]; intros population g Hk; simpl.
  - constructor.
  - assert (Hi : (draws g (used g) mod List.length population < List.length population)%nat)
      by (apply Nat.mod_upper_bound; lia).
    set (i := (draws g (used g) mod List.length population)%nat) in *.
    specialize (IH (firstn i population ++ skipn (S i) population)
                   (mkRng (draws g) (S (used g)))).
    destruct (select _ k _) as [rest g']. simpl in *.
    constructor.
    + apply nth_In. exact Hi.
    + assert (Hl : (k <= List.length (firstn i population ++ skipn (S i) population))%nat)
        by (rewrite remove_nth_length by exact Hi; lia).
      specialize (IH Hl).
      eapply Forall_impl; [|exact IH].
      intros x Hx. eapply remove_nth_In. exact Hx.
Qed.

Lemma set_item_in_range i val l :
  (i < List.length l)%nat ->
  exists l', set_item i val l = inr l' /\ List.length l' = List.length l /\
             forall P : Q -> Prop, P val -> Forall P l -> Forall P l'.
Proof.
  intros H. unfold set_item.
  destruct (Nat.ltb_spec i (List.length l)) as [_|]; [|lia].
  eexists. split; [reflexivity|]. split.
  - unfold set_slice. rewrite !length_app, length_firstn, length_skipn. simpl. lia.
  - intros P Pv Pl. unfold set_slice.
    apply Forall_app. split; [|apply Forall_app; split].
    + rewrite <- (firstn_skipn i l) in Pl. apply Forall_app in Pl. tauto.
    + constructor; auto.
    + rewrite <- (firstn_skipn (S i) l) in Pl. apply Forall_app in Pl. tauto.
Qed.

(** Once in reservoir mode a row never raises: the slot written is always
    one of the [k] the reservoir has. *)
Lemma offers_run_through k (P : Q -> Prop) vals : forall c,
  using_reservoir c = true -> List.length (reservoir c) = k ->
  Forall P (reservoir c) -> Forall P vals ->
  exists c', foldM (offer k) vals c = inr c' /\
             using_reservoir c' = true /\ List.length (reservoir c') = k /\
             Forall P (reservoir c') /\
             total c' = (total c + List.length vals)%nat.
Proof.
  induction vals as [|v vals IH]; intros c U L F Fv.
  - exists c. simpl. repeat split; auto.
  - rewrite foldM_cons. inversion Fv as [|? ? Pv Fv']; subst.
    unfold offer at 1. unfold randint_from_1.
    set (j := (1 + draws (gen c) (used (gen c)) mod S (total c))%nat).
    destruct (Nat.leb_spec j (List.length (reservoir c))) as [Hj|Hj].
    + destruct (@set_item_in_range (j - 1) v (reservoir c) ltac:(unfold j in *; lia))
        as (res & E & Lr & Pr).
      rewrite E. simpl.
      destruct (IH (mkCollector (data_numeric c) res (S (total c)) true
                      (mkRng (draws (gen c)) (S (used (gen c))))))
        as (c' & E' & U' & L' & F' & T'); simpl; auto; try congruence.
      exists c'. simpl in T'. repeat split; auto. simpl. lia.
    + simpl.
      destruct (IH (mkCollector (data_numeric c) (reservoir c) (S (total c)) true
                      (mkRng (draws (gen c)) (S (used (gen c))))))
        as (c' & E' & U' & L' & F' & T'); simpl; auto.
      exists c'. simpl in T'. repeat split; auto. simpl. lia.
Qed.

Lemma concat_nonempty_rows rows : List.concat (nonempty_rows rows) = List.concat rows.
Proof.
  induction rows as [|r rows IH]; simpl; auto.
  destruct r; simpl; congruence.
Qed.

Lemma nonempty_rows_app a b : nonempty_rows (a ++ b) = nonempty_rows a ++ nonempty_rows b.
Proof. apply filter_app. Qed.

Lemma collecting_start k g0 : collecting k g0 [] (mkCollector [] [] 0 false g0).
Proof. unfold collecting. simpl. repeat split; auto. lia. Qed.

Lemma collecting_step k g0 seen c row :
  collecting k g0 seen c ->
  exists c', collect_row k c row = inr c' /\ collecting k g0 (seen ++ [row]) c'.
Proof.
  intros [T I].
  assert (Cs : List.concat (seen ++ [row]) = List.concat seen ++ row)
    by (rewrite concat_app; simpl; rewrite app_nil_r; reflexivity).
  destruct row as [|v row].
  - exists c. split; [reflexivity|]. unfold collecting. rewrite Cs, app_nil_r.
    split; auto. destruct (using_reservoir c); auto.
    destruct I as (D & ? & ?). repeat split; auto.
    rewrite nonempty_rows_app. simpl. rewrite app_nil_r. exact D.
  - unfold collect_row. destruct (using_reservoir c) eqn:U.
    + destruct I as (L & F & K).
      destruct (@offers_run_through k (fun x => In x (List.concat seen ++ v :: row))
                  (v :: row) c U L) as (c' & E & U' & L' & F' & T').
      * eapply Forall_impl; [|exact F]. intros x Hx. apply in_or_app. auto.
      * apply Forall_forall. intros x Hx. apply in_or_app. auto.
      * exists c'. split; [exact E|]. unfold collecting. rewrite U', Cs.
        rewrite length_app. repeat split; auto; lia.
    + destruct I as (D & K & G).
      set (total' := (total c + List.length (v :: row))%nat).
      destruct (Nat.ltb_spec k total') as [Hk|Hk].
      * unfold random_sample.
        assert (Lf : List.length (List.concat (data_numeric c ++ [v :: row])) = total').
        { rewrite D, concat_app, length_app, concat_nonempty_rows. simpl.
          rewrite app_nil_r. unfold total'. simpl. lia. }
        rewrite Lf.
        destruct (Nat.ltb_spec total' k) as [|_]; [lia|]. simpl.
        pose proof (select_length (List.concat (data_numeric c ++ [v :: row])) k (gen c)) as SL.
        pose proof (@select_members (List.concat (data_numeric c ++ [v :: row])) k (gen c)
                      ltac:(lia)) as SM.
        destruct (select _ k (gen c)) as [res g']. simpl in *.
        eexists. split; [reflexivity|]. unfold collecting. simpl.
        rewrite Cs, length_app. unfold total' in *. simpl in *.
        repeat split; auto; try lia.
        eapply Forall_impl; [|exact SM]. intros x Hx.
        rewrite D, concat_app, concat_nonempty_rows in Hx. simpl in Hx.
        rewrite app_nil_r in Hx. exact Hx.
      * eexists. split; [reflexivity|]. unfold collecting. simpl.
        rewrite Cs, length_app. unfold total' in *. simpl in *.
        repeat split; auto; try lia.
        rewrite nonempty_rows_app, D. reflexivity.
Qed.

Lemma collecting_run k g0 rows : forall seen c,
  collecting k g0 seen c ->
  exists c', foldM (collect_row k) rows c = inr c' /\ collecting k g0 (seen ++ rows) c'.
Proof.
  induction rows as [|row rows IH]; intros seen c I.
  - exists c. rewrite app_nil_r. split; auto.
  - destruct (@collecting_step k g0 seen c row I) as (c1 & E1 & I1).
    destruct (IH _ _ I1) as (c' & E' & I').
    exists c'. rewrite foldM_cons, E1. simpl.
    rewrite <- app_assoc in I'. simpl in I'. split; auto.
Qed.

End SamplingFacts.

Section SamplingProperties.

Import Step7FinalCalculation Step1Sampling.

(** X5.  [_collect_with_sampling] never raises, whatever the rows, the
    bound [max_points] and the random draws: the reservoir slot it writes
    always exists and the initial sample never asks for more values than
    there are.  When the rows hold at most [max_points] values it returns
    the non-empty rows unchanged and in order and draws no random number.
    When they hold more, it returns exactly [max_points] rows of one value
    each, and every such value occurs in the input. *)
Theorem collect_with_sampling_bounded (row_iter : list (list Q)) (max_points : nat) (g : rng) :
  exists out g', _collect_with_sampling row_iter max_points g = inr (out, g') /\
    if (List.length (List.concat row_iter) <=? max_points)%nat
    then out = nonempty_rows row_iter /\ g' = g
    else List.length out = max_points /\
         Forall (fun r => exists x, r = [x] /\ In x (List.concat row_iter)) out.
Proof.
  destruct (@collecting_run max_points g row_iter [] _ (collecting_start max_points g))
    as (c & E & T & I).
  simpl in T, I. unfold _collect_with_sampling. rewrite E. simpl.
  destruct (using_reservoir c).
  - destruct I as (L & F & K).
    eexists _, _. split; [reflexivity|].
    destruct (Nat.leb_spec (List.length (List.concat row_iter)) max_points); [lia|].
    split; [rewrite length_map; exact L|].
    apply Forall_map. eapply Forall_impl; [|exact F].
    intros x Hx. exists x. auto.
  - destruct I as (D & K & G).
    eexists _, _. split; [reflexivity|].
    destruct (Nat.leb_spec (List.length (List.concat row_iter)) max_points); [|lia].
    auto.
Qed.

End SamplingProperties.

(* ------------------------------------------------------------------ *)
(** ** What each bin holds (step3_bin_process) *)
(* ------------------------------------------------------------------ *)

Section BinContentFacts.

Import Step3BinProcess Step3BinContents.

Lemma valid_interval_cut (lower upper : Q) (x : nat * Q * Q) :
  (if Qeq_bool lower 0 || Qeq_bool upper 0 then []
   else if Qle_bool upper lower then [] else [x]) =
  if cut lower upper then [x] else [].
Proof.
  unfold cut. destruct (Qeq_bool lower 0 || Qeq_bool upper 0); simpl; auto.
  destruct (Qle_bool upper lower); auto.
Qed.

Lemma cut_spec (lower upper : Q) :
  cut lower upper = true <-> ~ lower == 0 /\ ~ upper == 0 /\ lower < upper.
Proof.
  unfold cut. rewrite andb_true_iff, !negb_true_iff, orb_false_iff.
  split.
  - intros [[E1 E2] E3]. repeat split.
    + intro H. apply Qeq_bool_iff in H. congruence.
    + intro H. apply Qeq_bool_iff in H. congruence.
    + apply Qle_bool_false. exact E3.
  - intros (H1 & H2 & H3). repeat split.
    + destruct (Qeq_bool lower 0) eqn:E; auto. apply Qeq_bool_iff in E. tauto.
    + destruct (Qeq_bool upper 0) eqn:E; auto. apply Qeq_bool_iff in E. tauto.
    + destruct (Qle_bool upper lower) eqn:E; auto. apply Qle_bool_iff in E. lra.
Qed.

Lemma five_nodes (node_vals : list Q) :
  List.length node_vals = 5%nat ->
  exists n1 n2 n3 n4 n5, node_vals = [n1; n2; n3; n4; n5].
Proof.
  destruct node_vals as [|n1 [|n2 [|n3 [|n4 [|n5 [|]]]]]]; try discriminate.
  intros _. eauto 6.
Qed.

Lemma valid_intervals_of_five (n1 n2 n3 n4 n5 : Q) :
  _get_valid_intervals [n1; n2; n3; n4; n5] =
  (if cut n1 n2 then [(1%nat, n1, n2)] else []) ++
  (if cut n2 n3 then [(2%nat, n2, n3)] else []) ++
  (if cut n3 n4 then [(3%nat, n3, n4)] else []) ++
  (if cut n4 n5 then [(4%nat, n4, n5)] else []).
Proof.
  unfold _get_valid_intervals. cbn [flat_map seq nth Nat.add app].
  rewrite !valid_interval_cut, app_nil_r. reflexivity.
Qed.

(** The four frames [_cut_into_bins] returns for five nodes. *)
Lemma cut_into_bins_frames (df : list (option Q)) (n1 n2 n3 n4 n5 : Q) :
  exists un,
    _cut_into_bins df [n1; n2; n3; n4; n5] =
    ret ([if cut n1 n2 then rows_between df n1 n2 else [];
          if cut n2 n3 then rows_between df n2 n3 else [];
          if cut n3 n4 then rows_between df n3 n4 else [];
          if cut n4 n5 then rows_between df n4 n5 else []], un) /\
    forall v, In v un <->
      In v df /\
      (cut n1 n2 = true -> in_interval v n1 n2 = false) /\
      (cut n2 n3 = true -> in_interval v n2 n3 = false) /\
      (cut n3 n4 = true -> in_interval v n3 n4 = false) /\
      (cut n4 n5 = true -> in_interval v n4 n5 = false).
Proof.
  unfold _cut_into_bins. cbn [List.length Nat.eqb negb].
  rewrite valid_intervals_of_five.
  eexists. split.
  - unfold ret. f_equal. f_equal. unfold fill_bins, rows_between.
    destruct (cut n1 n2), (cut n2 n3), (cut n3 n4), (cut n4 n5); reflexivity.
  - intros v. unfold unassigned. rewrite filter_In.
    destruct (cut n1 n2), (cut n2 n3), (cut n3 n4), (cut n4 n5);
      cbn [app fold_left orb];
      destruct (in_interval v n1 n2), (in_interval v n2 n3),
               (in_interval v n3 n4), (in_interval v n4 n5);
      cbn [orb negb]; intuition congruence.
Qed.

End BinContentFacts.

Section BinValidationFacts.

Import Step3BinProcess Step3BinContents.

Lemma Qeq_bool_zero (x : Q) : Qeq_bool x 0 = true -> x == 0.
Proof. apply Qeq_bool_iff. Qed.

(** A validated node row: its non-zero nodes increase from left to
    right. *)
Lemma validated_nodes_increase (n1 n2 n3 n4 n5 : Q) (i j : nat) :
  _validate_node_row [n1; n2; n3; n4; n5] = ret tt ->
  (i < j < 5)%nat ->
  ~ nth i [n1; n2; n3; n4; n5] 0 == 0 ->
  ~ nth j [n1; n2; n3; n4; n5] 0 == 0 ->
  nth i [n1; n2; n3; n4; n5] 0 < nth j [n1; n2; n3; n4; n5] 0.
Proof.
  intros V Hij Hi Hj.
  unfold _validate_node_row, non_zero_indices in V.
  cbn [List.length Nat.eqb negb seq filter nth] in V.
  destruct (Qeq_bool n1 0) eqn:E1, (Qeq_bool n2 0) eqn:E2, (Qeq_bool n3 0) eqn:E3,
           (Qeq_bool n4 0) eqn:E4, (Qeq_bool n5 0) eqn:E5;
    cbn [negb last Nat.add Nat.sub seq existsb nth orb map List.length Nat.ltb Nat.leb
         andb strictly_increasing] in V;
    rewrite ?E1, ?E2, ?E3, ?E4, ?E5 in V;
    cbn [orb andb negb] in V;
    try discriminate V;
    repeat match type of V with
    | context [Qltb ?a ?b] =>
        let E := fresh "L" in destruct (Qltb a b) eqn:E; cbn [andb negb] in V;
        [apply Qltb_lt in E | discriminate V]
    end;
    repeat match goal with
    | E : Qeq_bool _ 0 = true |- _ => apply Qeq_bool_zero in E
    end;
    destruct i as [|[|[|[|[|i]]]]]; destruct j as [|[|[|[|[|j]]]]];
    cbn [nth] in *; try lia; try tauto; try lra.
Qed.

End BinValidationFacts.

Section BinContentProperties.

Import Step3BinProcess Step3BinContents.

Lemma in_interval_bounds (x lower upper : Q) :
  in_interval (Some x) lower upper = true <->
  lower - tolerance < x /\ x <= upper + tolerance.
Proof.
  unfold in_interval, is_gt, is_le. rewrite andb_true_iff.
  split; intros [A B]; split.
  - apply Qgtb_lt. exact A.
  - apply Qle_bool_iff. exact B.
  - apply Qgtb_lt. exact A.
  - apply Qle_bool_iff. exact B.
Qed.

Lemma frame_of_cut (df : list (option Q)) (lower upper : Q) (v : option Q) :
  In v (if cut lower upper then rows_between df lower upper else []) <->
  cut lower upper = true /\ In v df /\ in_interval v lower upper = true.
Proof.
  destruct (cut lower upper).
  - unfold rows_between. rewrite filter_In. tauto.
  - simpl. split; [tauto|]. intros [H _]. discriminate H.
Qed.

(** X6.  [_cut_into_bins] on five nodes never raises and returns four
    frames.  Frame [b] (counted from 0) is empty when node [b] or node
    [b+1] is zero or the two do not increase; otherwise it holds, in their
    original order, exactly the rows whose value passes both comparisons
    with tolerance against node [b] and node [b+1].  A row is reported
    unassigned exactly when it is in none of the four frames, and a row
    whose value is not a number is always unassigned. *)
Theorem cut_into_bins_contents (df : list (option Q)) (node_vals : list Q) :
  List.length node_vals = 5%nat ->
  exists bins un,
    _cut_into_bins df node_vals = ret (bins, un) /\
    List.length bins = 4%nat /\
    (forall b, (b < 4)%nat ->
       let lower := nth b node_vals 0 in
       let upper := nth (b + 1) node_vals 0 in
       (~ lower == 0 -> ~ upper == 0 -> lower < upper ->
        nth b bins [] = filter (fun v => is_gt v lower && is_le v upper) df) /\
       (lower == 0 \/ upper == 0 \/ upper <= lower -> nth b bins [] = [])) /\
    (forall v, In v un <->
       In v df /\ forall b, (b < 4)%nat -> ~ In v (nth b bins [])) /\
    (In None df -> In None un).
Proof.
  intros L. destruct (five_nodes node_vals L) as (n1 & n2 & n3 & n4 & n5 & ->).
  destruct (cut_into_bins_frames df n1 n2 n3 n4 n5) as (un & E & U).
  eexists _, un. split; [exact E|]. split; [reflexivity|].
  assert (C : forall lower upper,
             (~ lower == 0 -> ~ upper == 0 -> lower < upper -> cut lower upper = true) /\
             (lower == 0 \/ upper == 0 \/ upper <= lower -> cut lower upper = false)).
  { intros lower upper. split.
    - intros. apply cut_spec. tauto.
    - intros H. destruct (cut lower upper) eqn:Ec; auto.
      apply cut_spec in Ec. destruct Ec as (A & B & D).
      destruct H as [H|[H|H]]; [tauto|tauto|lra]. }
  split; [|split].
  - intros b Hb lower upper. subst lower upper.
    destruct b as [|[|[|[|b]]]]; try lia; cbn [nth Nat.add]; split.
    all: try (intros A B D; rewrite (proj1 (C _ _) A B D); reflexivity).
    all: intros H; rewrite (proj2 (C _ _) H); reflexivity.
  - intros v. rewrite U. split.
    + intros (Hv & H1 & H2 & H3 & H4). split; [exact Hv|].
      intros b Hb Hin.
      destruct b as [|[|[|[|b]]]]; try lia; cbn [nth] in Hin;
        apply frame_of_cut in Hin; destruct Hin as (Ec & _ & Ei).
      * rewrite (H1 Ec) in Ei. discriminate.
      * rewrite (H2 Ec) in Ei. discriminate.
      * rewrite (H3 Ec) in Ei. discriminate.
      * rewrite (H4 Ec) in Ei. discriminate.
    + intros (Hv & H). split; [exact Hv|].
      repeat split; intros Ec.
      * destruct (in_interval v n1 n2) eqn:Ei; auto.
        exfalso. apply (H 0%nat ltac:(lia)). cbn [nth]. apply frame_of_cut. auto.
      * destruct (in_interval v n2 n3) eqn:Ei; auto.
        exfalso. apply (H 1%nat ltac:(lia)). cbn [nth]. apply frame_of_cut. auto.
      * destruct (in_interval v n3 n4) eqn:Ei; auto.
        exfalso. apply (H 2%nat ltac:(lia)). cbn [nth]. apply frame_of_cut. auto.
      * destruct (in_interval v n4 n5) eqn:Ei; auto.
        exfalso. apply (H 3%nat ltac:(lia)). cbn [nth]. apply frame_of_cut. auto.
  - intros Hn. apply U. split; [exact Hn|]. repeat split; reflexivity.
Qed.

Lemma cut_into_bins_contents_witness :
  exists bins un,
    _cut_into_bins [Some (5#2); None; Some 9] [1; 2; 3; 0; 0] = ret (bins, un) /\
    List.length bins = 4%nat /\
    (forall b, (b < 4)%nat ->
       let lower := nth b [1; 2; 3; 0; 0] 0 in
       let upper := nth (b + 1) [1; 2; 3; 0; 0] 0 in
       (~ lower == 0 -> ~ upper == 0 -> lower < upper ->
        nth b bins [] =
        filter (fun v => is_gt v lower && is_le v upper) [Some (5#2); None; Some 9]) /\
       (lower == 0 \/ upper == 0 \/ upper <= lower -> nth b bins [] = [])) /\
    (forall v, In v un <->
       In v [Some (5#2); None; Some 9] /\ forall b, (b < 4)%nat -> ~ In v (nth b bins [])) /\
    (In None [Some (5#2); None; Some 9] -> In None un).
Proof.
  exact (cut_into_bins_contents [Some (5#2); None; Some 9] [1; 2; 3; 0; 0] eq_refl).
Defined.

Lemma two_frames_near_node
  (df : list (option Q)) (node_vals : list Q) (bins : list (list (option Q)))
  (un : list (option Q)) (a b : nat) (x : Q) :
  _validate_node_row node_vals = ret tt ->
  _cut_into_bins df node_vals = ret (bins, un) ->
  (a < b < 4)%nat ->
  In (Some x) (nth a bins []) ->
  In (Some x) (nth b bins []) ->
  nth (a + 1) node_vals 0 <= nth b node_vals 0 /\
  Qabs (x - nth (a + 1) node_vals 0) <= tolerance /\
  Qabs (x - nth b node_vals 0) <= tolerance.
Proof.
  intros V E Hab Ia Ib.
  assert (L : List.length node_vals = 5%nat).
  { unfold _validate_node_row in V.
    destruct (Nat.eqb_spec (List.length node_vals) 5); [assumption|discriminate V]. }
  destruct (five_nodes node_vals L) as (n1 & n2 & n3 & n4 & n5 & ->).
  destruct (cut_into_bins_frames df n1 n2 n3 n4 n5) as (un' & E' & _).
  rewrite E' in E. injection E as <- _.
  pose proof (fun i j => @validated_nodes_increase n1 n2 n3 n4 n5 i j V) as Inc.
  assert (G : forall lo up lo' up',
             cut lo up = true -> cut lo' up' = true -> up <= lo' ->
             in_interval (Some x) lo up = true -> in_interval (Some x) lo' up' = true ->
             up <= lo' /\ Qabs (x - up) <= tolerance /\ Qabs (x - lo') <= tolerance).
  { intros lo up lo' up' C1 C2 Hle I1 I2.
    apply cut_spec in C1. apply cut_spec in C2.
    apply in_interval_bounds in I1. apply in_interval_bounds in I2.
    unfold tolerance in *.
    split; [exact Hle|]. split; apply Qabs_Qle_condition; lra. }
  destruct a as [|[|[|a]]]; destruct b as [|[|[|[|b]]]]; try lia;
    cbn [nth Nat.add] in *;
    apply frame_of_cut in Ia; apply frame_of_cut in Ib;
    destruct Ia as (Ca & _ & Ia); destruct Ib as (Cb & _ & Ib);
    (eapply G; [exact Ca|exact Cb| |exact Ia|exact Ib]);
    try apply Qle_refl;
    pose proof (proj1 (cut_spec _ _) Ca) as (? & ? & ?);
    pose proof (proj1 (cut_spec _ _) Cb) as (? & ? & ?).
  - apply Qlt_le_weak. apply (Inc 1%nat 2%nat); cbn [nth]; auto; lia.
  - apply Qlt_le_weak. apply (Inc 1%nat 3%nat); cbn [nth]; auto; lia.
  - apply Qlt_le_weak. apply (Inc 2%nat 3%nat); cbn [nth]; auto; lia.
Qed.

(** X7.  After [_validate_node_row] has accepted the five nodes, a value is
    copied into two different frames [a < b] only when it lies within the
    tolerance 1e-10 of node [a+1] and of node [b], the nodes that close the
    first interval and open the second (and node [a+1] is not above node
    [b]).  So a value farther than 1e-10 from every node is in at most one
    frame. *)
Theorem value_in_two_bins_is_near_a_node
  (df : list (option Q)) (node_vals : list Q) (bins : list (list (option Q)))
  (un : list (option Q)) (a b : nat) (x : Q) :
  _validate_node_row node_vals = ret tt ->
  _cut_into_bins df node_vals = ret (bins, un) ->
  (a < b < 4)%nat ->
  In (Some x) (nth a bins []) ->
  In (Some x) (nth b bins []) ->
  nth (a + 1) node_vals 0 <= nth b node_vals 0 /\
  Qabs (x - nth (a + 1) node_vals 0) <= tolerance /\
  Qabs (x - nth b node_vals 0) <= tolerance.
Proof. apply two_frames_near_node. Qed.

Lemma value_in_two_bins_is_near_a_node_witness :
  nth (0 + 1) [1; 2; 3; 0; 0] 0 <= nth 1 [1; 2; 3; 0; 0] 0 /\
  Qabs (2 - nth (0 + 1) [1; 2; 3; 0; 0] 0) <= tolerance /\
  Qabs (2 - nth 1 [1; 2; 3; 0; 0] 0) <= tolerance.
Proof.
  apply (@value_in_two_bins_is_near_a_node [Some 2] [1; 2; 3; 0; 0]
           [[Some 2]; [Some 2]; []; []] [] 0%nat 1%nat 2).
  - reflexivity.
  - reflexivity.
  - lia.
  - simpl. auto.
  - simpl. auto.
Defined.

End BinContentProperties.

Section BinConservationFacts.

Import Step3BinProcess Step3BinContents.

(** Four tests of which at most one holds on every row split the rows:
    the four selections and the rest have the rows between them. *)
Lemma disjoint_filters {A} (p1 p2 p3 p4 : A -> bool) (l : list A) :
  (List.length l
   <= List.length (filter p1 l) + List.length (filter p2 l) + List.length (filter p3 l)
      + List.length (filter p4 l)
      + List.length (filter (fun v => negb (p1 v || p2 v || p3 v || p4 v)) l))%nat /\
  ((forall v, In v l ->
      (p1 v = true -> p2 v = false /\ p3 v = false /\ p4 v = false) /\
      (p2 v = true -> p3 v = false /\ p4 v = false) /\
      (p3 v = true -> p4 v = false)) ->
   (List.length (filter p1 l) + List.length (filter p2 l) + List.length (filter p3 l)
    + List.length (filter p4 l)
    + List.length (filter (fun v => negb (p1 v || p2 v || p3 v || p4 v)) l)
    = List.length l)%nat).
Proof.
  induction l as [|v l [IH1 IH2]]; [split; [simpl; lia|reflexivity]|].
  split.
  - cbn [filter List.length].
    destruct (p1 v), (p2 v), (p3 v), (p4 v); cbn [orb negb List.length]; lia.
  - intros D.
    assert (IH : forall v, In v l ->
               (p1 v = true -> p2 v = false /\ p3 v = false /\ p4 v = false) /\
               (p2 v = true -> p3 v = false /\ p4 v = false) /\
               (p3 v = true -> p4 v = false)).
    { intros w Hw. apply D. right. exact Hw. }
    specialize (IH2 IH). destruct (D v (or_introl eq_refl)) as (D1 & D2 & D3).
    cbn [filter List.length].
    destruct (p1 v) eqn:E1.
    { destruct (D1 eq_refl) as (-> & -> & ->). cbn [orb negb List.length]. lia. }
    destruct (p2 v) eqn:E2.
    { destruct (D2 eq_refl) as (-> & ->). cbn [orb negb List.length]. lia. }
    destruct (p3 v) eqn:E3.
    { rewrite (D3 eq_refl). cbn [orb negb List.length]. lia. }
    destruct (p4 v); cbn [orb negb List.length]; lia.
Qed.

(** The frames and the unassigned rows as selections of the rows. *)
Lemma frames_as_filters (df : list (option Q)) (n1 n2 n3 n4 n5 : Q) :
  _cut_into_bins df [n1; n2; n3; n4; n5]
  = ret ([filter (fun v => cut n1 n2 && in_interval v n1 n2) df;
          filter (fun v => cut n2 n3 && in_interval v n2 n3) df;
          filter (fun v => cut n3 n4 && in_interval v n3 n4) df;
          filter (fun v => cut n4 n5 && in_interval v n4 n5) df],
         filter (fun v => negb (cut n1 n2 && in_interval v n1 n2
                                || cut n2 n3 && in_interval v n2 n3
                                || cut n3 n4 && in_interval v n3 n4
                                || cut n4 n5 && in_interval v n4 n5)) df).
Proof.
  unfold _cut_into_bins. cbn [List.length Nat.eqb negb].
  rewrite valid_intervals_of_five. unfold ret. f_equal.
  assert (F0 : filter (fun _ : option Q => false) df = []).
  { clear. induction df; simpl; auto. }
  f_equal.
  - unfold fill_bins.
    destruct (cut n1 n2), (cut n2 n3), (cut n3 n4), (cut n4 n5);
      cbn [app fold_left set_slice firstn skipn Nat.sub andb];
      rewrite ?F0; reflexivity.
  - unfold unassigned. apply filter_ext. intros v.
    destruct (cut n1 n2), (cut n2 n3), (cut n3 n4), (cut n4 n5);
      cbn [app fold_left andb orb];
      destruct (in_interval v n1 n2), (in_interval v n2 n3),
               (in_interval v n3 n4), (in_interval v n4 n5); reflexivity.
Qed.

End BinConservationFacts.

Section BinConservationProperties.

Import Step3BinProcess Step3BinContents.

(** X22.  [_cut_into_bins] loses no row: the four frames and the rows
    counted as unassigned hold at least as many rows as the input.  They
    hold exactly as many, so that every row is in one frame or unassigned
    and in nothing else, when the nodes were accepted by
    [_validate_node_row] and no value lies within the tolerance 1e-10 of a
    non-zero node. *)
Theorem rows_conserved_away_from_nodes
  (df : list (option Q)) (node_vals : list Q) (bins : list (list (option Q)))
  (un : list (option Q)) :
  _cut_into_bins df node_vals = ret (bins, un) ->
  (List.length df <= List.length (List.concat bins) + List.length un)%nat /\
  (_validate_node_row node_vals = ret tt ->
   (forall x i, In (Some x) df -> (i < 5)%nat -> ~ nth i node_vals 0 == 0 ->
                tolerance < Qabs (x - nth i node_vals 0)) ->
   (List.length (List.concat bins) + List.length un = List.length df)%nat).
Proof.
  intros E.
  assert (L : List.length node_vals = 5%nat).
  { unfold _cut_into_bins in E.
    destruct (Nat.eqb_spec (List.length node_vals) 5); [assumption|discriminate E]. }
  destruct (five_nodes node_vals L) as (n1 & n2 & n3 & n4 & n5 & ->).
  rewrite frames_as_filters in E. injection E as <- <-.
  pose proof (frames_as_filters df n1 n2 n3 n4 n5) as E0.
  cbn [List.concat]. rewrite app_nil_r, !length_app.
  destruct (disjoint_filters
              (fun v => cut n1 n2 && in_interval v n1 n2)
              (fun v => cut n2 n3 && in_interval v n2 n3)
              (fun v => cut n3 n4 && in_interval v n3 n4)
              (fun v => cut n4 n5 && in_interval v n4 n5) df) as [Ge Eq].
  split; [lia|].
  intros V Far.
  rewrite <- Eq; [lia|].
  assert (No : forall a b v, (a < b < 4)%nat -> In v df ->
             cut (nth a [n1; n2; n3; n4; n5] 0) (nth (a + 1) [n1; n2; n3; n4; n5] 0)
             && in_interval v (nth a [n1; n2; n3; n4; n5] 0)
                              (nth (a + 1) [n1; n2; n3; n4; n5] 0) = true ->
             cut (nth b [n1; n2; n3; n4; n5] 0) (nth (b + 1) [n1; n2; n3; n4; n5] 0)
             && in_interval v (nth b [n1; n2; n3; n4; n5] 0)
                              (nth (b + 1) [n1; n2; n3; n4; n5] 0) = false).
  { intros a b v Hab Hv Pa.
    destruct (cut (nth b [n1; n2; n3; n4; n5] 0) (nth (b + 1) [n1; n2; n3; n4; n5] 0)
              && in_interval v (nth b [n1; n2; n3; n4; n5] 0)
                               (nth (b + 1) [n1; n2; n3; n4; n5] 0)) eqn:Pb; [|reflexivity].
    exfalso.
    destruct v as [x|].
    2:{ apply andb_true_iff in Pa. destruct Pa as [_ Pa]. discriminate Pa. }
    assert (Ia : In (Some x) (nth a [filter (fun v => cut n1 n2 && in_interval v n1 n2) df;
                                     filter (fun v => cut n2 n3 && in_interval v n2 n3) df;
                                     filter (fun v => cut n3 n4 && in_interval v n3 n4) df;
                                     filter (fun v => cut n4 n5 && in_interval v n4 n5) df] [])).
    { destruct a as [|[|[|[|a]]]]; try lia; cbn [nth Nat.add] in *;
        apply filter_In; split; assumption. }
    assert (Ib : In (Some x) (nth b [filter (fun v => cut n1 n2 && in_interval v n1 n2) df;
                                     filter (fun v => cut n2 n3 && in_interval v n2 n3) df;
                                     filter (fun v => cut n3 n4 && in_interval v n3 n4) df;
                                     filter (fun v => cut n4 n5 && in_interval v n4 n5) df] [])).
    { destruct b as [|[|[|[|b]]]]; try lia; cbn [nth Nat.add] in *;
        apply filter_In; split; assumption. }
    destruct (@two_frames_near_node _ _ _ _ a b x V E0 Hab Ia Ib) as (_ & Near & _).
    apply andb_true_iff in Pa. destruct Pa as [Ca _].
    apply cut_spec in Ca. destruct Ca as (_ & NZ & _).
    specialize (Far x (a + 1)%nat Hv ltac:(lia) NZ).
    lra. }
  intros v Hv.
  split; [|split].
  - intros P1. repeat split.
    + apply (No 0%nat 1%nat v ltac:(lia) Hv P1).
    + apply (No 0%nat 2%nat v ltac:(lia) Hv P1).
    + apply (No 0%nat 3%nat v ltac:(lia) Hv P1).
  - intros P2. split.
    + apply (No 1%nat 2%nat v ltac:(lia) Hv P2).
    + apply (No 1%nat 3%nat v ltac:(lia) Hv P2).
  - intros P3. apply (No 2%nat 3%nat v ltac:(lia) Hv P3).
Qed.

Lemma rows_conserved_away_from_nodes_witness :
  let df := [Some (5#2); None; Some 9; Some (3#2)] in
  let bins := [[Some (3#2)]; [Some (5#2)]; []; []] in
  let un := [None; Some 9] in
  (List.length df <= List.length (List.concat bins) + List.length un)%nat /\
  (_validate_node_row [1; 2; 3; 0; 0] = ret tt ->
   (forall x i, In (Some x) df -> (i < 5)%nat ->
                ~ nth i [1; 2; 3; 0; 0] 0 == 0 ->
                tolerance < Qabs (x - nth i [1; 2; 3; 0; 0] 0)) ->
   (List.length (List.concat bins) + List.length un = List.length df)%nat).
Proof.
  intros df bins un.
  apply (@rows_conserved_away_from_nodes df [1; 2; 3; 0; 0] bins un).
  reflexivity.
Defined.

End BinConservationProperties.

(* ------------------------------------------------------------------ *)
(** ** The labels and the bins (step3_bin_range, step3_bin_process) *)
(* ------------------------------------------------------------------ *)

Section RangeLabelFacts.

Import Step3BinProcess Step3BinContents Step3BinRange.

Lemma row_ranges_length (row : list cell) : List.length (row_ranges row) = 4%nat.
Proof. reflexivity. Qed.

Lemma flat_map_nth4 {A B} (f : A -> list B) (l : list A) (d : B) (a0 : A) :
  (forall a, List.length (f a) = 4%nat) ->
  List.length (flat_map f l) = (4 * List.length l)%nat /\
  forall r i, (r < List.length l)%nat -> (i < 4)%nat ->
    nth (4 * r + i) (flat_map f l) d = nth i (f (nth r l a0)) d.
Proof.
  intros H4. induction l as [|a l [IHl IHn]].
  - split; [reflexivity|]. intros r i Hr. simpl in Hr. lia.
  - split.
    + cbn [flat_map List.length]. rewrite length_app, H4, IHl. lia.
    + intros r i Hr Hi. cbn [flat_map]. destruct r as [|r].
      * rewrite app_nth1 by (rewrite H4; lia). reflexivity.
      * rewrite app_nth2 by (rewrite H4; lia). rewrite H4.
        replace (4 * S r + i - 4)%nat with (4 * r + i)%nat by lia.
        cbn [nth]. apply IHn; [simpl in Hr; lia|exact Hi].
Qed.

Lemma row_ranges_of_numbers (n1 n2 n3 n4 n5 : Q) :
  row_ranges (map Number [n1; n2; n3; n4; n5])
  = [if Qeq_bool n1 0 || Qeq_bool n2 0 then Dash else Range n1 n2;
     if Qeq_bool n2 0 || Qeq_bool n3 0 then Dash else Range n2 n3;
     if Qeq_bool n3 0 || Qeq_bool n4 0 then Dash else Range n3 n4;
     if Qeq_bool n4 0 || Qeq_bool n5 0 then Dash else Range n4 n5].
Proof. reflexivity. Qed.

End RangeLabelFacts.

Section RangeLabelProperties.

Import Step3BinProcess Step3BinContents Step3BinRange.

Lemma label_and_frame (df : list (option Q)) (lo up : Q) :
  (~ lo == 0 -> ~ up == 0 -> lo < up) ->
  match (if Qeq_bool lo 0 || Qeq_bool up 0 then Dash else Range lo up) with
  | Dash =>
      (lo == 0 \/ up == 0) /\
      (if cut lo up then rows_between df lo up else []) = []
  | Range l u =>
      l = lo /\ u = up /\ l < u /\
      (if cut lo up then rows_between df lo up else [])
      = filter (fun v => is_gt v l && is_le v u) df
  end.
Proof.
  intros Inc. unfold cut.
  destruct (Qeq_bool lo 0) eqn:E1; cbn [orb negb andb].
  - split; [left; apply Qeq_bool_iff; exact E1|reflexivity].
  - destruct (Qeq_bool up 0) eqn:E2; cbn [orb negb andb].
    + split; [right; apply Qeq_bool_iff; exact E2|reflexivity].
    + assert (L : lo < up).
      { apply Inc; intro Z; apply Qeq_bool_iff in Z; congruence. }
      replace (Qle_bool up lo) with false by (symmetry; apply Qle_bool_false; exact L).
      repeat split. exact L.
Qed.

(** X20.  The labels written by [generate_bin_ranges] describe the bins
    cut by [_cut_into_bins].  The row of labels holds four labels per row
    of the node file, in order.  For a row of five numeric nodes accepted
    by [_validate_node_row], label [i] of that row is [-] exactly when
    node [i] or node [i+1] is zero, and then bin [i] is empty; otherwise
    the label names the two nodes, these increase, and bin [i] holds
    exactly the rows whose value passes the two comparisons with tolerance
    against the two nodes named. *)
Theorem range_labels_describe_bins
  (nodes_data : list (list cell)) (r : nat) (node_vals : list Q)
  (df : list (option Q)) (bins : list (list (option Q))) (un : list (option Q)) :
  nth_error nodes_data r = Some (map Number node_vals) ->
  _validate_node_row node_vals = ret tt ->
  _cut_into_bins df node_vals = ret (bins, un) ->
  let labels := snd (generate_bin_ranges (Some nodes_data)) in
  List.length labels = (4 * List.length nodes_data)%nat /\
  forall i, (i < 4)%nat ->
    match nth (4 * r + i) labels Dash with
    | Dash =>
        (nth i node_vals 0 == 0 \/ nth (i + 1) node_vals 0 == 0) /\
        nth i bins [] = []
    | Range lower upper =>
        lower = nth i node_vals 0 /\ upper = nth (i + 1) node_vals 0 /\
        lower < upper /\
        nth i bins [] = filter (fun v => is_gt v lower && is_le v upper) df
    end.
Proof.
  intros Hr V E. cbv zeta. cbn [generate_bin_ranges snd].
  destruct (@flat_map_nth4 _ _ row_ranges nodes_data Dash [] row_ranges_length) as [Len Nth].
  split; [exact Len|].
  intros i Hi.
  assert (Rlt : (r < List.length nodes_data)%nat).
  { apply nth_error_Some. congruence. }
  rewrite (Nth r i Rlt Hi), (nth_error_nth _ _ [] Hr).
  assert (L : List.length node_vals = 5%nat).
  { unfold _validate_node_row in V.
    destruct (Nat.eqb_spec (List.length node_vals) 5); [assumption|discriminate V]. }
  destruct (five_nodes node_vals L) as (n1 & n2 & n3 & n4 & n5 & ->).
  destruct (cut_into_bins_frames df n1 n2 n3 n4 n5) as (un' & E' & _).
  rewrite E' in E. injection E as <- _.
  rewrite row_ranges_of_numbers.
  pose proof (fun i j => @validated_nodes_increase n1 n2 n3 n4 n5 i j V) as Inc.
  destruct i as [|[|[|[|i]]]]; try lia; cbn [nth Nat.add]; apply label_and_frame.
  - intros A B. apply (Inc 0%nat 1%nat); cbn [nth]; auto; lia.
  - intros A B. apply (Inc 1%nat 2%nat); cbn [nth]; auto; lia.
  - intros A B. apply (Inc 2%nat 3%nat); cbn [nth]; auto; lia.
  - intros A B. apply (Inc 3%nat 4%nat); cbn [nth]; auto; lia.
Qed.

Lemma range_labels_describe_bins_witness :
  let nodes_data := [[Number 0; Number 0; Number 0; Number 0; Number 0];
                     [Number 0; Number (27#10); Number 3; Number (16#5); Number 0]] in
  let df := [Some (29#10); None; Some (31#10); Some 3] in
  let bins := fst (match _cut_into_bins df [0; 27#10; 3; 16#5; 0] with
                   | inr x => x
                   | inl _ => ([], [])
                   end) in
  let labels := snd (generate_bin_ranges (Some nodes_data)) in
  List.length labels = (4 * List.length nodes_data)%nat /\
  forall i, (i < 4)%nat ->
    match nth (4 * 1 + i) labels Dash with
    | Dash =>
        (nth i [0; 27#10; 3; 16#5; 0] 0 == 0 \/ nth (i + 1) [0; 27#10; 3; 16#5; 0] 0 == 0) /\
        nth i bins [] = []
    | Range lower upper =>
        lower = nth i [0; 27#10; 3; 16#5; 0] 0 /\
        upper = nth (i + 1) [0; 27#10; 3; 16#5; 0] 0 /\
        lower < upper /\
        nth i bins [] = filter (fun v => is_gt v lower && is_le v upper) df
    end.
Proof.
  intros nodes_data df bins.
  apply (@range_labels_describe_bins nodes_data 1 [0; 27#10; 3; 16#5; 0] df bins
           (snd (match _cut_into_bins df [0; 27#10; 3; 16#5; 0] with
                 | inr x => x
                 | inl _ => ([], [])
                 end))).
  - reflexivity.
  - reflexivity.
  - reflexivity.
Defined.

End RangeLabelProperties.

(* ------------------------------------------------------------------ *)
(** ** The check of the node file (step3_validation) *)
(* ------------------------------------------------------------------ *)

Section ValidationFacts.

Import Step3Validation.

Lemma enumerate_In {A} (l : list A) (i : nat) (x : A) :
  In (i, x) (enumerate_from_1 l) <-> (1 <= i)%nat /\ nth_error l (i - 1) = Some x.
Proof.
  unfold enumerate_from_1.
  assert (G : forall start, In (i, x) (combine (seq start (List.length l)) l) <->
                            (start <= i)%nat /\ nth_error l (i - start) = Some x).
  { induction l as [|a l IH]; intros start.
    - simpl. split; [tauto|]. intros [_ H]. destruct (i - start)%nat; discriminate.
    - cbn [List.length seq combine In]. rewrite IH. split.
      + intros [E|[H1 H2]].
        * injection E as <- <-. split; [lia|]. rewrite Nat.sub_diag. reflexivity.
        * split; [lia|]. replace (i - start)%nat with (S (i - S start)) by lia. exact H2.
      + intros [H1 H2]. destruct (Nat.eq_dec i start) as [->|Ne].
        * left. rewrite Nat.sub_diag in H2. injection H2 as <-. reflexivity.
        * right. split; [lia|].
          replace (i - start)%nat with (S (i - S start)) in H2 by lia. exact H2. }
  apply G.
Qed.

Lemma error_messages_In (rows : list (list csv_cell)) (p : problem) :
  In p (error_messages rows) <->
  exists r c value, cell_at rows r c value /\ In p (check_value r c value).
Proof.
  unfold error_messages, cell_at. rewrite in_flat_map. split.
  - intros ([r row] & Hr & Hp). apply in_flat_map in Hp.
    destruct Hp as ([c value] & Hc & Hp).
    apply enumerate_In in Hr. apply enumerate_In in Hc.
    exists r, c, value. split; [|exact Hp].
    split; [tauto|]. split; [tauto|]. exists row. tauto.
  - intros (r & c & value & (H1 & H2 & row & Hr & Hc) & Hp).
    exists (r, row). split; [apply enumerate_In; tauto|].
    apply in_flat_map. exists (c, value). split; [apply enumerate_In; tauto|exact Hp].
Qed.

End ValidationFacts.

Section ValidationProperties.

Import Step3Validation.

Lemma check_value_spec (r c : nat) (value : csv_cell) (p : problem) :
  In p (check_value r c value) <->
  (p = NotANumber r c /\ exists text, value = NotFloat text) \/
  (exists x, p = OutOfRange r c x /\ value = Float x /\
             match x with
             | Finite q => q < 0 \/ 15 <= q
             | Nan => False
             | Inf _ => True
             end).
Proof.
  destruct value as [text|[q| |negative]]; cbn [check_value float_of].
  - split.
    + intros [<-|[]]. left. split; [reflexivity|]. exists text. reflexivity.
    + intros [[-> _]|(x & _ & E & _)]; [left; reflexivity|discriminate].
  - cbn [float_ne float_le float_ge].
    destruct (Qeq_bool q 0) eqn:Z; cbn [negb].
    + apply Qeq_bool_iff in Z. split; [intros []|].
      intros [[_ (text & H)]|(x & _ & E & R)]; [discriminate H|].
      injection E as <-. lra.
    + assert (NZ : ~ q == 0) by (intro H; apply Qeq_bool_iff in H; congruence).
      destruct (Qle_bool q 0) eqn:L0; cbn [orb].
      * apply Qle_bool_iff in L0. split.
        -- intros [<-|[]]. right. exists (Finite q). repeat split. left. lra.
        -- intros [[_ (text & H)]|(x & -> & E & _)]; [discriminate H|].
           injection E as <-. left. reflexivity.
      * apply Qle_bool_false in L0.
        destruct (Qle_bool 15 q) eqn:L15.
        -- apply Qle_bool_iff in L15. split.
           ++ intros [<-|[]]. right. exists (Finite q). repeat split. right. exact L15.
           ++ intros [[_ (text & H)]|(x & -> & E & _)]; [discriminate H|].
              injection E as <-. left. reflexivity.
        -- apply Qle_bool_false in L15. split; [intros []|].
           intros [[_ (text & H)]|(x & _ & E & R)]; [discriminate H|].
           injection E as <-. lra.
  - cbn [float_ne float_le float_ge orb]. split; [intros []|].
    intros [[_ (text & H)]|(x & _ & E & R)]; [discriminate H|].
    injection E as <-. exact R.
  - cbn [float_ne float_le float_ge].
    replace (negative || negb negative) with true by (destruct negative; reflexivity).
    split.
    + intros [<-|[]]. right. exists (Inf negative). repeat split.
    + intros [[_ (text & H)]|(x & -> & E & _)]; [discriminate H|].
      injection E as <-. left. reflexivity.
Qed.

Lemma validate_messages (rows : list (list csv_cell)) :
  snd (validate_csv_file (Some rows)) = error_messages rows /\
  (fst (validate_csv_file (Some rows)) = true <-> error_messages rows = []).
Proof.
  cbn [validate_csv_file]. destruct (error_messages rows); cbn [fst snd].
  - split; [reflexivity|]. tauto.
  - split; [reflexivity|]. split; discriminate.
Qed.

(** A cell the check has nothing to say about, decided. *)
Lemma check_value_silent (r c : nat) (value : csv_cell) :
  check_value r c value = [] <->
  exists x, value = Float x /\
            match x with
            | Finite q => q == 0 \/ (0 < q /\ q < 15)
            | Nan => True
            | Inf _ => False
            end.
Proof.
  split.
  - intro E. destruct value as [text|x].
    + cbn [check_value float_of] in E. discriminate E.
    + exists x. split; [reflexivity|].
      destruct x as [q| |negative].
      * destruct (Qeq_dec q 0) as [Z|NZ]; [left; exact Z|right].
        destruct (Qlt_le_dec q 0) as [Neg|Pos];
          [|destruct (Qlt_le_dec q 15) as [Lt|Ge]; [split; [lra|exact Lt]|]];
          exfalso;
          (assert (I : In (OutOfRange r c (Finite q)) (check_value r c (Float (Finite q))))
            by (apply check_value_spec; right; exists (Finite q); auto));
          rewrite E in I; exact I.
      * exact I.
      * assert (I : In (OutOfRange r c (Inf negative)) (check_value r c (Float (Inf negative))))
          by (apply check_value_spec; right; exists (Inf negative); auto).
        rewrite E in I. exact I.
  - intros (x & -> & P).
    destruct (check_value r c (Float x)) as [|p ps] eqn:E; [reflexivity|].
    exfalso. assert (I : In p (check_value r c (Float x))) by (rewrite E; left; reflexivity).
    apply check_value_spec in I.
    destruct I as [[_ (text & H)]|(x' & _ & Eq & R)]; [discriminate H|].
    injection Eq as <-. destruct x as [q| |negative]; [lra|exact R|exact P].
Qed.

(** X21.  What [validate_csv_file] accepts and what it reports.  A missing
    file is rejected.  Otherwise the file is accepted exactly when
    [float()] accepts every cell and gives zero, a finite number strictly
    between 0 and 15, or NaN (the text [nan] is a float that is neither
    [<= 0] nor [>= 15], so it passes both range tests); the message then
    lists nothing.  A cell is reported as not a number, under its row and
    column counted from 1, exactly when [float()] rejects it (an empty
    cell included), and a cell is reported as out of range, with its
    value, exactly when the value is negative, at least 15, or
    infinite. *)
Theorem validate_csv_file_reports (rows : list (list csv_cell)) :
  validate_csv_file None = (false, []) /\
  let result := validate_csv_file (Some rows) in
  (fst result = true <->
   forall r c value, cell_at rows r c value ->
     exists x, value = Float x /\
               match x with
               | Finite q => q == 0 \/ (0 < q /\ q < 15)
               | Nan => True
               | Inf _ => False
               end) /\
  (fst result = true -> snd result = []) /\
  (forall r c, In (NotANumber r c) (snd result) <->
     exists text, cell_at rows r c (NotFloat text)) /\
  (forall r c x, In (OutOfRange r c x) (snd result) <->
     cell_at rows r c (Float x) /\
     match x with
     | Finite q => q < 0 \/ 15 <= q
     | Nan => False
     | Inf _ => True
     end).
Proof.
  split; [reflexivity|]. cbv zeta.
  destruct (validate_messages rows) as [S F]. rewrite S, F.
  split; [|split; [|split]].
  - split.
    + intros E r c value Hc.
      apply (check_value_silent r c).
      destruct (check_value r c value) as [|p ps] eqn:Ev; [reflexivity|].
      exfalso. assert (I : In p (error_messages rows)).
      { apply error_messages_In. exists r, c, value. split; [exact Hc|].
        rewrite Ev. left. reflexivity. }
      rewrite E in I. exact I.
    + intros H. destruct (error_messages rows) as [|p ps] eqn:E; [reflexivity|].
      exfalso. assert (I : In p (error_messages rows)) by (rewrite E; left; reflexivity).
      apply error_messages_In in I. destruct I as (r & c & value & Hc & Hp).
      pose proof (H r c value Hc) as Ok.
      apply (check_value_silent r c) in Ok.
      rewrite Ok in Hp. exact Hp.
  - intros E. exact E.
  - intros r c. rewrite error_messages_In. split.
    + intros (r' & c' & value & Hc & Hp). apply check_value_spec in Hp.
      destruct Hp as [[Eq (text & ->)]|(x & Eq & _)]; [|discriminate].
      injection Eq as <- <-. exists text. exact Hc.
    + intros (text & Hc). exists r, c, (NotFloat text). split; [exact Hc|].
      apply check_value_spec. left. split; [reflexivity|]. exists text. reflexivity.
  - intros r c x. rewrite error_messages_In. split.
    + intros (r' & c' & value & Hc & Hp). apply check_value_spec in Hp.
      destruct Hp as [[Eq _]|(x' & Eq & -> & R)]; [discriminate|].
      injection Eq as <- <- <-. auto.
    + intros [Hc R]. exists r, c, (Float x). split; [exact Hc|].
      apply check_value_spec. right. exists x. auto.
Qed.

(** The file of one row [nan, 3.2, 0, inf]: the NaN cell is not reported,
    the infinity is. *)
Lemma validate_csv_file_nan :
  validate_csv_file (Some [[Float Nan; Float (Finite (32 # 10)); Float (Finite 0)]])
  = (true, []) /\
  validate_csv_file
    (Some [[Float Nan; Float (Finite (32 # 10)); Float (Finite 0); Float (Inf false)]])
  = (false, [OutOfRange 1 4 (Inf false)]).
Proof.
  split; reflexivity.
Qed.

End ValidationProperties.

(* ------------------------------------------------------------------ *)
(** ** The interpolation never fails on data (step5_interpolation_1) *)
(* ------------------------------------------------------------------ *)

Section InterpolationTotalFacts.

Import Step5Interpolation1 Step5Multipliers.

Local Notation "'le_x'" := (fun p q : Q * Q => fst p <= fst q).

Lemma segment_between (x1 y1 x2 y2 t : Q) :
  x1 < t -> t <= x2 ->
  between y1 y2 (y1 + (y2 - y1) * (t - x1) / (x2 - x1)).
Proof.
  intros H1 H2.
  assert (D : 0 < x2 - x1) by lra.
  set (lam := (t - x1) / (x2 - x1)).
  assert (L0 : 0 <= lam).
  { unfold lam. apply Qle_shift_div_l; [exact D|]. lra. }
  assert (L1 : lam <= 1).
  { unfold lam. apply Qle_shift_div_r; [exact D|]. lra. }
  assert (E : y1 + (y2 - y1) * (t - x1) / (x2 - x1) == y1 + (y2 - y1) * lam).
  { unfold lam. field. lra. }
  unfold between. rewrite E.
  destruct (Qlt_le_dec y2 y1) as [Hy|Hy]; [right|left]; split; nra.
Qed.

Lemma last_default {A} (l : list A) (a d d' : A) : last (a :: l) d = last (a :: l) d'.
Proof.
  revert a. induction l as [|b l IH]; intros a; [reflexivity|].
  change (last (b :: l) d = last (b :: l) d'). apply IH.
Qed.

(** Strictly inside the range of the knots the scan finds a bracketing
    pair, divides by a non-zero width, and returns a value between the two
    stored [y] of that pair. *)
Lemma bracket_scan_total (pts : list (Q * Q)) (p : Q * Q) (t : Q) :
  Sorted le_x (p :: pts) ->
  fst p < t -> t < fst (last (p :: pts) p) ->
  exists v a b,
    bracket_scan t (p :: pts) = ret v /\
    In a (p :: pts) /\ In b (p :: pts) /\ between (snd a) (snd b) v.
Proof.
  revert p. induction pts as [|[x2 y2] pts IH]; intros [x1 y1] Srt Hlo Hhi.
  - simpl in *. lra.
  - cbn [fst] in Hlo.
    destruct (Qlt_le_dec x2 t) as [Hx|Hx].
    + assert (Srt' : Sorted le_x ((x2, y2) :: pts)) by (inversion Srt; assumption).
      assert (Hhi' : t < fst (last ((x2, y2) :: pts) (x2, y2))).
      { change (last ((x1, y1) :: (x2, y2) :: pts) (x1, y1))
          with (last ((x2, y2) :: pts) (x1, y1)) in Hhi.
        rewrite (last_default pts (x2, y2) (x1, y1) (x2, y2)) in Hhi.
        exact Hhi. }
      destruct (IH (x2, y2) Srt' Hx Hhi') as (v & a & b & E & Ia & Ib & B).
      exists v, a, b. split; [|split; [right; exact Ia|split; [right; exact Ib|exact B]]].
      cbn [bracket_scan]. cbn [num_le Numeric_Q].
      replace (Qle_bool t x2) with false by (symmetry; apply Qle_bool_false; lra).
      rewrite andb_false_r. exact E.
    + eexists _, (x1, y1), (x2, y2). split; [|split; [left; reflexivity|split]].
      * cbn [bracket_scan]. cbn [num_le num_is_zero num_add num_sub num_mul num_div Numeric_Q].
        replace (Qle_bool x1 t) with true by (symmetry; apply Qle_bool_iff; lra).
        replace (Qle_bool t x2) with true by (symmetry; apply Qle_bool_iff; lra).
        cbn [andb].
        destruct (Qeq_bool (x2 - x1) 0) eqn:Z; [|reflexivity].
        apply Qeq_bool_iff in Z. lra.
      * right. left. reflexivity.
      * cbn [snd]. apply segment_between; assumption.
Qed.

Lemma between_refl (a : Q) : between a a a.
Proof. left. split; apply Qle_refl. Qed.

End InterpolationTotalFacts.

Section InterpolationTotalProperties.

Import Step5Interpolation1 Step5Multipliers.

Local Notation "'le_x'" := (fun p q : Q * Q => fst p <= fst q).

Lemma interpolation_on_data (x_data y_data : list Q) (t : Q) :
  combine x_data y_data <> [] ->
  exists v a b,
    linear_interpolation x_data y_data t = ret v /\
    In a (combine x_data y_data) /\ In b (combine x_data y_data) /\
    between (snd a) (snd b) v.
Proof.
  intros N.
  pose proof (sorted_pairs_sorted x_data y_data) as Srt.
  pose proof (sorted_pairs_perm x_data y_data) as P.
  destruct (sorted_pairs x_data y_data) as [|p rest] eqn:E.
  { apply Permutation_nil in P. contradiction. }
  assert (M : forall a, In a (p :: rest) -> In a (combine x_data y_data)).
  { intros a Ha. eapply Permutation_in; [exact P|exact Ha]. }
  destruct (Qle_bool t (fst p)) eqn:L1.
  - exists (snd p), p, p. split; [|split; [|split]].
    + apply (interpolation_clamps_low x_data y_data t E). exact L1.
    + apply M. left. reflexivity.
    + apply M. left. reflexivity.
    + apply between_refl.
  - destruct (Qle_bool (fst (last (p :: rest) p)) t) eqn:L2.
    + exists (snd (last (p :: rest) p)), (last (p :: rest) p), (last (p :: rest) p).
      assert (Il : In (last (p :: rest) p) (p :: rest)).
      { destruct (exists_last (l := p :: rest) ltac:(discriminate)) as (l' & a & El).
        rewrite El, last_last. apply in_or_app. right. left. reflexivity. }
      split; [|split; [|split]].
      * apply (interpolation_clamps_high x_data y_data t E); assumption.
      * apply M. exact Il.
      * apply M. exact Il.
      * apply between_refl.
    + apply Qle_bool_false in L1. apply Qle_bool_false in L2.
      destruct (@bracket_scan_total rest p t Srt L1 L2) as (v & a & b & Es & Ia & Ib & B).
      exists v, a, b. split; [|split; [|split]]; auto.
      rewrite (interpolation_scans x_data y_data t E); auto.
      * apply Qle_bool_false. exact L1.
      * apply Qle_bool_false. exact L2.
Qed.

(** X8.  In exact arithmetic [linear_interpolation] never fails on data:
    with at least one (x, y) pair, whatever the order of the pairs and
    even with repeated x values, it returns a value (the division is never
    by zero and the fall-through [return 0] is never what decides the
    result) and that value lies between the y values of two of the pairs
    given.  Without any pair it raises [IndexError]. *)
Theorem linear_interpolation_total_and_bounded (x_data y_data : list Q) (t : Q) :
  (combine x_data y_data = [] ->
   linear_interpolation x_data y_data t = raise IndexError) /\
  (combine x_data y_data <> [] ->
   exists v a b,
     linear_interpolation x_data y_data t = ret v /\
     In a (combine x_data y_data) /\ In b (combine x_data y_data) /\
     between (snd a) (snd b) v).
Proof.
  split.
  - intros E. unfold linear_interpolation, sorted_pairs. rewrite E. reflexivity.
  - apply interpolation_on_data.
Qed.

Lemma linear_interpolation_total_and_bounded_witness :
  exists v a b,
    linear_interpolation [3; 1; 3] [7; 2; 5] (5#2) = ret v /\
    In a (combine [3; 1; 3] [7; 2; 5]) /\ In b (combine [3; 1; 3] [7; 2; 5]) /\
    between (snd a) (snd b) v.
Proof.
  apply (proj2 (linear_interpolation_total_and_bounded [3; 1; 3] [7; 2; 5] (5#2))).
  discriminate.
Defined.

End InterpolationTotalProperties.

Section MultiplierFacts.

Import Step5Interpolation1 Step5Multipliers.

Lemma mapM_nth_error {A B} (f : A -> result B) (l : list A) (out : list B) :
  mapM f l = ret out ->
  forall i a, nth_error l i = Some a ->
  exists b, f a = ret b /\ nth_error out i = Some b.
Proof.
  revert out. induction l as [|a0 l IH]; intros out E i a Hi.
  - destruct i; discriminate Hi.
  - simpl in E. destruct (f a0) as [e|b0] eqn:Ea; [discriminate|]. simpl in E.
    destruct (mapM f l) as [e|bs] eqn:El; [discriminate|]. simpl in E.
    injection E as <-.
    destruct i as [|i]; simpl in Hi.
    + injection Hi as <-. exists b0. auto.
    + destruct (IH bs eq_refl i a Hi) as (b & Eb & Nb). exists b. auto.
Qed.

Lemma index_some {A} (l : list A) (i : nat) (a : A) :
  index l i = ret a -> nth_error l i = Some a.
Proof.
  unfold index. destruct (nth_error l i); [|discriminate].
  intros E. injection E as ->. reflexivity.
Qed.

Lemma between_positive (a b v : Q) : 0 < a -> 0 < b -> between a b v -> 0 < v.
Proof. unfold between. intros Ha Hb [[H1 H2]|[H1 H2]]; lra. Qed.

(** With data, the [try] block of one LED never takes its [except]
    branch. *)
Lemma ratio_at_on_data (pts : list (Q * Q)) (x1 x2 : Q) :
  pts <> [] ->
  exists y1 y2,
    linear_interpolation (map fst pts) (map snd pts) x1 = ret y1 /\
    linear_interpolation (map fst pts) (map snd pts) x2 = ret y2 /\
    ratio_at (map fst pts) (map snd pts) x1 x2 = (if Qeq_bool y2 0 then 0 else y1 / y2) /\
    ((forall p, In p pts -> 0 < snd p) -> 0 < y1 /\ 0 < y2).
Proof.
  intros N.
  assert (C : combine (map fst pts) (map snd pts) = pts).
  { clear N. induction pts as [|[x y] pts IH]; simpl; congruence. }
  assert (N' : combine (map fst pts) (map snd pts) <> []) by (rewrite C; exact N).
  destruct (@interpolation_on_data (map fst pts) (map snd pts) x1 N')
    as (y1 & a1 & b1 & E1 & Ia1 & Ib1 & B1).
  destruct (@interpolation_on_data (map fst pts) (map snd pts) x2 N')
    as (y2 & a2 & b2 & E2 & Ia2 & Ib2 & B2).
  rewrite C in Ia1, Ib1, Ia2, Ib2.
  exists y1, y2. split; [exact E1|]. split; [exact E2|]. split.
  - unfold ratio_at. rewrite E1, E2. simpl. destruct (Qeq_bool y2 0); reflexivity.
  - intros Pos. split.
    + apply (@between_positive (snd a1) (snd b1)); auto.
    + apply (@between_positive (snd a2) (snd b2)); auto.
Qed.

End MultiplierFacts.

Section MultiplierProperties.

Import Step5Interpolation1 Step5Multipliers.

(** X9.  When [calculate_multipliers] succeeds it has written exactly five
    multipliers.  A LED without any row whose If and Vf are both non-zero
    gets 0.  A LED with such rows gets the interpolated Vf at its usage
    current divided by the interpolated Vf at its test current (0 when the
    latter is zero): with data the interpolation cannot fail, so the 0 of
    the [except] branch is never written.  When all its Vf values are
    positive the multiplier is positive, and when in addition usage and
    test current are the same number it is 1. *)
Theorem multipliers_written (inp : inputs) (multipliers : list Q) :
  calculate_multipliers inp = (true, Some multipliers) ->
  exists data current step2 usage test,
    interpolation_file inp = Some data /\
    current_file inp = Some current /\ first_row_floats current = ret usage /\
    step2_currents_file inp = Some step2 /\ first_row_floats step2 = ret test /\
    List.length multipliers = 5%nat /\
    forall led, (led < 5)%nat ->
      exists pts,
        led_points data led = ret pts /\
        (pts = [] -> nth led multipliers 0 = 0) /\
        (pts <> [] ->
         exists x1 x2 y1 y2,
           nth_error usage led = Some x1 /\ nth_error test led = Some x2 /\
           linear_interpolation (map fst pts) (map snd pts) x1 = ret y1 /\
           linear_interpolation (map fst pts) (map snd pts) x2 = ret y2 /\
           nth led multipliers 0 = (if Qeq_bool y2 0 then 0 else y1 / y2) /\
           ((forall p, In p pts -> 0 < snd p) ->
            0 < nth led multipliers 0 /\ (x1 = x2 -> nth led multipliers 0 == 1))).
Proof.
  unfold calculate_multipliers. intros E.
  destruct (interpolation_file inp) as [data|]; [|discriminate].
  destruct (current_file inp) as [current|]; [|discriminate].
  destruct (step2_currents_file inp) as [step2|]; [|discriminate].
  destruct (first_row_floats current) as [e|usage] eqn:Fu; [discriminate|].
  destruct (first_row_floats step2) as [e|test] eqn:Ft; [discriminate|].
  cbn [bind] in E.
  destruct (mapM (led_multiplier usage test data) (seq 0 5)) as [e|ms] eqn:M;
    [discriminate|].
  injection E as <-.
  exists data, current, step2, usage, test.
  split; [reflexivity|]. split; [reflexivity|]. split; [exact Fu|].
  split; [reflexivity|]. split; [exact Ft|].
  split; [apply (mapM_length _ _ M)|].
  intros led Hled.
  destruct (mapM_nth_error _ _ M led (a := led)) as (m & Em & Nm).
  { rewrite nth_error_nth' with (d := 0%nat) by (rewrite length_seq; exact Hled).
    rewrite seq_nth by exact Hled. reflexivity. }
  assert (Nth : nth led ms 0 = m) by (apply nth_error_nth; exact Nm).
  rewrite Nth. clear Nth Nm M.
  unfold led_multiplier in Em.
  destruct (led_points data led) as [e|pts]; [discriminate|].
  exists pts. split; [reflexivity|]. cbn [bind] in Em.
  destruct pts as [|p pts].
  - split; [|intros N; contradiction]. intros _. injection Em as <-. reflexivity.
  - split; [intros N; discriminate|]. intros N.
    destruct (index usage led) as [e|x1] eqn:I1; [discriminate|].
    destruct (index test led) as [e|x2] eqn:I2; [discriminate|].
    cbn [bind] in Em. injection Em as <-.
    destruct (@ratio_at_on_data (p :: pts) x1 x2 N) as (y1 & y2 & E1 & E2 & R & Pos).
    exists x1, x2, y1, y2.
    split; [apply index_some; exact I1|]. split; [apply index_some; exact I2|].
    split; [exact E1|]. split; [exact E2|]. split; [exact R|].
    intros HP. destruct (Pos HP) as [P1 P2]. cbn [map] in R, E1, E2. rewrite R.
    destruct (Qeq_bool y2 0) eqn:Z; [apply Qeq_bool_iff in Z; lra|].
    split.
    + apply Qlt_shift_div_l; lra.
    + intros <-. rewrite E1 in E2. injection E2 as <-. field. lra.
Qed.

Lemma multipliers_written_witness :
  exists data current step2 usage test,
    interpolation_file
      (mkInputs (Some [[Number 1; Number 2]; [Number 3; Number 4]])
                (Some [[Number 2]]) (Some [[Number 1]])) = Some data /\
    current_file
      (mkInputs (Some [[Number 1; Number 2]; [Number 3; Number 4]])
                (Some [[Number 2]]) (Some [[Number 1]])) = Some current /\
    first_row_floats current = ret usage /\
    step2_currents_file
      (mkInputs (Some [[Number 1; Number 2]; [Number 3; Number 4]])
                (Some [[Number 2]]) (Some [[Number 1]])) = Some step2 /\
    first_row_floats step2 = ret test /\
    List.length [6 # 4; 0; 0; 0; 0] = 5%nat /\
    forall led, (led < 5)%nat ->
      exists pts,
        led_points data led = ret pts /\
        (pts = [] -> nth led [6 # 4; 0; 0; 0; 0] 0 = 0) /\
        (pts <> [] ->
         exists x1 x2 y1 y2,
           nth_error usage led = Some x1 /\ nth_error test led = Some x2 /\
           linear_interpolation (map fst pts) (map snd pts) x1 = ret y1 /\
           linear_interpolation (map fst pts) (map snd pts) x2 = ret y2 /\
           nth led [6 # 4; 0; 0; 0; 0] 0 = (if Qeq_bool y2 0 then 0 else y1 / y2) /\
           ((forall p, In p pts -> 0 < snd p) ->
            0 < nth led [6 # 4; 0; 0; 0; 0] 0 /\
            (x1 = x2 -> nth led [6 # 4; 0; 0; 0; 0] 0 == 1))).
Proof.
  apply (@multipliers_written
           (mkInputs (Some [[Number 1; Number 2]; [Number 3; Number 4]])
                     (Some [[Number 2]]) (Some [[Number 1]]))
           [6 # 4; 0; 0; 0; 0]).
  vm_compute. reflexivity.
Defined.

End MultiplierProperties.

(* ------------------------------------------------------------------ *)
(** ** Scaling the populations (step5_interpolation_2, step6_raw_data_process) *)
(* ------------------------------------------------------------------ *)

Section ScalingFacts.

Import Step4Calc3 Step5Multipliers Step7FinalCalculation Scaling.

Lemma fmt10_close (x : Q) : Qabs (fmt10 x - x) <= 5 # 100000000000.
Proof.
  unfold fmt10.
  pose proof (round_half_even_close (x * 10000000000)) as H.
  set (r := inject_Z (round_half_even (x * 10000000000))) in *.
  assert (E : r / 10000000000 == r * (1 # 10000000000)) by (unfold Qdiv; reflexivity).
  apply Qabs_Qle_condition. rewrite E. lra.
Qed.

Lemma scale_value_scaled (multiplier : Q) (value : cell) :
  is_blank value = false -> scaled multiplier value (scale_value multiplier value).
Proof.
  destruct value as [|q|s]; simpl; intros B; [discriminate| |constructor].
  constructor; [apply fmt10_close|]. eexists. reflexivity.
Qed.

Lemma read_fields_clean (lines : csv_file) :
  Forall (fun row => row <> [] /\ Forall (fun field => is_blank field = false) row)
         (read_fields lines).
Proof.
  unfold read_fields. apply Forall_flat_map. apply Forall_forall. intros line _.
  destruct (filter (fun field => negb (is_blank field)) line) as [|c row] eqn:E.
  - constructor.
  - constructor; [|constructor]. split; [discriminate|].
    rewrite <- E. apply Forall_forall. intros field Hf.
    apply filter_In in Hf. destruct Hf as [_ Hf].
    apply negb_true_iff in Hf. exact Hf.
Qed.

Lemma read_fields_values (lines : csv_file) :
  read_values (read_fields lines) = read_values lines.
Proof.
  unfold read_values, read_fields.
  induction lines as [|line lines IH]; [reflexivity|].
  cbn [flat_map]. rewrite flat_map_app, IH. f_equal.
  assert (G : flat_map (fun c => match c with Number q => [q] | _ => [] end)
                (filter (fun field => negb (is_blank field)) line)
              = flat_map (fun c => match c with Number q => [q] | _ => [] end) line).
  { clear. induction line as [|c line IH]; [reflexivity|].
    destruct c; simpl; rewrite ?IH; reflexivity. }
  rewrite <- G.
  destruct (filter (fun field => negb (is_blank field)) line); simpl;
    rewrite ?app_nil_r; reflexivity.
Qed.

Lemma scale_values_read (multiplier : Q) (rows : csv_file) :
  read_values (map (map (scale_value multiplier)) rows)
  = map (fun q => fmt10 (q * multiplier)) (read_values rows).
Proof.
  unfold read_values.
  induction rows as [|row rows IH]; [reflexivity|].
  cbn [map flat_map]. rewrite map_app, IH. f_equal.
  clear. induction row as [|c row IH]; [reflexivity|].
  destruct c; simpl; rewrite ?IH; reflexivity.
Qed.

End ScalingFacts.

Section ScalingLoopFacts.

Import Step4Calc3 Step5Multipliers Step7FinalCalculation Scaling.

Variables in_suffix out_suffix : string.
Variable factors : list Q.
Variable dir : string -> option csv_file.

Local Notation "'files_of'" := (files_of_led in_suffix out_suffix factors dir).

Lemma led_loop_through (leds : list nat) (written : list (string * csv_file)) :
  Forall (fun led => (led < List.length factors)%nat) leds ->
  led_loop in_suffix out_suffix factors dir leds written
  = (true, written ++ flat_map files_of leds).
Proof.
  revert written. induction leds as [|led leds IH]; intros written F.
  - simpl. rewrite app_nil_r. reflexivity.
  - inversion F as [|? ? Hl F']; subst. cbn [led_loop].
    destruct (nth_error factors led) as [factor|] eqn:E.
    + rewrite IH by exact F'. cbn [flat_map]. rewrite app_assoc.
      unfold files_of_led at 2. rewrite (nth_error_nth _ _ 0 E). reflexivity.
    + apply nth_error_None in E. lia.
Qed.

Lemma led_loop_stops (before after : list nat) (led : nat)
  (written : list (string * csv_file)) :
  Forall (fun led => (led < List.length factors)%nat) before ->
  (List.length factors <= led)%nat ->
  led_loop in_suffix out_suffix factors dir (before ++ led :: after) written
  = (false, written ++ flat_map files_of before).
Proof.
  revert written. induction before as [|l before IH]; intros written F Hled.
  - simpl. rewrite app_nil_r.
    destruct (nth_error factors led) eqn:E; [|reflexivity].
    assert (nth_error factors led <> None) by congruence.
    apply nth_error_Some in H. lia.
  - inversion F as [|? ? Hl F']; subst. cbn [app led_loop].
    destruct (nth_error factors l) as [factor|] eqn:E.
    + rewrite IH by assumption. cbn [flat_map]. rewrite app_assoc.
      unfold files_of_led at 2. rewrite (nth_error_nth _ _ 0 E). reflexivity.
    + apply nth_error_None in E. lia.
Qed.

Lemma led_loop_five :
  led_loop in_suffix out_suffix factors dir (seq 0 5) []
  = ((5 <=? List.length factors)%nat,
     flat_map files_of (seq 0 (Nat.min 5 (List.length factors)))).
Proof.
  destruct (Nat.leb_spec 5 (List.length factors)) as [H|H].
  - rewrite Nat.min_l by exact H. rewrite led_loop_through; [reflexivity|].
    apply Forall_forall. intros led Hin. apply in_seq in Hin. lia.
  - rewrite Nat.min_r by lia.
    replace (seq 0 5) with (seq 0 (List.length factors)
                            ++ List.length factors :: seq (S (List.length factors))
                                                         (4 - List.length factors)).
    + rewrite led_loop_stops; [reflexivity| |lia].
      apply Forall_forall. intros led Hin. apply in_seq in Hin. lia.
    + pose proof (seq_app (List.length factors) (S (4 - List.length factors)) 0) as A.
      replace (List.length factors + S (4 - List.length factors))%nat with 5%nat in A by lia.
      rewrite A. reflexivity.
Qed.

End ScalingLoopFacts.

Section ScalingProperties.

Import Step4Calc3 Step5Multipliers Step7FinalCalculation Scaling.

(** X10.  What [scale_bin_data] and [process_raw_data_with_thermal_loss]
    write for one input file.  A missing file and a file of size zero give
    the single row [0].  Otherwise the output has one row per input line
    that holds a non-empty field and one field per non-empty field, in
    order: a number becomes a multiple of 1e-10 within 5e-11 of the number
    times the factor, any other text is kept; no output row is empty, and
    the numbers of the output are the numbers of the input, each
    multiplied and rounded, in the same order. *)
Theorem scale_file_contents (multiplier : Q) :
  scale_file multiplier None = [[Number 0]] /\
  scale_file multiplier (Some []) = [[Number 0]] /\
  forall lines : csv_file, lines <> [] ->
    Forall2 (Forall2 (scaled multiplier)) (read_fields lines)
            (scale_file multiplier (Some lines)) /\
    Forall (fun row => row <> []) (scale_file multiplier (Some lines)) /\
    read_values (scale_file multiplier (Some lines))
    = map (fun q => fmt10 (q * multiplier)) (read_values lines).
Proof.
  split; [reflexivity|]. split; [reflexivity|].
  intros lines N. destruct lines as [|line lines]; [contradiction|].
  cbn [scale_file].
  pose proof (read_fields_clean (line :: lines)) as C.
  split; [|split].
  - induction C as [|row rows [Hr Hb] C IH]; cbn [map]; constructor; [|exact IH].
    clear Hr. induction Hb as [|c row Hc Hb IHb]; cbn [map]; constructor; [|exact IHb].
    apply scale_value_scaled. exact Hc.
  - apply Forall_map. eapply Forall_impl; [|exact C].
    intros row [Hr _]. destruct row; [contradiction|discriminate].
  - rewrite scale_values_read, read_fields_values. reflexivity.
Qed.

Lemma scale_file_contents_witness :
  Forall2 (Forall2 (scaled (3#2))) (read_fields [[Number 2; Blank]; []; [Text "x"]])
          (scale_file (3#2) (Some [[Number 2; Blank]; []; [Text "x"]])) /\
  Forall (fun row => row <> []) (scale_file (3#2) (Some [[Number 2; Blank]; []; [Text "x"]])) /\
  read_values (scale_file (3#2) (Some [[Number 2; Blank]; []; [Text "x"]]))
  = map (fun q => fmt10 (q * (3#2))) (read_values [[Number 2; Blank]; []; [Text "x"]]).
Proof.
  apply (proj2 (proj2 (scale_file_contents (3#2)))). discriminate.
Defined.

Lemma scale_all_outcome_pair (thermal_loss_file multiplier_file : option csv_file)
  (dir : string -> option csv_file) :
  let outcome (in_suffix out_suffix : string) (factors_file : option csv_file)
              (result : bool * list (string * csv_file)) :=
    match factors_file with
    | Some (first_row :: _) =>
        match mapM float_of first_row with
        | inr factors =>
            result = ((5 <=? List.length factors)%nat,
                      flat_map (files_of_led in_suffix out_suffix factors dir)
                               (seq 0 (Nat.min 5 (List.length factors))))
        | inl _ => result = (false, [])
        end
    | _ => result = (false, [])
    end in
  outcome ".csv"%string "_interpolated.csv"%string multiplier_file
          (scale_bin_data multiplier_file dir) /\
  outcome "_interpolated.csv"%string "_interpolated_loss.csv"%string thermal_loss_file
          (process_raw_data_with_thermal_loss thermal_loss_file dir).
Proof.
  cbv zeta. unfold scale_bin_data, process_raw_data_with_thermal_loss, scale_all.
  split.
  - destruct multiplier_file as [[|first_row rest]|]; [reflexivity| |reflexivity].
    destruct (mapM float_of first_row) as [e|factors]; [reflexivity|].
    apply led_loop_five.
  - destruct thermal_loss_file as [[|first_row rest]|]; [reflexivity| |reflexivity].
    destruct (mapM float_of first_row) as [e|factors]; [reflexivity|].
    apply led_loop_five.
Qed.

(** X11.  The outcome of [scale_bin_data] and of
    [process_raw_data_with_thermal_loss] (the same loop under two sets of
    file names).  Without the factor file, with an empty one, or with a
    first row holding a cell that is not a number, nothing is written and
    the flag is false.  Otherwise, with [k] factors in the first row, the
    files of the first [min(5, k)] LEDs are written, four per LED in the
    order of the bins, each being the input file of the same LED and bin
    scaled by the factor of that LED; the flag is true exactly when
    [k >= 5], so a short factor row leaves the files of the first [k] LEDs
    behind and reports failure. *)
Theorem scale_all_outcome (thermal_loss_file multiplier_file : option csv_file)
  (dir : string -> option csv_file) :
  let outcome (in_suffix out_suffix : string) (factors_file : option csv_file)
              (result : bool * list (string * csv_file)) :=
    match factors_file with
    | Some (first_row :: _) =>
        match mapM float_of first_row with
        | inr factors =>
            result = ((5 <=? List.length factors)%nat,
                      flat_map (files_of_led in_suffix out_suffix factors dir)
                               (seq 0 (Nat.min 5 (List.length factors))))
        | inl _ => result = (false, [])
        end
    | _ => result = (false, [])
    end in
  outcome ".csv"%string "_interpolated.csv"%string multiplier_file
          (scale_bin_data multiplier_file dir) /\
  outcome "_interpolated.csv"%string "_interpolated_loss.csv"%string thermal_loss_file
          (process_raw_data_with_thermal_loss thermal_loss_file dir).
Proof. apply scale_all_outcome_pair. Qed.

End ScalingProperties.

Section PopulationChainFacts.

Import Step4Calc3 Step5Multipliers Step7FinalCalculation Scaling.

Lemma written_lookup (F : nat -> nat -> csv_file) (out_suffix : string) :
  out_suffix = "_interpolated.csv"%string \/ out_suffix = "_interpolated_loss.csv"%string ->
  forall led bin, (led < 5)%nat -> (bin < 4)%nat ->
  files_written
    (flat_map (fun led_index =>
       map (fun bin_index =>
              (bin_file_name out_suffix (led_index + 1) bin_index, F led_index bin_index))
           (seq 1 4)) (seq 0 5))
    (bin_file_name out_suffix (led + 1) (bin + 1))
  = Some (F led (bin + 1)%nat).
Proof.
  intros [-> | ->] led bin Hl Hb;
    destruct led as [|[|[|[|[|led]]]]]; try lia;
    destruct bin as [|[|[|[|bin]]]]; try lia;
    vm_compute; reflexivity.
Qed.

Lemma loaded_population (files : string -> option csv_file) (combos : option csv_file)
  (led bin : nat) :
  (led < 5)%nat -> (bin < 4)%nat ->
  nth (4 * led + bin) (_load_bin_data_memory_efficient (mkDir combos files)) []
  = match files (bin_file_name "_interpolated_loss.csv" (led + 1) (bin + 1)) with
    | Some ((_ :: _) as f) => read_values f
    | _ => [0]
    end.
Proof.
  intros Hl Hb.
  destruct led as [|[|[|[|[|led]]]]]; try lia;
    destruct bin as [|[|[|[|bin]]]]; try lia; reflexivity.
Qed.

Lemma loaded_count (files : string -> option csv_file) (combos : option csv_file) :
  List.length (_load_bin_data_memory_efficient (mkDir combos files)) = 20%nat.
Proof. reflexivity. Qed.

Lemma twice_scaled_close (q m l : Q) :
  Qabs (fmt10 (fmt10 (q * m) * l) - q * m * l) <= (1 + Qabs l) * (5 # 100000000000).
Proof.
  pose proof (fmt10_close (q * m)) as H1.
  pose proof (fmt10_close (fmt10 (q * m) * l)) as H2.
  set (a := fmt10 (q * m)) in *. set (b := fmt10 (a * l)) in *.
  assert (E : b - q * m * l == (b - a * l) + (a - q * m) * l) by ring.
  rewrite E.
  eapply Qle_trans; [apply Qabs_triangle|].
  rewrite Qabs_Qmult.
  assert (0 <= Qabs l) by apply Qabs_nonneg.
  assert (0 <= Qabs (a - q * m)) by apply Qabs_nonneg.
  nra.
Qed.

End PopulationChainFacts.

Section PopulationChainProperties.

Import Step4Calc3 Step5Multipliers Step7FinalCalculation Scaling.

Lemma round_half_even_zero (y : Q) : y == 0 -> round_half_even y = 0%Z.
Proof.
  intros E. unfold round_half_even.
  assert (F : Qfloor y = 0%Z) by (rewrite E; reflexivity).
  rewrite F.
  replace (Qltb (y - inject_Z 0) (1 # 2)) with true; [reflexivity|].
  symmetry. apply Qltb_lt. change (inject_Z 0) with 0. lra.
Qed.

Lemma fmt10_zero (l : Q) : fmt10 (0 * l) == 0.
Proof.
  unfold fmt10. rewrite round_half_even_zero by ring. reflexivity.
Qed.

Lemma scale_value_not_blank (m : Q) (c : cell) :
  is_blank c = false -> is_blank (scale_value m c) = false.
Proof. destruct c; simpl; auto. Qed.

Lemma read_fields_of_clean (rows : csv_file) :
  Forall (fun row => row <> [] /\ Forall (fun field => is_blank field = false) row) rows ->
  read_fields rows = rows.
Proof.
  induction 1 as [|row rows [Hr Hb] C IH]; [reflexivity|].
  unfold read_fields in *. cbn [flat_map]. rewrite IH.
  assert (E : filter (fun field => negb (is_blank field)) row = row).
  { clear Hr. induction Hb as [|c row Hc Hb IHb]; [reflexivity|].
    simpl. rewrite Hc. simpl. rewrite IHb. reflexivity. }
  rewrite E. destruct row; [contradiction|reflexivity].
Qed.

Lemma scaled_rows_clean (m : Q) (rows : csv_file) :
  Forall (fun row => row <> [] /\ Forall (fun field => is_blank field = false) row) rows ->
  Forall (fun row => row <> [] /\ Forall (fun field => is_blank field = false) row)
         (map (map (scale_value m)) rows).
Proof.
  intros C. apply Forall_map. eapply Forall_impl; [|exact C].
  intros row [Hr Hb]. split.
  - destruct row; [contradiction|discriminate].
  - apply Forall_map. eapply Forall_impl; [|exact Hb].
    intros c. apply scale_value_not_blank.
Qed.

(** A file through both stages. *)
Lemma twice_scaled_values (m l : Q) (input : option csv_file) :
  let values :=
    match scale_file l (Some (scale_file m input)) with
    | (_ :: _) as f => read_values f
    | [] => [0]
    end in
  match input with
  | Some lines =>
      match read_fields lines with
      | [] => exists v, values = [v] /\ v == 0
      | _ => values = map (fun q => fmt10 (fmt10 (q * m) * l)) (read_values lines)
      end
  | None => exists v, values = [v] /\ v == 0
  end.
Proof.
  cbv zeta.
  assert (Z : exists v,
             match scale_file l (Some [[Number 0]]) with
             | [] => [0]
             | (_ :: _) as f => read_values f
             end = [v] /\ v == 0).
  { exists (fmt10 (0 * l)). split; [reflexivity|apply fmt10_zero]. }
  destruct input as [lines|]; [|exact Z].
  destruct lines as [|line lines]; [exact Z|].
  cbn [scale_file].
  pose proof (read_fields_clean (line :: lines)) as C.
  pose proof (read_fields_values (line :: lines)) as V.
  destruct (read_fields (line :: lines)) as [|row rows].
  - cbn [map scale_file]. exists 0. split; [reflexivity|apply Qeq_refl].
  - pose proof (scaled_rows_clean m C) as C1.
    cbn [map] in *. cbn [scale_file].
    rewrite (read_fields_of_clean C1). cbn [map].
    change (read_values (map (map (scale_value l))
              (map (map (scale_value m)) (row :: rows)))
            = map (fun q => fmt10 (fmt10 (q * m) * l)) (read_values (line :: lines))).
    rewrite !scale_values_read, V, map_map. reflexivity.
Qed.

(** X12.  From the step-3 bins to the populations sampled in step 7.
    When [scale_bin_data] succeeds on the step-3 directory and
    [process_raw_data_with_thermal_loss] succeeds on the files it wrote,
    the loader of step 7 finds all its 20 files under the names it looks
    for and returns 20 populations, in the order LED by LED, bin by bin.
    The population of LED [led], bin [bin] is: a single zero when the
    step-3 file is missing, empty or without any field; otherwise the
    numbers of the step-3 file in their order, each within
    (1 + |loss|) * 5e-11 of number * multiplier * loss, with the
    multiplier and the thermal loss of that LED. *)
Theorem populations_end_to_end
  (multiplier_file thermal_loss_file combos : option csv_file)
  (step3_dir : string -> option csv_file)
  (step5_files step6_files : list (string * csv_file)) :
  scale_bin_data multiplier_file step3_dir = (true, step5_files) ->
  process_raw_data_with_thermal_loss thermal_loss_file (files_written step5_files)
  = (true, step6_files) ->
  exists multipliers thermal_losses,
    (exists row rest, multiplier_file = Some (row :: rest) /\
                      mapM float_of row = ret multipliers) /\
    (exists row rest, thermal_loss_file = Some (row :: rest) /\
                      mapM float_of row = ret thermal_losses) /\
    let populations :=
      _load_bin_data_memory_efficient (mkDir combos (files_written step6_files)) in
    List.length populations = 20%nat /\
    forall led bin, (led < 5)%nat -> (bin < 4)%nat ->
      let population := nth (4 * led + bin) populations [] in
      let m := nth led multipliers 0 in
      let l := nth led thermal_losses 0 in
      match step3_dir (bin_file_name ".csv" (led + 1) (bin + 1)) with
      | Some lines =>
          match read_fields lines with
          | [] => exists v, population = [v] /\ v == 0
          | _ => Forall2 (fun v q => Qabs (v - q * m * l)
                                     <= (1 + Qabs l) * (5 # 100000000000))
                         population (read_values lines)
          end
      | None => exists v, population = [v] /\ v == 0
      end.
Proof.
  intros E1 E2.
  pose proof (proj1 (scale_all_outcome_pair multiplier_file multiplier_file step3_dir)) as O1.
  pose proof (proj2 (scale_all_outcome_pair thermal_loss_file thermal_loss_file
                       (files_written step5_files))) as O2.
  rewrite E1 in O1. rewrite E2 in O2.
  destruct multiplier_file as [[|row1 rest1]|]; try discriminate O1.
  destruct thermal_loss_file as [[|row2 rest2]|]; try discriminate O2.
  destruct (mapM float_of row1) as [e|multipliers] eqn:M1; [discriminate O1|].
  destruct (mapM float_of row2) as [e|thermal_losses] eqn:M2; [discriminate O2|].
  pose proof (f_equal fst O1) as L1. pose proof (f_equal snd O1) as W1.
  pose proof (f_equal fst O2) as L2. pose proof (f_equal snd O2) as W2.
  cbn [fst snd] in L1, W1, L2, W2. clear O1 O2.
  symmetry in L1, L2. apply Nat.leb_le in L1, L2.
  rewrite Nat.min_l in W1 by exact L1. rewrite Nat.min_l in W2 by exact L2.
  exists multipliers, thermal_losses.
  split; [exists row1, rest1; auto|]. split; [exists row2, rest2; auto|].
  cbv zeta. split; [apply loaded_count|].
  intros led bin Hl Hb.
  assert (P : nth (4 * led + bin)
                (_load_bin_data_memory_efficient (mkDir combos (files_written step6_files))) []
              = match scale_file (nth led thermal_losses 0)
                        (Some (scale_file (nth led multipliers 0)
                                 (step3_dir (bin_file_name ".csv" (led + 1) (bin + 1))))) with
                | (_ :: _) as f => read_values f
                | [] => [0]
                end).
  { assert (F1 : files_written step5_files
                   (bin_file_name "_interpolated.csv" (led + 1) (bin + 1))
                 = Some (scale_file (nth led multipliers 0)
                           (step3_dir (bin_file_name ".csv" (led + 1) (bin + 1))))).
    { rewrite W1.
      apply (@written_lookup
               (fun led_index bin_index =>
                  scale_file (nth led_index multipliers 0)
                    (step3_dir (bin_file_name ".csv" (led_index + 1) bin_index)))
               "_interpolated.csv" (or_introl eq_refl) led bin Hl Hb). }
    assert (F2 : files_written step6_files
                   (bin_file_name "_interpolated_loss.csv" (led + 1) (bin + 1))
                 = Some (scale_file (nth led thermal_losses 0)
                           (files_written step5_files
                              (bin_file_name "_interpolated.csv" (led + 1) (bin + 1))))).
    { rewrite W2.
      apply (@written_lookup
               (fun led_index bin_index =>
                  scale_file (nth led_index thermal_losses 0)
                    (files_written step5_files
                       (bin_file_name "_interpolated.csv" (led_index + 1) bin_index)))
               "_interpolated_loss.csv" (or_intror eq_refl) led bin Hl Hb). }
    rewrite loaded_population by assumption.
    rewrite F2, F1.
    destruct (scale_file (nth led thermal_losses 0)
                (Some (scale_file (nth led multipliers 0)
                         (step3_dir (bin_file_name ".csv" (led + 1) (bin + 1))))));
      reflexivity. }
  rewrite P. clear P.
  pose proof (twice_scaled_values (nth led multipliers 0) (nth led thermal_losses 0)
                (step3_dir (bin_file_name ".csv" (led + 1) (bin + 1)))) as T.
  cbv zeta in T.
  destruct (step3_dir (bin_file_name ".csv" (led + 1) (bin + 1))) as [lines|];
    [|exact T].
  destruct (read_fields lines) as [|row rows]; [exact T|].
  rewrite T. clear.
  induction (read_values lines) as [|q qs IH]; cbn [map]; constructor; [|exact IH].
  apply twice_scaled_close.
Qed.

Lemma populations_end_to_end_witness :
  let factors := Some [[Number 2; Number 3; Number 1; Number 1; Number 1]] in
  let combos : option csv_file := None in
  let step3_dir := fun name : string =>
    if String.eqb name "LED2_raw_data_bin_1.csv" then Some [[Number (31#10); Number (16#5)]]
    else None in
  let step5_files := snd (scale_bin_data factors step3_dir) in
  let step6_files :=
    snd (process_raw_data_with_thermal_loss factors (files_written step5_files)) in
  exists multipliers thermal_losses,
    (exists row rest, factors = Some (row :: rest) /\
                      mapM float_of row = ret multipliers) /\
    (exists row rest, factors = Some (row :: rest) /\
                      mapM float_of row = ret thermal_losses) /\
    let populations :=
      _load_bin_data_memory_efficient (mkDir combos (files_written step6_files)) in
    List.length populations = 20%nat /\
    forall led bin, (led < 5)%nat -> (bin < 4)%nat ->
      let population := nth (4 * led + bin) populations [] in
      let m := nth led multipliers 0 in
      let l := nth led thermal_losses 0 in
      match step3_dir (bin_file_name ".csv" (led + 1) (bin + 1)) with
      | Some lines =>
          match read_fields lines with
          | [] => exists v, population = [v] /\ v == 0
          | _ => Forall2 (fun v q => Qabs (v - q * m * l)
                                     <= (1 + Qabs l) * (5 # 100000000000))
                         population (read_values lines)
          end
      | None => exists v, population = [v] /\ v == 0
      end.
Proof.
  intros factors combos step3_dir step5_files step6_files.
  apply (@populations_end_to_end factors factors combos step3_dir step5_files step6_files).
  - vm_compute. reflexivity.
  - vm_compute. reflexivity.
Defined.

End PopulationChainProperties.

(* ------------------------------------------------------------------ *)
(** ** The range of the simulated voltages (step7_final_calculation) *)
(* ------------------------------------------------------------------ *)

Section SampleFacts.

Import Step7FinalCalculation Step7Range.

Lemma least_le (l : list Q) (x : Q) : In x l -> least l <= x.
Proof.
  induction l as [|a l IH]; intros H; [contradiction|].
  cbn [least]. destruct l as [|b l].
  - destruct H as [<-|[]]. apply Qle_refl.
  - destruct (Qle_bool a (least (b :: l))) eqn:E.
    + apply Qle_bool_iff in E. destruct H as [<-|H]; [apply Qle_refl|].
      specialize (IH H). lra.
    + apply Qle_bool_false in E. destruct H as [<-|H]; [lra|]. exact (IH H).
Qed.

Lemma greatest_ge (l : list Q) (x : Q) : In x l -> x <= greatest l.
Proof.
  induction l as [|a l IH]; intros H; [contradiction|].
  cbn [greatest]. destruct l as [|b l].
  - destruct H as [<-|[]]. apply Qle_refl.
  - destruct (Qle_bool (greatest (b :: l)) a) eqn:E.
    + apply Qle_bool_iff in E. destruct H as [<-|H]; [apply Qle_refl|].
      specialize (IH H). lra.
    + apply Qle_bool_false in E. destruct H as [<-|H]; [lra|]. exact (IH H).
Qed.

Lemma random_choice_member (bin_data : list Q) (g : rng) :
  bin_data <> [] ->
  In (fst (random_choice bin_data g)) bin_data /\
  snd (random_choice bin_data g) = mkRng (draws g) (S (used g)).
Proof.
  intros N. unfold random_choice. cbn [fst snd]. split; [|reflexivity].
  apply nth_In. apply Nat.mod_upper_bound.
  destruct bin_data; [contradiction|discriminate].
Qed.

Lemma draw_sum_range (bin_data : list Q) (k : nat) : forall (total : Q) (g : rng),
  bin_data <> [] ->
  total + inject_Z (Z.of_nat k) * least bin_data <= fst (draw_sum bin_data k total g) /\
  fst (draw_sum bin_data k total g) <= total + inject_Z (Z.of_nat k) * greatest bin_data /\
  snd (draw_sum bin_data k total g) = mkRng (draws g) (used g + k).
Proof.
  induction k as [|k IH]; intros total g N.
  - cbn [draw_sum fst snd]. change (inject_Z (Z.of_nat 0)) with 0.
    rewrite Nat.add_0_r. destruct g. repeat split; lra.
  - cbn [draw_sum].
    destruct (random_choice_member g N) as [M G].
    destruct (random_choice bin_data g) as [x g'] eqn:R. cbn [fst snd] in M, G. subst g'.
    destruct (IH (total + x) (mkRng (draws g) (S (used g))) N) as (L & U & G').
    pose proof (least_le _ _ M) as Lx. pose proof (greatest_ge _ _ M) as Ux.
    rewrite Nat2Z.inj_succ, <- Z.add_1_r, inject_Z_plus. change (inject_Z 1) with 1.
    split; [lra|]. split; [lra|].
    rewrite G'. cbn [draws used]. f_equal. lia.
Qed.

Lemma py_int_nonneg (x : Q) :
  0 <= x -> inject_Z (Z.of_nat (Z.to_nat (py_int x))) == inject_Z (py_int x) /\
            inject_Z (py_int x) <= x /\ x < inject_Z (py_int x) + 1.
Proof.
  intros H. unfold py_int.
  replace (Qle_bool 0 x) with true by (symmetry; apply Qle_bool_iff; exact H).
  assert (F : (0 <= Qfloor x)%Z).
  { change 0%Z with (Qfloor 0). apply Qfloor_resp_le. exact H. }
  rewrite Z2Nat.id by exact F.
  pose proof (Qfloor_le x). pose proof (Qlt_floor x) as U.
  rewrite inject_Z_plus in U. change (inject_Z 1) with 1 in U.
  repeat split; assumption.
Qed.

Lemma py_int_negative (x : Q) :
  x < 0 -> Z.to_nat (py_int x) = 0%nat /\ x - inject_Z (py_int x) <= 0.
Proof.
  intros H. unfold py_int.
  replace (Qle_bool 0 x) with false by (symmetry; apply Qle_bool_false; exact H).
  pose proof (Qle_ceiling x) as C.
  assert (F : (Qceiling x <= 0)%Z).
  { change 0%Z with (Qceiling 0). apply Qceiling_resp_le. lra. }
  split; [|lra].
  destruct (Qceiling x); try reflexivity. lia.
Qed.

(** The weight applied is never negative, and for a count that is not
    negative it is the count itself or, when the fractional part is at
    most 1e-10, the count without it. *)
Lemma applied_count_range (sample_count : Q) :
  0 <= applied_count sample_count /\
  (0 <= sample_count ->
   sample_count - (1 # 10000000000) <= applied_count sample_count /\
   applied_count sample_count <= sample_count) /\
  (sample_count <= 0 -> applied_count sample_count == 0).
Proof.
  unfold applied_count.
  destruct (Qlt_le_dec sample_count 0) as [Neg|Pos].
  - destruct (py_int_negative Neg) as [Z F]. rewrite Z.
    change (inject_Z (Z.of_nat 0)) with 0.
    replace (Qgtb (sample_count - inject_Z (py_int sample_count)) (1 # 10000000000))
      with false by (symmetry; apply Qgtb_le; lra).
    repeat split; intros; lra.
  - destruct (py_int_nonneg Pos) as (E & L & U). rewrite E.
    destruct (Qgtb (sample_count - inject_Z (py_int sample_count)) (1 # 10000000000)) eqn:G.
    + apply Qgtb_lt in G. repeat split; intros; lra.
    + apply Qgtb_le in G.
      assert (0 <= inject_Z (py_int sample_count)).
      { rewrite <- E. change 0 with (inject_Z 0). rewrite <- Zle_Qle. lia. }
      repeat split; intros; lra.
Qed.

End SampleFacts.

Section SampleProperties.

Import Step7FinalCalculation Step7Range.

Lemma sample_range (bin_data : list Q) (sample_count : Q) (g : rng) :
  applied_count sample_count * least bin_data
    <= fst (_sample_from_bin bin_data sample_count g) /\
  fst (_sample_from_bin bin_data sample_count g)
    <= applied_count sample_count * greatest bin_data /\
  snd (_sample_from_bin bin_data sample_count g)
    = mkRng (draws g) (used g + draws_needed bin_data sample_count).
Proof.
  destruct bin_data as [|b bin_data].
  { cbn [_sample_from_bin least greatest draws_needed fst snd].
    rewrite Nat.add_0_r. destruct g. repeat split; lra. }
  assert (N : b :: bin_data <> []) by discriminate.
  unfold _sample_from_bin, applied_count, draws_needed.
  set (bin := b :: bin_data) in *.
  set (k := Z.to_nat (py_int sample_count)).
  set (frac := sample_count - inject_Z (py_int sample_count)).
  destruct (draw_sum_range k 0 g N) as (L & U & G).
  destruct (draw_sum bin k 0 g) as [total g1]. cbn [fst snd] in L, U, G.
  change (match bin with [] => (0, g) | _ :: _ =>
            if Qgtb frac (1 # 10000000000)
            then let '(last_sample, g2) := random_choice bin g1 in
                 (total + last_sample * frac, g2)
            else (total, g1) end)
    with (if Qgtb frac (1 # 10000000000)
          then let '(last_sample, g2) := random_choice bin g1 in
               (total + last_sample * frac, g2)
          else (total, g1)).
  destruct (Qgtb frac (1 # 10000000000)) eqn:F.
  - apply Qgtb_lt in F.
    destruct (random_choice_member g1 N) as [M G2].
    destruct (random_choice bin g1) as [last_sample g2]. cbn [fst snd] in *.
    pose proof (least_le _ _ M). pose proof (greatest_ge _ _ M).
    split; [nra|]. split; [nra|].
    rewrite G2, G. cbn [draws used]. f_equal. lia.
  - cbn [fst snd]. split; [lra|]. split; [lra|].
    rewrite G. f_equal. lia.
Qed.

(** X13.  What one call of [_sample_from_bin] can return.  The result lies
    between weight * (least value of the population) and weight *
    (greatest value), where the weight is the number of whole draws plus
    the fractional part of the count when that exceeds 1e-10; the weight
    is never negative, is within 1e-10 of a non-negative count and never
    above it, and is zero for a count that is zero or negative.  An empty
    population gives 0 without a draw, and the call consumes exactly one
    random number per whole draw and one more for an applied fractional
    part. *)
Theorem sample_from_bin_range (bin_data : list Q) (sample_count : Q) (g : rng) :
  let w := applied_count sample_count in
  let result := _sample_from_bin bin_data sample_count g in
  w * least bin_data <= fst result /\ fst result <= w * greatest bin_data /\
  snd result = mkRng (draws g) (used g + draws_needed bin_data sample_count) /\
  (bin_data = [] -> result = (0, g)) /\
  (forall x, In x bin_data -> least bin_data <= x /\ x <= greatest bin_data) /\
  0 <= w /\
  (0 <= sample_count -> sample_count - (1 # 10000000000) <= w /\ w <= sample_count) /\
  (sample_count <= 0 -> w == 0).
Proof.
  cbv zeta.
  destruct (sample_range bin_data sample_count g) as (L & U & G).
  destruct (applied_count_range sample_count) as (W0 & W1 & W2).
  repeat split; try assumption.
  - intros ->. reflexivity.
  - apply least_le. assumption.
  - apply greatest_ge. assumption.
  - apply W1. assumption.
  - apply W1. assumption.
Qed.

End SampleProperties.

Section TrialFacts.

Import Step7FinalCalculation Step7Range.

Lemma trial_range (bin_data_list : list (list Q)) : forall (combo : list Q) (total : Q) (g : rng),
  total + weighted least bin_data_list combo <= fst (trial bin_data_list combo total g) /\
  fst (trial bin_data_list combo total g) <= total + weighted greatest bin_data_list combo.
Proof.
  induction bin_data_list as [|bin_data bins IH]; intros combo total g.
  - destruct combo; cbn [trial weighted fst]; lra.
  - destruct combo as [|sample_count combo]; [cbn [trial weighted fst]; lra|].
    cbn [trial weighted].
    destruct (sample_range bin_data sample_count g) as (L & U & _).
    destruct (_sample_from_bin bin_data sample_count g) as [c g']. cbn [fst] in L, U.
    destruct (IH combo (total + c) g') as [L' U']. lra.
Qed.

Variable stop_check : stop_check_t.
Variable bin_data_list : list (list Q).

Local Notation "'in_range_of'" := (in_range bin_data_list).

Lemma trials_range (combo : list Q) (fuel : nat) : forall (sim_idx : nat) (rows : list Q)
  (st : run_state),
  Forall (in_range_of combo) rows ->
  match trials stop_check bin_data_list combo fuel sim_idx rows st with
  | inl (rows', st') =>
      Forall (in_range_of combo) rows' /\ written st' = written st /\
      (List.length rows' < List.length rows + fuel)%nat
  | inr (rows', st') =>
      Forall (in_range_of combo) rows' /\ written st' = written st /\
      List.length rows' = (List.length rows + fuel)%nat
  end.
Proof.
  induction fuel as [|fuel IH]; intros sim_idx rows st F.
  - cbn [trials]. repeat split; auto.
  - cbn [trials].
    assert (W : written (snd (if (sim_idx mod 1000 =? 0)%nat then poll stop_check st
                              else (false, st))) = written st).
    { destruct (sim_idx mod 1000 =? 0)%nat; [|reflexivity].
      unfold poll. destruct stop_check; reflexivity. }
    destruct (if (sim_idx mod 1000 =? 0)%nat then poll stop_check st else (false, st))
      as [stop st1]. cbn [snd] in W.
    destruct stop.
    + repeat split; auto. lia.
    + pose proof (trial_range bin_data_list (firstn 20 combo) 0 (gen st1)) as R.
      destruct (trial bin_data_list (firstn 20 combo) 0 (gen st1)) as [v g'].
      cbn [fst] in R.
      specialize (IH (S sim_idx) (v :: rows) (mkState g' (polls st1) (written st1))).
      assert (F' : Forall (in_range_of combo) (v :: rows)).
      { constructor; [|exact F]. unfold in_range. lra. }
      specialize (IH F').
      destruct (trials stop_check bin_data_list combo fuel (S sim_idx) (v :: rows)
                  (mkState g' (polls st1) (written st1))) as [[rows' st']|[rows' st']];
        cbn [written List.length] in IH; destruct IH as (A & B & C);
        repeat split; auto; try congruence; lia.
Qed.

Local Notation "'file_ok_of'" := (file_ok bin_data_list).

Lemma combos_loop_range (simulation_count : nat) (todo : list (list Q)) :
  forall (done : list (list Q)) (st : run_state),
  Forall (file_ok_of simulation_count (done ++ todo)) (written st) ->
  map fst (written st) = rev (seq 1 (List.length done)) ->
  Forall (fun out => List.length (snd out) = simulation_count) (written st) ->
  let result := combos_loop stop_check simulation_count bin_data_list todo
                            (S (List.length done)) st in
  Forall (file_ok_of simulation_count (done ++ todo)) (written (snd result)) /\
  (exists k, (List.length done <= k <= List.length (done ++ todo))%nat /\
             map fst (written (snd result)) = rev (seq 1 k)) /\
  (fst result = true ->
   map fst (written (snd result)) = rev (seq 1 (List.length (done ++ todo))) /\
   Forall (fun out => List.length (snd out) = simulation_count) (written (snd result))).
Proof.
  induction todo as [|combo todo IH]; intros done st F I C.
  - cbn [combos_loop fst snd]. rewrite app_nil_r in *.
    split; [exact F|]. split; [exists (List.length done); split; [lia|exact I]|].
    intros _. split; assumption.
  - cbv zeta. cbn [combos_loop].
    assert (W : written (snd (poll stop_check st)) = written st).
    { unfold poll. destruct stop_check; reflexivity. }
    destruct (poll stop_check st) as [stop st1]. cbn [snd] in W.
    destruct stop.
    + cbn [fst snd]. rewrite W. split; [exact F|]. split.
      * exists (List.length done). split; [|exact I]. rewrite length_app. lia.
      * discriminate.
    + pose proof (@trials_range combo simulation_count 0 [] st1 (Forall_nil _)) as T.
      assert (Ok : forall rows, Forall (in_range_of combo) rows ->
                     (List.length rows <= simulation_count)%nat ->
                     file_ok_of simulation_count (done ++ combo :: todo)
                             (S (List.length done), rev rows)).
      { intros rows Fr Lr. exists combo. cbn [fst snd].
        split; [lia|]. split; [|split].
        - replace (S (List.length done) - 1)%nat with (List.length done) by lia.
          rewrite nth_error_app2 by lia. rewrite Nat.sub_diag. reflexivity.
        - rewrite length_rev. exact Lr.
        - apply Forall_rev. exact Fr. }
      assert (Sq : forall k, rev (seq 1 (S k)) = S k :: rev (seq 1 k)).
      { intros k. rewrite seq_S, rev_app_distr. reflexivity. }
      destruct (trials stop_check bin_data_list combo simulation_count 0 [] st1)
        as [[rows st2]|[rows st2]]; cbn [List.length Nat.add] in T;
        destruct T as (Fr & W2 & Lr).
      * cbn [fst snd written]. rewrite W2, W. split; [|split].
        -- constructor; [apply Ok; [exact Fr|lia]|exact F].
        -- exists (S (List.length done)). split; [rewrite length_app; cbn; lia|].
           cbn [map fst]. rewrite I, Sq. reflexivity.
        -- discriminate.
      * specialize (IH (done ++ [combo])
                       (mkState (gen st2) (polls st2)
                                ((S (List.length done), rev rows) :: written st2))).
        rewrite <- app_assoc in IH. cbn [app] in IH.
        rewrite length_app in IH. cbn [List.length] in IH.
        replace (List.length done + 1)%nat with (S (List.length done)) in IH by lia.
        cbn [written] in IH. rewrite W2, W in IH. rewrite W2, W.
        destruct IH as (A & (k & Hk & Ik) & B).
        -- constructor; [apply Ok; [exact Fr|lia]|exact F].
        -- cbn [map fst]. rewrite I, Sq. reflexivity.
        -- constructor; [cbn [snd]; rewrite length_rev; exact Lr|exact C].
        -- split; [exact A|]. split; [|exact B].
           exists k. split; [lia|exact Ik].
Qed.

End TrialFacts.

Section RunRangeProperties.

Import Step7FinalCalculation Step7Range.

Lemma run_outputs (simulation_count : nat) (stop_check : stop_check_t)
  (dir : directory) (g : rng) (f : csv_file) :
  combos_file dir = Some f ->
  let result := run_monte_carlo_simulation simulation_count stop_check dir g in
  let outputs := written (snd result) in
  let combos := load_combos f in
  Forall (file_ok (_load_bin_data_memory_efficient dir) simulation_count combos) outputs /\
  (exists k, (k <= List.length combos)%nat /\ map fst outputs = rev (seq 1 k)) /\
  (fst (fst result) = true ->
   map fst outputs = rev (seq 1 (List.length combos)) /\
   Forall (fun out => List.length (snd out) = simulation_count) outputs) /\
  (forall p, stop_check = Some p -> p 0%nat = true -> combos <> [] ->
   result = (false, StoppedByUser, mkState g 1 [])).
Proof.
  intros E. cbv zeta. unfold run_monte_carlo_simulation. rewrite E.
  destruct (load_combos f) as [|c cs] eqn:Lc.
  { cbn [snd fst written map List.length]. split; [constructor|]. split.
    - exists 0%nat. split; [lia|reflexivity].
    - split; [discriminate|]. intros p _ _ N. contradiction. }
  assert (L20 : List.length (_load_bin_data_memory_efficient dir) = 20%nat)
    by (unfold _load_bin_data_memory_efficient; rewrite length_map; reflexivity).
  rewrite L20. cbn [Nat.eqb negb].
  pose proof (@combos_loop_range stop_check (_load_bin_data_memory_efficient dir)
                simulation_count (c :: cs) [] (mkState g 0 [])
                (Forall_nil _) eq_refl (Forall_nil _)) as R.
  cbv zeta in R. cbn [app List.length] in R.
  split; [|split; [|split]].
  - destruct (combos_loop stop_check simulation_count (_load_bin_data_memory_efficient dir)
                (c :: cs) 1 (mkState g 0 [])) as [[|] st]; cbn [fst snd] in *; apply R.
  - destruct R as (_ & (k & Hk & Ik) & _).
    exists k. split; [cbn [List.length]; lia|].
    destruct (combos_loop stop_check simulation_count (_load_bin_data_memory_efficient dir)
                (c :: cs) 1 (mkState g 0 [])) as [[|] st]; cbn [fst snd] in *; exact Ik.
  - destruct R as (_ & _ & B).
    destruct (combos_loop stop_check simulation_count (_load_bin_data_memory_efficient dir)
                (c :: cs) 1 (mkState g 0 [])) as [[|] st]; cbn [fst snd] in *.
    + intros _. apply B. reflexivity.
    + discriminate.
  - intros p -> P0 _. cbn [combos_loop poll polls gen written]. rewrite P0. reflexivity.
Qed.

(** X14.  Whatever the stop predicate answers and whatever the random
    draws, once the combination file is there: the output files of
    [run_monte_carlo_simulation] are those of the combinations 1 .. k in
    this order, for some k up to the number of combinations; each has at
    most [simulation_count] rows; and every simulated voltage in them lies
    between the weighted sum of the least values and the weighted sum of
    the greatest values of the 20 populations, the weights being those the
    sampler applies to the first 20 columns of the combination row.  When
    the run reports success every combination has its file, each with
    exactly [simulation_count] rows.  A stop answered at the very first
    poll ends the run before any file is written and before any random
    number is drawn. *)
Theorem simulated_voltages_in_range (simulation_count : nat) (stop_check : stop_check_t)
  (dir : directory) (g : rng) (f : csv_file) :
  combos_file dir = Some f ->
  let result := run_monte_carlo_simulation simulation_count stop_check dir g in
  let outputs := written (snd result) in
  let combos := load_combos f in
  Forall (file_ok (_load_bin_data_memory_efficient dir) simulation_count combos) outputs /\
  (exists k, (k <= List.length combos)%nat /\ map fst outputs = rev (seq 1 k)) /\
  (fst (fst result) = true ->
   map fst outputs = rev (seq 1 (List.length combos)) /\
   Forall (fun out => List.length (snd out) = simulation_count) outputs) /\
  (forall p, stop_check = Some p -> p 0%nat = true -> combos <> [] ->
   result = (false, StoppedByUser, mkState g 1 [])).
Proof. apply run_outputs. Qed.

Lemma simulated_voltages_in_range_witness :
  let dir := mkDir (Some [[Number (3#2); Number 1]])
                   (fun name => if String.eqb name "LED1_raw_data_bin_1_interpolated_loss.csv"
                                then Some [[Number 3]; [Number (16#5)]] else None) in
  let result := run_monte_carlo_simulation 2 None dir (mkRng (fun k => k) 0) in
  let outputs := written (snd result) in
  let combos := load_combos [[Number (3#2); Number 1]] in
  Forall (file_ok (_load_bin_data_memory_efficient dir) 2 combos) outputs /\
  (exists k, (k <= List.length combos)%nat /\ map fst outputs = rev (seq 1 k)) /\
  (fst (fst result) = true ->
   map fst outputs = rev (seq 1 (List.length combos)) /\
   Forall (fun out => List.length (snd out) = 2%nat) outputs) /\
  (forall p, None = Some p -> p 0%nat = true -> combos <> [] ->
   result = (false, StoppedByUser, mkState (mkRng (fun k => k) 0) 1 [])).
Proof.
  intros dir.
  exact (@simulated_voltages_in_range 2 None dir (mkRng (fun k => k) 0)
           [[Number (3#2); Number 1]] eq_refl).
Defined.

End RunRangeProperties.

(* ------------------------------------------------------------------ *)
(** ** What the summary of a sample guarantees (step7_result_curve_plotting) *)
(* ------------------------------------------------------------------ *)

Section CoverageFacts.

Import Step7ResultCurvePlotting Step7Summary.

Lemma filter_length_perm {A} (f : A -> bool) (l l' : list A) :
  Permutation l l' -> List.length (filter f l) = List.length (filter f l').
Proof.
  induction 1 as [|x l l' P IH|x y l|l l' l'' P1 IH1 P2 IH2]; simpl.
  - reflexivity.
  - destruct (f x); simpl; congruence.
  - destruct (f x), (f y); reflexivity.
  - congruence.
Qed.

Lemma filter_all {A} (f : A -> bool) (l : list A) :
  Forall (fun x => f x = true) l -> filter f l = l.
Proof.
  induction 1 as [|x l Hx F IH]; simpl; [reflexivity|]. rewrite Hx, IH. reflexivity.
Qed.

(** In a sorted list the elements with index [i .. j] lie between the
    elements [i] and [j], so at least [j - i + 1] elements do. *)
Lemma sorted_window_count (s : list Q) (i j : nat) :
  Sorted Qle s -> (i <= j < List.length s)%nat ->
  (j - i + 1 <= List.length (filter (inside (nth i s 0%Q) (nth j s 0%Q)) s))%nat.
Proof.
  intros Srt Hij.
  pose proof (sorted_nth_le Srt) as Mono.
  set (P := inside (nth i s 0) (nth j s 0)).
  rewrite <- (firstn_skipn i s) at 1.
  rewrite <- (firstn_skipn (j - i + 1) (skipn i s)).
  rewrite !filter_app, !length_app.
  assert (W : filter P (firstn (j - i + 1) (skipn i s)) = firstn (j - i + 1) (skipn i s)).
  { apply filter_all. apply Forall_forall. intros x Hx.
    apply (In_nth _ _ 0) in Hx. destruct Hx as (t & Ht & <-).
    rewrite length_firstn, length_skipn in Ht.
    rewrite nth_firstn.
    replace (t <? j - i + 1)%nat with true by (symmetry; apply Nat.ltb_lt; lia).
    rewrite nth_skipn. unfold P, inside.
    apply andb_true_iff. split; apply Qle_bool_iff; apply Mono; lia. }
  rewrite W, length_firstn, length_skipn. lia.
Qed.

(** The interval is always a pair of sorted samples [i <= j], with at
    least [min(hdi_size, n)] samples from [i] to [j]. *)
Lemma hdi_is_a_window (data : list Q) (alpha : Q) :
  data <> [] ->
  let s := np_sort data in
  let n := List.length data in
  exists i j,
    (i <= j < n)%nat /\
    calculate_highest_density_interval data alpha = (nth i s 0, nth j s 0) /\
    (Z.min (hdi_size_of alpha n) (Z.of_nat n) <= Z.of_nat (j - i + 1))%Z.
Proof.
  intros NE s n.
  assert (Hn : (1 <= n)%nat) by (unfold n; destruct data; [contradiction|simpl; lia]).
  destruct (hdi_cases alpha NE) as [C0 C1]. fold s n in C0, C1.
  destruct (Z_le_gt_dec (hdi_size_of alpha n) 0) as [Le|Gt].
  - exists 0%nat, (n - 1)%nat. split; [lia|]. split; [apply C0; exact Le|]. lia.
  - set (k := Z.to_nat (hdi_size_of alpha n)) in *.
    destruct (le_gt_dec k n) as [Hk|Hk].
    + destruct (C1 ltac:(lia) Hk) as (i & Hi & E & _).
      exists i, (i + k - 1)%nat. split; [lia|]. split; [exact E|]. lia.
    + exists 0%nat, (n - 1)%nat. split; [lia|]. split; [|lia].
      unfold calculate_highest_density_interval.
      replace (List.length data =? 0)%nat with false
        by (symmetry; apply Nat.eqb_neq; fold n; lia).
      rewrite np_sort_length. fold s n.
      replace (hdi_size_of alpha n <=? 0)%Z with false by (symmetry; apply Z.leb_gt; lia).
      fold k. replace (n + 1 - k)%nat with 0%nat by lia.
      cbn [seq fold_left]. rewrite last_nth. unfold s at 2.
      rewrite np_sort_length. reflexivity.
Qed.

End CoverageFacts.

Section SummaryProperties.

Import Step7ResultCurvePlotting Step7Summary.

Lemma sorted_sample_member (data : list Q) (i : nat) :
  (i < List.length data)%nat -> In (nth i (np_sort data) 0) data.
Proof.
  intros H. apply (Permutation_in _ (np_sort_perm data)).
  apply nth_In. rewrite np_sort_length. exact H.
Qed.

Lemma hdi_covers (data : list Q) (alpha : Q) :
  data <> [] ->
  let n := List.length data in
  let hdi := calculate_highest_density_interval data alpha in
  In (fst hdi) data /\ In (snd hdi) data /\ fst hdi <= snd hdi /\
  (Z.min (hdi_size_of alpha n) (Z.of_nat n)
   <= Z.of_nat (List.length (filter (inside (fst hdi) (snd hdi)) data)))%Z.
Proof.
  intros NE n hdi.
  destruct (hdi_is_a_window alpha NE) as (i & j & Hij & E & Hk).
  fold n in Hij, Hk. unfold hdi. rewrite E. cbn [fst snd].
  split; [apply sorted_sample_member; fold n; lia|].
  split; [apply sorted_sample_member; fold n; lia|].
  split.
  - apply (sorted_nth_le (np_sort_sorted data)). rewrite np_sort_length. fold n. lia.
  - rewrite <- (filter_length_perm _ (np_sort_perm data)).
    pose proof (@sorted_window_count (np_sort data) i j (np_sort_sorted data)) as W.
    rewrite np_sort_length in W. specialize (W Hij). lia.
Qed.

Lemma median_in_sample_range (data : list Q) :
  data <> [] ->
  exists a b, In a data /\ In b data /\ a <= np_median data /\ np_median data <= b.
Proof.
  intros NE. destruct (median_between NE) as [L U].
  assert (Hn : (1 <= List.length data)%nat) by (destruct data; [contradiction|simpl; lia]).
  exists (nth ((List.length data - 1) / 2) (np_sort data) 0),
         (nth (List.length data / 2) (np_sort data) 0).
  split; [apply sorted_sample_member; div_lia|].
  split; [apply sorted_sample_member; div_lia|].
  split; assumption.
Qed.

(** X15.  What [calculate_highest_density_interval] and
    [calculate_statistics] guarantee on a non-empty sample, for every
    [alpha]: both ends of the interval are sample values, the lower end is
    not above the upper one, and at least [floor((1 - alpha) * n)] of the
    [n] samples (all of them when that number exceeds [n]) lie inside the
    interval, ends included.  The statistics are the ends of the interval
    at alpha = 0.000063 and a median that lies between two sample
    values. *)
Theorem statistics_cover_the_sample (data : list Q) (alpha : Q) :
  data <> [] ->
  let n := List.length data in
  let hdi := calculate_highest_density_interval data alpha in
  let hdi4 := calculate_highest_density_interval data alpha_4sigma in
  In (fst hdi) data /\ In (snd hdi) data /\ fst hdi <= snd hdi /\
  (Z.min (Qfloor ((1 - alpha) * inject_Z (Z.of_nat n))) (Z.of_nat n)
   <= Z.of_nat (List.length (filter (inside (fst hdi) (snd hdi)) data)))%Z /\
  calculate_statistics data = (fst hdi4, np_median data, snd hdi4) /\
  (999937 * Z.of_nat n / 1000000
   <= Z.of_nat (List.length (filter (inside (fst hdi4) (snd hdi4)) data)))%Z /\
  exists a b, In a data /\ In b data /\ a <= np_median data /\ np_median data <= b.
Proof.
  intros NE n hdi hdi4.
  destruct (hdi_covers alpha NE) as (A & B & C & D).
  destruct (hdi_covers alpha_4sigma NE) as (_ & _ & _ & D4).
  split; [exact A|]. split; [exact B|]. split; [exact C|]. split; [exact D|].
  split; [|split].
  - unfold calculate_statistics.
    replace (List.length data =? 0)%nat with false
      by (symmetry; apply Nat.eqb_neq; destruct data; [contradiction|discriminate]).
    fold hdi4. destruct hdi4. reflexivity.
  - rewrite hdi_size_4sigma in D4. fold n hdi4 in D4.
    assert (999937 * Z.of_nat n / 1000000 <= Z.of_nat n)%Z by div_lia.
    lia.
  - apply median_in_sample_range. exact NE.
Qed.

Lemma statistics_cover_the_sample_witness :
  let data := [3; 1; 2; 2] in
  let alpha := 1 # 4 in
  let n := List.length data in
  let hdi := calculate_highest_density_interval data alpha in
  let hdi4 := calculate_highest_density_interval data alpha_4sigma in
  In (fst hdi) data /\ In (snd hdi) data /\ fst hdi <= snd hdi /\
  (Z.min (Qfloor ((1 - alpha) * inject_Z (Z.of_nat n))) (Z.of_nat n)
   <= Z.of_nat (List.length (filter (inside (fst hdi) (snd hdi)) data)))%Z /\
  calculate_statistics data = (fst hdi4, np_median data, snd hdi4) /\
  (999937 * Z.of_nat n / 1000000
   <= Z.of_nat (List.length (filter (inside (fst hdi4) (snd hdi4)) data)))%Z /\
  exists a b, In a data /\ In b data /\ a <= np_median data /\ np_median data <= b.
Proof.
  intros data alpha.
  apply (@statistics_cover_the_sample data alpha). discriminate.
Defined.

End SummaryProperties.

Section TableFacts.

Import Step7ResultCurvePlotting Step7Summary.

Local Notation "'le_idx'" := (fun a b : Z * csv_file => (fst a <= fst b)%Z).

Lemma insert_file_perm (x : Z * csv_file) (l : list (Z * csv_file)) :
  Permutation (insert_file x l) (x :: l).
Proof.
  induction l as [|y l IH]; simpl; [reflexivity|].
  destruct (fst x <=? fst y)%Z; [reflexivity|].
  rewrite IH. apply perm_swap.
Qed.

Lemma sort_files_perm (l : list (Z * csv_file)) : Permutation (sort_files l) l.
Proof.
  induction l as [|x l IH]; simpl; [reflexivity|].
  rewrite insert_file_perm. constructor. exact IH.
Qed.

Lemma insert_file_hd (x a : Z * csv_file) (l : list (Z * csv_file)) :
  (fst a <= fst x)%Z -> HdRel le_idx a l -> HdRel le_idx a (insert_file x l).
Proof.
  intros Hax Hl. destruct l as [|y l]; simpl; [constructor; exact Hax|].
  destruct (fst x <=? fst y)%Z; constructor; [exact Hax|].
  inversion Hl; assumption.
Qed.

Lemma insert_file_sorted (x : Z * csv_file) (l : list (Z * csv_file)) :
  Sorted le_idx l -> Sorted le_idx (insert_file x l).
Proof.
  induction 1 as [|y l Srt IH Hd]; simpl; [repeat constructor|].
  destruct (Z.leb_spec (fst x) (fst y)) as [E|E].
  - repeat constructor; assumption.
  - constructor; [exact IH|]. apply insert_file_hd; [lia|exact Hd].
Qed.

Lemma sort_files_sorted (l : list (Z * csv_file)) : Sorted le_idx (sort_files l).
Proof.
  induction l as [|x l IH]; simpl; [constructor|].
  apply insert_file_sorted. exact IH.
Qed.

Lemma indices_spec (listing : list (option Z * csv_file)) :
  match indices listing with
  | Some l => listing = map (fun x => (Some (fst x), snd x)) l
  | None => exists f, In (None, f) listing
  end.
Proof.
  induction listing as [|[[idx|] f] listing IH]; cbn [indices].
  - reflexivity.
  - destruct (indices listing) as [l|].
    + cbn [map fst snd]. rewrite <- IH. reflexivity.
    + destruct IH as (f' & Hf). exists f'. right. exact Hf.
  - exists f. left. reflexivity.
Qed.

Lemma sorted_map_fst (l : list (Z * csv_file)) (g : Z * csv_file -> Z * (Q * Q * Q)) :
  (forall x, fst (g x) = fst x) ->
  Sorted le_idx l -> Sorted Z.le (map fst (map g l)).
Proof.
  intros G. induction 1 as [|x l Srt IH Hd]; simpl; [constructor|].
  constructor; [exact IH|].
  destruct Hd as [|y l Hxy]; simpl; constructor. rewrite !G. exact Hxy.
Qed.

Lemma summary_row_index (idx : Z) (f : csv_file) : fst (summary_row idx f) = idx.
Proof. unfold summary_row. destruct (read_voltages f); reflexivity. Qed.

(** The statistics written for one file. *)
Lemma summary_row_values (idx : Z) (f : csv_file) (lo med hi : Q) :
  summary_row idx f = (idx, (lo, med, hi)) ->
  match read_voltages f with
  | [] => lo = 0 /\ med = 0 /\ hi = 0
  | _ :: _ =>
      In lo (read_voltages f) /\ In hi (read_voltages f) /\ lo <= hi /\
      exists a b, In a (read_voltages f) /\ In b (read_voltages f) /\ a <= med /\ med <= b
  end.
Proof.
  unfold summary_row. destruct (read_voltages f) as [|v vs] eqn:V.
  - intros E. injection E as <- <- <-. auto.
  - intros E. injection E as E.
    assert (NE : v :: vs <> []) by discriminate.
    destruct (hdi_covers alpha_4sigma NE) as (A & B & C & _).
    destruct (median_in_sample_range NE) as (a & b & Ia & Ib & La & Lb).
    unfold calculate_statistics in E.
    replace (List.length (v :: vs) =? 0)%nat with false in E by reflexivity.
    destruct (calculate_highest_density_interval (v :: vs) alpha_4sigma) as [l h].
    injection E as <- <- <-. cbn [fst snd] in *.
    repeat split; try assumption. exists a, b. auto.
Qed.

End TableFacts.

Section TableProperties.

Import Step7ResultCurvePlotting Step7Summary.

Lemma table_rows (listing : list (option Z * csv_file)) :
  let result := process_combos_voltage_results listing in
  (fst result = true <-> listing <> [] /\ Forall (fun x => fst x <> None) listing) /\
  (fst result = false -> snd result = []) /\
  (fst result = true ->
   Sorted Z.le (map fst (snd result)) /\
   List.length (snd result) = List.length listing /\
   forall idx lo med hi, In (idx, (lo, med, hi)) (snd result) ->
     exists f, In (Some idx, f) listing /\
       match read_voltages f with
       | [] => lo = 0 /\ med = 0 /\ hi = 0
       | _ :: _ =>
           In lo (read_voltages f) /\ In hi (read_voltages f) /\ lo <= hi /\
           exists a b, In a (read_voltages f) /\ In b (read_voltages f) /\
                       a <= med /\ med <= b
       end).
Proof.
  cbv zeta. unfold process_combos_voltage_results.
  pose proof (indices_spec listing) as S.
  destruct (indices listing) as [[|file files]|].
  - subst listing. cbn [fst snd map]. split; [|split].
    + split; [discriminate|]. intros [N _]. contradiction.
    + reflexivity.
    + discriminate.
  - cbn [fst snd]. split; [|split].
    + split; [|reflexivity]. intros _. subst listing. split; [discriminate|].
      apply Forall_map. apply Forall_forall. intros x _. discriminate.
    + discriminate.
    + intros _. split; [|split].
      * apply sorted_map_fst; [|apply sort_files_sorted].
        intros x. apply summary_row_index.
      * rewrite length_map, (Permutation_length (sort_files_perm _)).
        subst listing. rewrite length_map. reflexivity.
      * intros idx lo med hi Hin.
        apply in_map_iff in Hin. destruct Hin as ([i f] & E & Hf).
        cbn [fst snd] in E.
        assert (Ei : i = idx).
        { apply (f_equal fst) in E. rewrite summary_row_index in E. exact E. }
        subst i. exists f. split.
        -- apply (Permutation_in _ (sort_files_perm _)) in Hf.
           subst listing. apply in_map_iff. exists (idx, f). auto.
        -- apply (@summary_row_values idx f lo med hi E).
  - destruct S as (f & Hf). cbn [fst snd]. split; [|split].
    + split; [discriminate|]. intros [_ F].
      rewrite Forall_forall in F. specialize (F _ Hf). cbn in F. congruence.
    + reflexivity.
    + discriminate.
Qed.

(** X16.  The table written by [process_combos_voltage_results] for the
    voltage files found.  The call succeeds exactly when there is at least
    one file and [int()] accepts the index in every file name; when it
    fails no row is written.  On success there is one row per file, the
    rows ascend by combination index whatever the order of the directory
    listing, and each row belongs to a file of the listing with that
    index: three zeros when the file holds no voltage, otherwise an
    interval whose two ends are voltages of the file, the lower not above
    the upper, and a median between two voltages of the file. *)
Theorem voltage_ranges_table (listing : list (option Z * csv_file)) :
  let result := process_combos_voltage_results listing in
  (fst result = true <-> listing <> [] /\ Forall (fun x => fst x <> None) listing) /\
  (fst result = false -> snd result = []) /\
  (fst result = true ->
   Sorted Z.le (map fst (snd result)) /\
   List.length (snd result) = List.length listing /\
   forall idx lo med hi, In (idx, (lo, med, hi)) (snd result) ->
     exists f, In (Some idx, f) listing /\
       match read_voltages f with
       | [] => lo = 0 /\ med = 0 /\ hi = 0
       | _ :: _ =>
           In lo (read_voltages f) /\ In hi (read_voltages f) /\ lo <= hi /\
           exists a b, In a (read_voltages f) /\ In b (read_voltages f) /\
                       a <= med /\ med <= b
       end).
Proof. apply table_rows. Qed.

End TableProperties.

Section ReportedRangeProperties.

Import Step7FinalCalculation Step7Range Step7ResultCurvePlotting Step7Summary.

Lemma read_voltages_written (rows : list Q) :
  read_voltages (map (fun v => [Number v]) rows) = rows.
Proof.
  unfold read_voltages. induction rows as [|v rows IH]; [reflexivity|].
  cbn [map flat_map app]. rewrite IH. reflexivity.
Qed.

Lemma in_range_convex (bins : list (list Q)) (combo : list Q) (a b v : Q) :
  in_range bins combo a -> in_range bins combo b -> a <= v -> v <= b ->
  in_range bins combo v.
Proof. unfold in_range. intros [A1 A2] [B1 B2] L U. split; lra. Qed.

(** X17.  From the simulation to the table of ranges.  Take the output
    files of [run_monte_carlo_simulation], in whatever order the directory
    lists them, and let [process_combos_voltage_results] summarise them.
    Every row of the table carries the number of a combination row, and
    its HDI_Min, Median and HDI_Max are either all three zero (the file of
    that combination holds no trial yet) or all three within the range of
    that combination: between the weighted sum of the least values and
    the weighted sum of the greatest values of the 20 populations, with
    HDI_Min not above HDI_Max. *)
Theorem reported_ranges_in_range (simulation_count : nat) (stop_check : stop_check_t)
  (dir : directory) (g : rng) (f : csv_file) (listing : list (option Z * csv_file)) :
  combos_file dir = Some f ->
  Permutation listing
    (listing_of (written (snd (run_monte_carlo_simulation simulation_count stop_check dir g)))) ->
  forall idx lo med hi,
    In (idx, (lo, med, hi)) (snd (process_combos_voltage_results listing)) ->
    exists combo,
      (1 <= idx)%Z /\
      nth_error (load_combos f) (Z.to_nat idx - 1) = Some combo /\
      ((lo = 0 /\ med = 0 /\ hi = 0) \/
       (in_range (_load_bin_data_memory_efficient dir) combo lo /\
        in_range (_load_bin_data_memory_efficient dir) combo med /\
        in_range (_load_bin_data_memory_efficient dir) combo hi /\
        lo <= hi)).
Proof.
  intros E P idx lo med hi Hin.
  destruct (table_rows listing) as (_ & Off & On). cbv zeta in Off, On.
  destruct (fst (process_combos_voltage_results listing)) eqn:Ok.
  2:{ rewrite (Off eq_refl) in Hin. contradiction. }
  destruct (On eq_refl) as (_ & _ & Rows).
  destruct (Rows idx lo med hi Hin) as (file & Hf & V).
  apply (Permutation_in _ P) in Hf.
  unfold listing_of in Hf. apply in_map_iff in Hf.
  destruct Hf as ([i rows] & Eq & Hout). cbn [fst snd] in Eq.
  injection Eq as <- <-.
  rewrite read_voltages_written in V.
  destruct (@run_outputs simulation_count stop_check dir g f E) as (F & _).
  cbv zeta in F. rewrite Forall_forall in F.
  destruct (F _ Hout) as (combo & I1 & Nth & _ & R). cbn [fst snd] in I1, Nth, R.
  exists combo. split; [lia|]. split; [rewrite Nat2Z.id; exact Nth|].
  destruct rows as [|v rows]; [left; exact V|right].
  destruct V as (Ilo & Ihi & Le & a & b & Ia & Ib & La & Lb).
  rewrite Forall_forall in R.
  split; [apply R; exact Ilo|]. split; [|split; [apply R; exact Ihi|exact Le]].
  apply (@in_range_convex _ combo a b); auto.
Qed.

Lemma reported_ranges_in_range_witness :
  let dir := mkDir (Some [[Number (3#2); Number 1]])
                   (fun name => if String.eqb name "LED1_raw_data_bin_1_interpolated_loss.csv"
                                then Some [[Number 3]; [Number (16#5)]] else None) in
  let outputs := written (snd (run_monte_carlo_simulation 3 None dir (mkRng (fun k => k) 0))) in
  let row := nth 0 (snd (process_combos_voltage_results (listing_of outputs)))
                 (0%Z, (0, 0, 0)) in
  let idx := fst row in
  let lo := fst (fst (snd row)) in
  let med := snd (fst (snd row)) in
  let hi := snd (snd row) in
  exists combo,
    (1 <= idx)%Z /\
    nth_error (load_combos [[Number (3#2); Number 1]]) (Z.to_nat idx - 1) = Some combo /\
    ((lo = 0 /\ med = 0 /\ hi = 0) \/
     (in_range (_load_bin_data_memory_efficient dir) combo lo /\
      in_range (_load_bin_data_memory_efficient dir) combo med /\
      in_range (_load_bin_data_memory_efficient dir) combo hi /\
      lo <= hi)).
Proof.
  intros dir outputs row idx lo med hi.
  apply (@reported_ranges_in_range 3 None dir (mkRng (fun k => k) 0)
           [[Number (3#2); Number 1]] (listing_of outputs) eq_refl
           (Permutation_refl _) idx lo med hi).
  vm_compute. left. reflexivity.
Defined.

End ReportedRangeProperties.

(* ------------------------------------------------------------------ *)
(** ** The series counts (step6_combos_process) *)
(* ------------------------------------------------------------------ *)

Section SeriesFacts.

Import Step5Multipliers Scaling Step6Combos.

Variable series_counts : list Q.
Hypothesis five : (5 <= List.length series_counts)%nat.

Lemma index_in_range {A} (l : list A) (i : nat) (d : A) :
  (i < List.length l)%nat -> index l i = ret (nth i l d).
Proof.
  intros H. unfold index.
  destruct (nth_error l i) as [a|] eqn:E.
  - rewrite (nth_error_nth _ _ d E). reflexivity.
  - apply nth_error_None in E. lia.
Qed.

Lemma series_group_cells (row : list cell) (g : nat) :
  (g < 5)%nat ->
  series_group series_counts row g
  = ret (map (fun c => scale_value (nth g series_counts 0)
                                   (source_cell row (g * 4 + c)))
             (seq 0 4)).
Proof.
  intros Hg. unfold series_group.
  rewrite (index_in_range _ 0) by lia. cbn [bind]. f_equal.
  assert (D : forall c, (c < 4)%nat -> ((g * 4 + c) / 4 * 4 + 4 = g * 4 + 4)%nat).
  { intros c Hc. div_lia. }
  unfold source_cell. cbn [seq map].
  rewrite (D 0%nat), (D 1%nat), (D 2%nat), (D 3%nat) by lia.
  destruct (Nat.leb_spec (g * 4 + 4) (List.length row)) as [L|L].
  - assert (Ls : List.length (slice (g * 4) (g * 4 + 4) row) = 4%nat).
    { unfold slice. rewrite length_firstn, length_skipn. lia. }
    rewrite Ls. cbn [Nat.sub repeat]. rewrite app_nil_r.
    assert (S4 : slice (g * 4) (g * 4 + 4) row
                 = [nth (g * 4 + 0) row Blank; nth (g * 4 + 1) row Blank;
                    nth (g * 4 + 2) row Blank; nth (g * 4 + 3) row Blank]).
    { apply (nth_ext _ _ Blank Blank); [rewrite Ls; reflexivity|].
      intros c Hc. rewrite Ls in Hc. unfold slice.
      rewrite nth_firstn.
      replace (c <? g * 4 + 4 - g * 4)%nat with true by (symmetry; apply Nat.ltb_lt; lia).
      rewrite nth_skipn.
      destruct c as [|[|[|[|c]]]]; try lia; reflexivity. }
    rewrite S4. reflexivity.
  - reflexivity.
Qed.

Lemma series_row_cells (row : list cell) :
  series_row series_counts row
  = ret (map (fun col => scale_value (nth (col / 4) series_counts 0) (source_cell row col))
             (seq 0 20)).
Proof.
  unfold series_row. cbn [seq mapM].
  rewrite !series_group_cells by lia. cbn [bind ret]. reflexivity.
Qed.

End SeriesFacts.

Section SeriesProperties.

Import Step5Multipliers Scaling Step6Combos.

Lemma series_row_short (series_counts : list Q) (row : list cell) :
  (List.length series_counts < 5)%nat ->
  series_row series_counts row = raise IndexError.
Proof.
  intros H.
  destruct series_counts as [|a [|b [|c [|d [|e l]]]]]; cbn [List.length] in H; try lia;
    reflexivity.
Qed.

Lemma mapM_total {A B} (f : A -> result B) (g : A -> B) (l : list A) :
  (forall a, f a = ret (g a)) -> mapM f l = ret (map g l).
Proof.
  intros H. induction l as [|a l IH]; [reflexivity|].
  cbn [mapM map]. rewrite H, IH. reflexivity.
Qed.

(** X18.  What [process_combos_with_series_count] writes.  Without the
    series file, with an empty one, with a cell that is not a number in
    its first row, or without the file of combinations, it fails and
    writes nothing.  With five or more series counts it succeeds and
    writes one row of exactly 20 cells per input row (an empty input line
    included): cell [col] is the input cell [col] times the series count
    of its group [col / 4], rounded to 10 decimals, when the row is long
    enough to hold that whole group of four, and an empty cell otherwise,
    so the cells of a trailing incomplete group are dropped; cells that
    are empty or not numbers are copied.  With fewer than five series
    counts it fails and writes nothing as soon as there is one input row,
    and succeeds with an empty file when there is none. *)
Theorem series_rows_written (series_count_file uniformization_file : option csv_file) :
  let result := process_combos_with_series_count series_count_file uniformization_file in
  (series_count_file = None \/ series_count_file = Some [] \/ uniformization_file = None ->
   result = (false, None)) /\
  (forall first_row rest e,
     series_count_file = Some (first_row :: rest) -> mapM float_of first_row = inl e ->
     result = (false, None)) /\
  (forall first_row rest series_counts rows,
     series_count_file = Some (first_row :: rest) ->
     mapM float_of first_row = ret series_counts ->
     uniformization_file = Some rows ->
     ((5 <= List.length series_counts)%nat ->
      result = (true, Some (map (fun row =>
                  map (fun col => scale_value (nth (col / 4) series_counts 0)
                                              (source_cell row col)) (seq 0 20)) rows))) /\
     ((List.length series_counts < 5)%nat ->
      result = match rows with [] => (true, Some []) | _ => (false, None) end)).
Proof.
  cbv zeta. unfold process_combos_with_series_count. split; [|split].
  - intros [-> | [-> | ->]]; try reflexivity.
    destruct series_count_file as [[|first_row rest]|]; try reflexivity.
    destruct (mapM float_of first_row); reflexivity.
  - intros first_row rest e -> ->. reflexivity.
  - intros first_row rest series_counts rows -> -> ->. split.
    + intros H5. unfold ret at 1. cbv iota beta.
      rewrite (mapM_total _ _ _ (@series_row_cells series_counts H5)). reflexivity.
    + intros H. unfold ret at 1. cbv iota beta.
      destruct rows as [|row rows]; [reflexivity|].
      cbn [mapM]. rewrite (@series_row_short series_counts row H). reflexivity.
Qed.

Lemma series_rows_written_witness :
  process_combos_with_series_count
    (Some [[Number 2; Number 3; Number 1; Number 1; Number 1]])
    (Some [[Number (1#2); Number (1#2); Blank; Text "x"; Number 1; Number 1]])
  = (true, Some (map (fun row =>
       map (fun col => scale_value (nth (col / 4) [2; 3; 1; 1; 1] 0) (source_cell row col))
           (seq 0 20))
       [[Number (1#2); Number (1#2); Blank; Text "x"; Number 1; Number 1]])).
Proof.
  apply (proj1 (proj2 (proj2 (series_rows_written
           (Some [[Number 2; Number 3; Number 1; Number 1; Number 1]])
           (Some [[Number (1#2); Number (1#2); Blank; Text "x"; Number 1; Number 1]])))
         [Number 2; Number 3; Number 1; Number 1; Number 1] [] [2; 3; 1; 1; 1]
         [[Number (1#2); Number (1#2); Blank; Text "x"; Number 1; Number 1]]
         eq_refl eq_refl eq_refl)).
  simpl. lia.
Defined.

End SeriesProperties.

Section SeriesWeightFacts.

Import Step4Calc3 Step5Multipliers Scaling Step6Combos Step7FinalCalculation.

Lemma fmt10_of_zero (x : Q) : x == 0 -> fmt10 x == 0.
Proof.
  intros E. unfold fmt10. rewrite round_half_even_zero by (rewrite E; ring). reflexivity.
Qed.

Lemma parse_numbers (vals : list Q) :
  vals <> [] -> parse_combo_row (map Number vals) = Some vals.
Proof.
  intros N. unfold parse_combo_row.
  assert (M : mapM (fun c => match c with
                             | Blank => ret 0
                             | Number q => ret q
                             | Text s => raise (ValueError s)
                             end) (map Number vals) = ret vals).
  { clear N. induction vals as [|v vals IH]; [reflexivity|].
    cbn [map mapM bind]. rewrite IH. reflexivity. }
  rewrite M. destruct vals; [contradiction|reflexivity].
Qed.

Lemma twenty_elements (l : list Q) :
  List.length l = 20%nat -> l = map (fun i => nth i l 0) (seq 0 20).
Proof.
  intros H. apply (nth_ext _ _ 0 0).
  - rewrite length_map, length_seq. exact H.
  - intros i Hi. rewrite H in Hi.
    do 20 (destruct i as [|i]; [reflexivity|]). lia.
Qed.

(** The row written by step 6 for a row of 20 numbers, as step 7 reads
    it. *)
Lemma series_row_of_numbers (series_counts row : list Q) :
  (5 <= List.length series_counts)%nat -> List.length row = 20%nat ->
  series_row series_counts (map Number row)
  = ret (map Number (map (fun col => fmt10 (nth col row 0 * nth (col / 4) series_counts 0))
                         (seq 0 20))).
Proof.
  intros H5 L. rewrite (@series_row_cells series_counts H5). f_equal.
  rewrite map_map. apply map_ext_in. intros col Hc. apply in_seq in Hc.
  unfold source_cell. rewrite length_map, L.
  replace (col / 4 * 4 + 4 <=? 20)%nat with true by (symmetry; apply Nat.leb_le; div_lia).
  replace (nth col (map Number row) Blank) with (Number (nth col row 0)).
  - reflexivity.
  - rewrite (nth_indep _ Blank (Number 0)) by (rewrite length_map; lia).
    rewrite (map_nth Number). reflexivity.
Qed.

Lemma group_of_columns (f : nat -> Q) (g : nat) :
  (g < 5)%nat ->
  group_of g (map f (seq 0 20))
  = [f (g * 4)%nat; f (g * 4 + 1)%nat; f (g * 4 + 2)%nat; f (g * 4 + 3)%nat].
Proof.
  intros H. destruct g as [|[|[|[|[|g]]]]]; try lia; reflexivity.
Qed.

Lemma scaled_sum_close (a b c d s : Q) (e : Q) :
  Qabs (0 + a + b + c + d - 1) <= e ->
  Qabs (0 + fmt10 (a * s) + fmt10 (b * s) + fmt10 (c * s) + fmt10 (d * s) - s)
  <= e * Qabs s + (2 # 10000000000).
Proof.
  intros H.
  pose proof (fmt10_close (a * s)) as Ha. pose proof (fmt10_close (b * s)) as Hb.
  pose proof (fmt10_close (c * s)) as Hc. pose proof (fmt10_close (d * s)) as Hd.
  apply Qabs_Qle_condition in H. apply Qabs_Qle_condition in Ha.
  apply Qabs_Qle_condition in Hb. apply Qabs_Qle_condition in Hc.
  apply Qabs_Qle_condition in Hd.
  set (fa := fmt10 (a * s)) in *. set (fb := fmt10 (b * s)) in *.
  set (fc := fmt10 (c * s)) in *. set (fd := fmt10 (d * s)) in *.
  apply Qabs_Qle_condition.
  destruct (Qlt_le_dec s 0) as [Neg|Pos].
  - rewrite (Qabs_neg s) by lra. split; nra.
  - rewrite (Qabs_pos s) by lra. split; nra.
Qed.

End SeriesWeightFacts.

Section SeriesWeightProperties.

Import Step4Calc3 Step5Multipliers Scaling Step6Combos Step7FinalCalculation.

(** X19.  From the normalised combinations to the sample counts of the
    simulation.  Take a row of 20 numbers, none negative and none above
    1e300 (where binary64 follows the exact arithmetic up to rounding:
    no cancellation, no overflow), through [process_row] (step 4,
    normalisation and 6-decimal output), the written row through
    [process_combos_with_series_count] with five series counts, and the row
    written there through the row parser of the simulation.  The result is
    a combination of 20 sample counts in which, for each group of four:
    when the group had a positive sum, the four counts add up to the
    series count of the group within 2e-6 * |series count| + 2e-10; when
    the group had a sum of zero, the four counts are zero. *)
Theorem series_weights_sum (vals series_counts : list Q) :
  List.length vals = 20%nat ->
  Forall (fun v => 0 <= v <= 1e300) vals ->
  (5 <= List.length series_counts)%nat ->
  exists outrow written combo,
    process_row (map Number vals) = ret outrow /\
    series_row series_counts (map Number outrow) = ret written /\
    parse_combo_row written = Some combo /\
    List.length combo = 20%nat /\
    forall g, (g < 5)%nat ->
      let s := nth g series_counts 0 in
      (0 < sum (group_of g vals) ->
       Qabs (sum (group_of g combo) - s) <= (2 # 1000000) * Qabs s + (2 # 10000000000)) /\
      (sum (group_of g vals) <= 0 -> Forall (fun w => w == 0) (group_of g combo)).
Proof.
  intros H _ H5.
  destruct (normalize_vals_spec vals H) as (out & E & L & G).
  set (outrow := map _fmt out).
  assert (Lo : List.length outrow = 20%nat) by (unfold outrow; rewrite length_map; exact L).
  set (combo := map (fun col => fmt10 (nth col outrow 0 * nth (col / 4) series_counts 0))
                    (seq 0 20)).
  exists outrow, (map Number combo), combo.
  split; [apply process_row_numbers; assumption|].
  split; [apply series_row_of_numbers; assumption|].
  split; [apply parse_numbers; discriminate|].
  split; [reflexivity|].
  intros g Hg s.
  destruct (G g Hg) as [Lg Eg].
  assert (Og : group_of g outrow
               = [nth (g * 4) outrow 0; nth (g * 4 + 1) outrow 0;
                  nth (g * 4 + 2) outrow 0; nth (g * 4 + 3) outrow 0]).
  { rewrite (twenty_elements outrow Lo) at 1.
    apply (group_of_columns (fun i => nth i outrow 0) Hg). }
  assert (Fg : group_of g outrow = map _fmt (norm4 (group_of g vals))).
  { unfold outrow. rewrite group_of_map, Eg. reflexivity. }
  assert (Cg : group_of g combo
               = [fmt10 (nth (g * 4) outrow 0 * s); fmt10 (nth (g * 4 + 1) outrow 0 * s);
                  fmt10 (nth (g * 4 + 2) outrow 0 * s); fmt10 (nth (g * 4 + 3) outrow 0 * s)]).
  { unfold combo.
    rewrite (group_of_columns
               (fun col => fmt10 (nth col outrow 0 * nth (col / 4) series_counts 0)) Hg).
    cbv beta.
    replace ((g * 4) / 4)%nat with g by div_lia.
    replace ((g * 4 + 1) / 4)%nat with g by div_lia.
    replace ((g * 4 + 2) / 4)%nat with g by div_lia.
    replace ((g * 4 + 3) / 4)%nat with g by div_lia.
    reflexivity. }
  rewrite Cg. split.
  - intros Pos.
    pose proof (fmt_group_sum (group_of g vals) Lg Pos) as S.
    rewrite <- Fg, Og, sum4 in S. rewrite sum4.
    exact (@scaled_sum_close _ _ _ _ s _ S).
  - intros NonPos.
    assert (Z : norm4 (group_of g vals) = [0; 0; 0; 0]).
    { unfold norm4.
      replace (Qgtb (sum (group_of g vals)) 0) with false
        by (symmetry; apply Qgtb_le; exact NonPos).
      reflexivity. }
    rewrite Z in Fg. rewrite Og in Fg. cbn [map] in Fg.
    injection Fg as -> -> -> ->.
    repeat constructor; apply fmt10_of_zero;
      (assert (F0 : _fmt 0 == 0) by reflexivity); rewrite F0; ring.
Qed.

Lemma series_weights_sum_witness :
  exists outrow written combo,
    process_row (map Number [1; 3; 0; 0; 0; 0; 0; 0; 2; 2; 2; 2; 0; 0; 0; 0; 5; 0; 0; 0])
    = ret outrow /\
    series_row [2; 3; 4; 5; 6] (map Number outrow) = ret written /\
    parse_combo_row written = Some combo /\
    List.length combo = 20%nat /\
    forall g, (g < 5)%nat ->
      let s := nth g [2; 3; 4; 5; 6] 0 in
      (0 < sum (group_of g [1; 3; 0; 0; 0; 0; 0; 0; 2; 2; 2; 2; 0; 0; 0; 0; 5; 0; 0; 0]) ->
       Qabs (sum (group_of g combo) - s) <= (2 # 1000000) * Qabs s + (2 # 10000000000)) /\
      (sum (group_of g [1; 3; 0; 0; 0; 0; 0; 0; 2; 2; 2; 2; 0; 0; 0; 0; 5; 0; 0; 0]) <= 0 ->
       Forall (fun w => w == 0) (group_of g combo)).
Proof.
  apply (@series_weights_sum
           [1; 3; 0; 0; 0; 0; 0; 0; 2; 2; 2; 2; 0; 0; 0; 0; 5; 0; 0; 0] [2; 3; 4; 5; 6]).
  - reflexivity.
  - repeat (apply Forall_cons; [split; apply Qle_bool_imp_le; reflexivity|]).
    apply Forall_nil.
  - simpl. lia.
Defined.

End SeriesWeightProperties.

(* ------------------------------------------------------------------ *)
(** ** The final table lines up (step8_summary_output) *)
(* ------------------------------------------------------------------ *)

Section AlignmentFacts.

Import Step7FinalCalculation Step7Range Step7ResultCurvePlotting Step7Summary.
Import Step8SummaryOutput.

(** Two ascending lists with the same elements are the same list. *)
Lemma sorted_perm_eq (l l' : list Z) :
  Sorted Z.le l -> Sorted Z.le l' -> Permutation l l' -> l = l'.
Proof.
  intros S S'.
  apply Sorted_StronglySorted in S; [|exact Z.le_trans].
  apply Sorted_StronglySorted in S'; [|exact Z.le_trans].
  revert l' S'. induction S as [|x l S IH F]; intros l' S' P.
  - apply Permutation_nil in P. congruence.
  - destruct S' as [|y l' S' F'].
    + apply Permutation_sym, Permutation_nil in P. discriminate.
    + assert (Exy : x = y).
      { rewrite Forall_forall in F, F'.
        assert (Hy : In y (x :: l)) by (apply (Permutation_in _ (Permutation_sym P)); left; reflexivity).
        assert (Hx : In x (y :: l')) by (apply (Permutation_in _ P); left; reflexivity).
        destruct Hy as [E|Hy]; [exact E|]. destruct Hx as [E|Hx]; [congruence|].
        specialize (F _ Hy). specialize (F' _ Hx). lia. }
      subst y. f_equal. apply IH; [exact S'|].
      apply (Permutation_cons_inv P).
Qed.

Lemma seq_sorted (start n : nat) : Sorted Z.le (map Z.of_nat (seq start n)).
Proof.
  revert start. induction n as [|n IH]; intros start; cbn [seq map]; [constructor|].
  constructor; [apply IH|].
  destruct n; cbn [seq map]; constructor. lia.
Qed.

Lemma indices_of_listing (files : list (Z * csv_file)) :
  indices (map (fun x => (Some (fst x), snd x)) files) = Some files.
Proof.
  induction files as [|[i f] files IH]; [reflexivity|].
  cbn [map indices fst snd]. rewrite IH. reflexivity.
Qed.

(** The table of a listing whose indices are 1 .. n in some order: row
    [i] is the row of combination [i + 1]. *)
Lemma table_of_complete_listing (listing : list (option Z * csv_file)) (n : nat) :
  (1 <= n)%nat ->
  Permutation (map fst listing) (map (fun i => Some (Z.of_nat i)) (seq 1 n)) ->
  fst (process_combos_voltage_results listing) = true /\
  map fst (snd (process_combos_voltage_results listing)) = map Z.of_nat (seq 1 n).
Proof.
  intros Hn P. unfold process_combos_voltage_results.
  pose proof (indices_spec listing) as S.
  destruct (indices listing) as [files|].
  2:{ destruct S as (f & Hf). exfalso.
      assert (I : In None (map fst listing)).
      { apply in_map_iff. exists (None, f). auto. }
      apply (Permutation_in _ P) in I. apply in_map_iff in I.
      destruct I as (i & E & _). discriminate. }
  subst listing. rewrite map_map in P. cbn [fst] in P.
  assert (Pz : Permutation (map fst files) (map Z.of_nat (seq 1 n))).
  { apply (Permutation_map (fun o => match o with Some z => z | None => 0%Z end)) in P.
    rewrite !map_map in P. cbn beta iota in P.
    erewrite (map_ext (fun x => fst x)) ; [exact P|]. reflexivity. }
  destruct files as [|file files].
  { apply Permutation_length in Pz. rewrite !length_map, length_seq in Pz.
    simpl in Pz. lia. }
  cbn [fst snd]. split; [reflexivity|].
  rewrite map_map.
  erewrite (map_ext (fun x => fst (summary_row (fst x) (snd x))) fst)
    by (intros x; apply summary_row_index).
  apply sorted_perm_eq.
  - pose proof (sort_files_sorted (file :: files)) as Srt.
    clear - Srt. induction Srt as [|x l Srt IH Hd]; cbn [map]; constructor; [exact IH|].
    destruct Hd; cbn [map]; constructor. assumption.
  - apply seq_sorted.
  - rewrite (Permutation_map fst (sort_files_perm (file :: files))). exact Pz.
Qed.

End AlignmentFacts.

Section AlignmentSteps.

Import Step7FinalCalculation Step7Range Step7ResultCurvePlotting Step7Summary.
Import Step8SummaryOutput.

Lemma table_entries (listing : list (option Z * csv_file)) (row : Z * (Q * Q * Q)) :
  In row (snd (process_combos_voltage_results listing)) ->
  exists f, In (Some (fst row), f) listing /\ row = summary_row (fst row) f.
Proof.
  unfold process_combos_voltage_results.
  pose proof (indices_spec listing) as S.
  destruct (indices listing) as [[|file files]|]; cbn [snd]; try contradiction.
  intros Hin. apply in_map_iff in Hin. destruct Hin as ([i f] & E & Hf).
  cbn [fst snd] in E. subst row. rewrite summary_row_index.
  exists f. split; [|reflexivity].
  apply (Permutation_in _ (sort_files_perm _)) in Hf.
  subst listing. apply in_map_iff. exists (i, f). auto.
Qed.

Lemma ranges_read_back (table : list (Z * (Q * Q * Q))) :
  read_voltage_ranges_data (ranges_file_of table)
  = map (fun r => [Index (fst r); Value (fst (fst (snd r))); Value (snd (fst (snd r)));
                   Value (snd (snd r))]) table.
Proof.
  unfold read_voltage_ranges_data, ranges_file_of. cbn [tl].
  apply filter_all. apply Forall_map. apply Forall_forall. intros r _. reflexivity.
Qed.

(** A successful run has at least one combination, and its output files
    are those of the combinations 1 .. n, complete. *)
Lemma complete_run (simulation_count : nat) (stop_check : stop_check_t)
  (dir : directory) (g : rng) (f : csv_file) :
  combos_file dir = Some f ->
  fst (fst (run_monte_carlo_simulation simulation_count stop_check dir g)) = true ->
  (1 <= List.length (load_combos f))%nat /\
  map fst (written (snd (run_monte_carlo_simulation simulation_count stop_check dir g)))
  = rev (seq 1 (List.length (load_combos f))) /\
  Forall (fun out => List.length (snd out) = simulation_count)
         (written (snd (run_monte_carlo_simulation simulation_count stop_check dir g))).
Proof.
  intros E Ok.
  destruct (@run_outputs simulation_count stop_check dir g f E) as (_ & _ & C & _).
  cbv zeta in C. destruct (C Ok) as [I F].
  split; [|split; assumption].
  destruct (load_combos f) as [|c cs] eqn:Lc; [|simpl; lia].
  unfold run_monte_carlo_simulation in Ok. rewrite E, Lc in Ok. discriminate Ok.
Qed.

End AlignmentSteps.

Section AlignmentProperties.

Import Step7FinalCalculation Step7Range Step7ResultCurvePlotting Step7Summary.
Import Step8SummaryOutput.

(** X23.  The rows of the final sheet line up with the combinations.
    Take a run of [run_monte_carlo_simulation] that reported success, the
    table [process_combos_voltage_results] makes of its output files (in
    whatever order the directory lists them), and a file of combination
    texts.  [generate_summary_output] then succeeds exactly when the text
    file has as many non-empty rows as there are combinations.  When it
    does, the sheet has one row per combination, and row [i] (from 0)
    holds the combined text of text row [i] next to the three statistics
    of the output file of combination [i + 1], which has
    [simulation_count] rows: the files are ordered by the number in their
    name, not by the order of the listing or of the names as text. *)
Theorem summary_rows_line_up (simulation_count : nat) (stop_check : stop_check_t)
  (dir : directory) (g : rng) (f : csv_file) (listing : list (option Z * csv_file))
  (text_file : list (list string)) :
  combos_file dir = Some f ->
  fst (fst (run_monte_carlo_simulation simulation_count stop_check dir g)) = true ->
  Permutation listing
    (listing_of (written (snd (run_monte_carlo_simulation simulation_count stop_check dir g)))) ->
  let outputs := written (snd (run_monte_carlo_simulation simulation_count stop_check dir g)) in
  let n := List.length (load_combos f) in
  let table := snd (process_combos_voltage_results listing) in
  let text := read_combos_text_data text_file in
  let result :=
    generate_summary_output (Heading "0") (Some text_file) (Some (ranges_file_of table)) in
  (fst result = true <-> List.length text = n) /\
  (fst result = true ->
   List.length (snd result) = n /\
   forall i, (i < n)%nat ->
     exists rows lo med hi,
       In (S i, rows) outputs /\ List.length rows = simulation_count /\
       summary_row (Z.of_nat (S i)) (map (fun v => [Number v]) rows)
       = (Z.of_nat (S i), (lo, med, hi)) /\
       nth i (snd result) (EmptyString, Heading "0", Heading "0", Heading "0")
       = (combine_text_row (nth i text []), Value lo, Value med, Value hi)).
Proof.
  intros E Ok P outputs n table text result.
  destruct (complete_run simulation_count stop_check dir g E Ok) as (Hn & I & F).
  fold outputs in I, F, P. fold n in Hn, I.
  assert (Pl : Permutation (map fst listing) (map (fun i => Some (Z.of_nat i)) (seq 1 n))).
  { rewrite (Permutation_map fst P). unfold listing_of. rewrite map_map. cbn [fst].
    rewrite <- (map_map fst (fun i => Some (Z.of_nat i))), I.
    apply Permutation_map. apply Permutation_sym, Permutation_rev. }
  destruct (table_of_complete_listing listing Hn Pl) as [Tok Tidx]. fold table in Tidx.
  assert (Tlen : List.length table = n).
  { rewrite <- (length_map fst table), Tidx, length_map, length_seq. reflexivity. }
  assert (Rlen : List.length (read_voltage_ranges_data (ranges_file_of table)) = n).
  { rewrite ranges_read_back, length_map. exact Tlen. }
  unfold result, generate_summary_output. fold text. rewrite Rlen.
  destruct (Nat.eqb_spec (List.length text) 0) as [Z|NZ].
  { cbn [fst snd]. split; [split; [discriminate|lia]|discriminate]. }
  destruct (Nat.eqb_spec n (List.length text)) as [Eq|Ne]; cbn [negb fst snd].
  2:{ split; [split; [discriminate|intros H; congruence]|discriminate]. }
  split; [split; [congruence|reflexivity]|]. intros _.
  rewrite length_map, length_seq. split; [congruence|].
  intros i Hi.
  assert (Ti : fst (nth i table (0%Z, (0, 0, 0))) = Z.of_nat (S i)).
  { change (fst (nth i table (0%Z, (0, 0, 0)))) with (fst (nth i table (0%Z, (0, 0, 0)))).
    rewrite <- (map_nth fst table). rewrite Tidx.
    rewrite (nth_indep _ (fst (0%Z, (0, 0, 0))) (Z.of_nat 0))
      by (rewrite length_map, length_seq; exact Hi).
    rewrite (map_nth Z.of_nat), seq_nth by exact Hi. reflexivity. }
  assert (Tin : In (nth i table (0%Z, (0, 0, 0))) table) by (apply nth_In; lia).
  destruct (table_entries listing _ Tin) as (file & Hf & Er).
  rewrite Ti in Hf, Er.
  apply (Permutation_in _ P) in Hf. unfold listing_of in Hf.
  apply in_map_iff in Hf. destruct Hf as ([idx rows] & Eo & Ho). cbn [fst snd] in Eo.
  assert (Ei : idx = S i) by (apply Nat2Z.inj; congruence).
  assert (Ef : file = map (fun v => [Number v]) rows) by congruence.
  subst idx file. clear Eo.
  rewrite Forall_forall in F. pose proof (F _ Ho) as Lr. cbn [snd] in Lr.
  destruct (summary_row (Z.of_nat (S i)) (map (fun v => [Number v]) rows))
    as [idx [[lo med] hi]] eqn:Sr.
  assert (Eidx : idx = Z.of_nat (S i)).
  { apply (f_equal fst) in Sr. rewrite summary_row_index in Sr. cbn [fst] in Sr. congruence. }
  subst idx.
  exists rows, lo, med, hi.
  split; [exact Ho|]. split; [exact Lr|]. split; [exact Sr|].
  rewrite (nth_indep _ _ ((fun i0 =>
             (combine_text_row (nth i0 text []),
              nth 1 (nth i0 (read_voltage_ranges_data (ranges_file_of table)) []) (Heading "0"),
              nth 2 (nth i0 (read_voltage_ranges_data (ranges_file_of table)) []) (Heading "0"),
              nth 3 (nth i0 (read_voltage_ranges_data (ranges_file_of table)) []) (Heading "0")))
             0%nat))
    by (rewrite length_map, length_seq; lia).
  rewrite (map_nth (fun i0 =>
             (combine_text_row (nth i0 text []),
              nth 1 (nth i0 (read_voltage_ranges_data (ranges_file_of table)) []) (Heading "0"),
              nth 2 (nth i0 (read_voltage_ranges_data (ranges_file_of table)) []) (Heading "0"),
              nth 3 (nth i0 (read_voltage_ranges_data (ranges_file_of table)) []) (Heading "0")))).
  rewrite seq_nth by lia. cbn [Nat.add].
  rewrite ranges_read_back.
  rewrite (nth_indep _ [] ((fun r : Z * (Q * Q * Q) =>
             [Index (fst r); Value (fst (fst (snd r))); Value (snd (fst (snd r)));
              Value (snd (snd r))]) (0%Z, (0, 0, 0))))
    by (rewrite length_map; lia).
  rewrite (map_nth (fun r : Z * (Q * Q * Q) =>
             [Index (fst r); Value (fst (fst (snd r))); Value (snd (fst (snd r)));
              Value (snd (snd r))])).
  rewrite Er. cbn [nth fst snd]. reflexivity.
Qed.

Lemma summary_rows_line_up_witness :
  let dir := mkDir (Some [[Number (3#2); Number 1]; [Number 2]])
                   (fun name => if String.eqb name "LED1_raw_data_bin_1_interpolated_loss.csv"
                                then Some [[Number 3]; [Number (16#5)]] else None) in
  let text_file := [["(2.9-3.3) 1.5"; "0"]; []; ["(2.9-3.3) 2"]]%string in
  let outputs := written (snd (run_monte_carlo_simulation 2 None dir (mkRng (fun k => k) 0))) in
  let n := List.length (load_combos [[Number (3#2); Number 1]; [Number 2]]) in
  let table := snd (process_combos_voltage_results (rev (listing_of outputs))) in
  let text := read_combos_text_data text_file in
  let result :=
    generate_summary_output (Heading "0") (Some text_file) (Some (ranges_file_of table)) in
  (fst result = true <-> List.length text = n) /\
  (fst result = true ->
   List.length (snd result) = n /\
   forall i, (i < n)%nat ->
     exists rows lo med hi,
       In (S i, rows) outputs /\ List.length rows = 2%nat /\
       summary_row (Z.of_nat (S i)) (map (fun v => [Number v]) rows)
       = (Z.of_nat (S i), (lo, med, hi)) /\
       nth i (snd result) (EmptyString, Heading "0", Heading "0", Heading "0")
       = (combine_text_row (nth i text []), Value lo, Value med, Value hi)).
Proof.
  intros dir text_file outputs.
  apply (@summary_rows_line_up 2 None dir (mkRng (fun k => k) 0)
           [[Number (3#2); Number 1]; [Number 2]] (rev (listing_of outputs)) text_file).
  - reflexivity.
  - vm_compute. reflexivity.
  - apply Permutation_sym, Permutation_rev.
Defined.

End AlignmentProperties.

Section CombineTextFacts.

Import Step8SummaryOutput.

Lemma kept_not_empty (cell : string) : kept cell = true -> cell <> EmptyString.
Proof. intros K ->. discriminate K. Qed.

Lemma append_not_empty (a b : string) : a <> EmptyString -> (a ++ b)%string <> EmptyString.
Proof. destruct a; [contradiction|discriminate]. Qed.

Lemma join_not_empty (sep : string) (l : list string) :
  l <> [] -> Forall (fun x => x <> EmptyString) l -> join sep l <> EmptyString.
Proof.
  intros N F. destruct l as [|x l]; [contradiction|].
  inversion F as [|? ? Hx _]; subst. cbn [join].
  destruct l; [exact Hx|]. apply append_not_empty. exact Hx.
Qed.

Lemma group_text_spec (group_cells : list string) :
  (group_text group_cells = [] <-> Forall (fun cell => kept cell = false) group_cells) /\
  Forall (fun x => x <> EmptyString) (group_text group_cells).
Proof.
  unfold group_text. cbv zeta.
  destruct (filter kept group_cells) as [|c cs] eqn:E.
  - split; [|constructor]. split; [|reflexivity]. intros _.
    apply Forall_forall. intros cell Hc.
    destruct (kept cell) eqn:K; [|reflexivity].
    assert (I : In cell (filter kept group_cells)) by (apply filter_In; auto).
    rewrite E in I. contradiction.
  - split.
    + split; [discriminate|]. intros F. exfalso.
      assert (I : In c (filter kept group_cells)) by (rewrite E; left; reflexivity).
      apply filter_In in I. destruct I as [I K].
      rewrite Forall_forall in F. rewrite (F _ I) in K. discriminate.
    + constructor; [|constructor]. apply join_not_empty; [discriminate|].
      rewrite <- E. apply Forall_forall. intros x Hx.
      apply filter_In in Hx. apply kept_not_empty. tauto.
Qed.

Lemma twenty_cells (l : list string) :
  List.length l = 20%nat ->
  exists c0 c1 c2 c3 c4 c5 c6 c7 c8 c9 c10 c11 c12 c13 c14 c15 c16 c17 c18 c19,
    l = [c0; c1; c2; c3; c4; c5; c6; c7; c8; c9; c10; c11; c12; c13; c14; c15; c16; c17;
         c18; c19].
Proof.
  intros H.
  do 20 (destruct l as [|? l]; [discriminate H|]).
  destruct l; [|discriminate H].
  repeat eexists.
Qed.

End CombineTextFacts.

Section CombineTextProperties.

Import Step8SummaryOutput.

Lemma slice_of_first (b e n : nat) (l : list string) :
  (b <= e <= n)%nat -> slice b e (firstn n l) = slice b e l.
Proof.
  intros H. unfold slice. rewrite skipn_firstn_comm, firstn_firstn.
  f_equal. lia.
Qed.

Lemma combine_text_row_groups (row_data : list string) :
  let padded := row_data ++ repeat EmptyString (20 - List.length row_data) in
  combine_text_row row_data
  = join " + " (flat_map (fun g => group_text (slice (g * 4) (g * 4 + 4) (firstn 20 padded)))
                         (seq 0 5)).
Proof.
  cbv zeta. unfold combine_text_row. cbn [seq flat_map].
  rewrite !slice_of_first by lia. reflexivity.
Qed.

Lemma kept_false (cell : string) :
  kept cell = false <-> cell = "0"%string \/ blank cell = true.
Proof.
  unfold kept. rewrite andb_false_iff, !negb_false_iff, String.eqb_eq. tauto.
Qed.

(** X24.  [combine_text_row] looks at the first 20 cells only (a shorter
    row counts as padded with empty cells), and its result is the empty
    text exactly when each of these cells is the text [0] or blank. *)
Theorem combine_text_row_empty (row_data : list string) :
  combine_text_row row_data = combine_text_row (firstn 20 row_data) /\
  (combine_text_row row_data = EmptyString <->
   Forall (fun cell => cell = "0"%string \/ blank cell = true) (firstn 20 row_data)).
Proof.
  assert (G : forall row,
    combine_text_row row = EmptyString <->
    Forall (fun cell => kept cell = false)
           (firstn 20 (row ++ repeat EmptyString (20 - List.length row)))).
  { intros row. rewrite combine_text_row_groups.
    set (p := firstn 20 (row ++ repeat EmptyString (20 - List.length row))).
    assert (Lp : List.length p = 20%nat).
    { unfold p. rewrite length_firstn, length_app, repeat_length. lia. }
    destruct (twenty_cells p Lp)
      as (c0 & c1 & c2 & c3 & c4 & c5 & c6 & c7 & c8 & c9 & c10 & c11 & c12 & c13 & c14
          & c15 & c16 & c17 & c18 & c19 & ->).
    cbn [seq flat_map Nat.mul Nat.add]. unfold slice. cbn [skipn firstn Nat.sub].
    rewrite app_nil_r.
    destruct (group_text_spec [c0; c1; c2; c3]) as [E0 N0].
    destruct (group_text_spec [c4; c5; c6; c7]) as [E1 N1].
    destruct (group_text_spec [c8; c9; c10; c11]) as [E2 N2].
    destruct (group_text_spec [c12; c13; c14; c15]) as [E3 N3].
    destruct (group_text_spec [c16; c17; c18; c19]) as [E4 N4].
    set (g0 := group_text [c0; c1; c2; c3]) in *.
    set (g1 := group_text [c4; c5; c6; c7]) in *.
    set (g2 := group_text [c8; c9; c10; c11]) in *.
    set (g3 := group_text [c12; c13; c14; c15]) in *.
    set (g4 := group_text [c16; c17; c18; c19]) in *.
    assert (J : join " + " (g0 ++ g1 ++ g2 ++ g3 ++ g4) = EmptyString <->
                g0 ++ g1 ++ g2 ++ g3 ++ g4 = []).
    { split; [|intros ->; reflexivity].
      intros E. destruct (g0 ++ g1 ++ g2 ++ g3 ++ g4) as [|x l] eqn:A; [reflexivity|].
      exfalso. revert E. apply join_not_empty; [discriminate|].
      rewrite <- A. repeat (apply Forall_app; split); assumption. }
    rewrite J.
    change [c0; c1; c2; c3; c4; c5; c6; c7; c8; c9; c10; c11; c12; c13; c14; c15; c16; c17;
            c18; c19]
      with ([c0; c1; c2; c3] ++ [c4; c5; c6; c7] ++ [c8; c9; c10; c11]
            ++ [c12; c13; c14; c15] ++ [c16; c17; c18; c19]).
    rewrite !Forall_app, <- E0, <- E1, <- E2, <- E3, <- E4.
    split.
    - intros A. apply app_eq_nil in A. destruct A as [-> A].
      apply app_eq_nil in A. destruct A as [-> A].
      apply app_eq_nil in A. destruct A as [-> A].
      apply app_eq_nil in A. destruct A as [-> ->]. auto.
    - intros (-> & -> & -> & -> & ->). reflexivity. }
  assert (P : forall row,
    firstn 20 (row ++ repeat EmptyString (20 - List.length row))
    = firstn 20 row ++ repeat EmptyString (20 - List.length row)).
  { intros row. rewrite firstn_app.
    replace (firstn (20 - List.length row) (repeat EmptyString (20 - List.length row)))
      with (repeat EmptyString (20 - List.length row)); [reflexivity|].
    symmetry. rewrite <- (repeat_length EmptyString (20 - List.length row)) at 1.
    apply firstn_all. }
  split.
  - rewrite (combine_text_row_groups row_data), (combine_text_row_groups (firstn 20 row_data)).
    cbv zeta. rewrite !P, firstn_firstn, length_firstn.
    replace (Nat.min 20 20) with 20%nat by reflexivity.
    replace (20 - Nat.min 20 (List.length row_data))%nat
      with (20 - List.length row_data)%nat by lia.
    reflexivity.
  - rewrite G, P, Forall_app. split.
    + intros [A _]. eapply Forall_impl; [|exact A]. intros cell. apply kept_false.
    + intros A. split.
      * eapply Forall_impl; [|exact A]. intros cell. apply kept_false.
      * apply Forall_forall. intros cell Hc. apply repeat_spec in Hc. subst cell. reflexivity.
Qed.

End CombineTextProperties.

(* ------------------------------------------------------------------ *)
(** ** The percentages are fractions (step4_mixbin_calc_3) *)
(* ------------------------------------------------------------------ *)

Section FractionFacts.

Import Step4Calc3.

Lemma round6_unit (p : Q) : 0 <= p -> p <= 1 -> 0 <= round6 p /\ round6 p <= 1.
Proof.
  intros H0 H1. unfold round6.
  pose proof (round_half_even_close (p * 1000000)) as C.
  set (r := round_half_even (p * 1000000)) in *.
  assert (R0 : (0 <= r)%Z).
  { apply Z.lt_succ_r. rewrite Zlt_Qlt. rewrite <- Z.add_1_r, inject_Z_plus.
    change (inject_Z 0) with 0. change (inject_Z 1) with 1. lra. }
  assert (R1 : (r <= 1000000)%Z).
  { apply Z.lt_succ_r. rewrite Zlt_Qlt. rewrite <- Z.add_1_r, inject_Z_plus.
    change (inject_Z 1000000) with 1000000. change (inject_Z 1) with 1. lra. }
  rewrite Zle_Qle in R0, R1.
  change (inject_Z 0) with 0 in R0. change (inject_Z 1000000) with 1000000 in R1.
  split.
  - apply Qle_shift_div_l; lra.
  - apply Qle_shift_div_r; lra.
Qed.

Lemma fmt_unit (p : Q) : 0 <= p -> p <= 1 -> 0 <= _fmt p /\ _fmt p <= 1.
Proof.
  intros H0 H1. unfold _fmt.
  destruct (Qltb (Qabs p) (1 # 1000000000000000)).
  - apply round6_unit; lra.
  - apply round6_unit; assumption.
Qed.

Lemma norm4_unit (grp : list Q) :
  List.length grp = 4%nat -> Forall (fun v => 0 <= v) grp ->
  Forall (fun p => 0 <= p /\ p <= 1) (norm4 grp).
Proof.
  intros L F. destruct (four_elements grp L) as (a & b & c & d & ->).
  unfold norm4. rewrite sum4.
  inversion F as [|? ? Ha F1]; subst. inversion F1 as [|? ? Hb F2]; subst.
  inversion F2 as [|? ? Hc F3]; subst. inversion F3 as [|? ? Hd _]; subst.
  destruct (Qgtb (0 + a + b + c + d) 0) eqn:G.
  - apply Qgtb_lt in G. cbn [map].
    repeat constructor;
      try (apply Qle_shift_div_l; lra); try (apply Qle_shift_div_r; lra).
  - repeat constructor; lra.
Qed.

End FractionFacts.

Section FractionProperties.

Import Step4Calc3.

Lemma pad_row_length (row : list cell) : List.length (pad_row row) = 20%nat.
Proof.
  unfold pad_row. change TOTAL_COLS with 20%nat.
  rewrite length_app, length_firstn, repeat_length. lia.
Qed.

Lemma process_row_fractions (row : list cell) (vals : list Q) :
  mapM _to_float (pad_row row) = ret vals ->
  exists out,
    process_row row = ret out /\ List.length vals = 20%nat /\ List.length out = 20%nat /\
    (Forall (fun v => 0 <= v) vals -> Forall (fun p => 0 <= p /\ p <= 1) out).
Proof.
  intros E.
  assert (L : List.length vals = 20%nat).
  { rewrite (mapM_length _ _ E). apply pad_row_length. }
  destruct (split_groups vals L) as (g0 & g1 & g2 & g3 & g4 & -> & H0 & H1 & H2 & H3 & H4).
  exists (map _fmt (norm4 g0 ++ norm4 g1 ++ norm4 g2 ++ norm4 g3 ++ norm4 g4)).
  split; [|split; [exact L|split]].
  - unfold process_row. rewrite E. cbn [bind ret].
    rewrite normalize_vals_groups by assumption. reflexivity.
  - rewrite length_map, !length_app, !norm4_length by assumption. reflexivity.
  - intros F. rewrite !Forall_app in F. destruct F as (F0 & F1 & F2 & F3 & F4).
    apply Forall_map.
    assert (U : forall grp, List.length grp = 4%nat -> Forall (fun v => 0 <= v) grp ->
                Forall (fun x => 0 <= _fmt x /\ _fmt x <= 1) (norm4 grp)).
    { intros grp Hl Hf. eapply Forall_impl; [|apply (@norm4_unit grp Hl Hf)].
      intros p [P0 P1]. apply fmt_unit; assumption. }
    rewrite !Forall_app. repeat split; apply U; assumption.
Qed.

(** X25.  [build_mixbin_percentages] on a file whose cells, after each row
    is cut or padded to 20 cells, are all numbers or empty: it returns one
    row of 20 values per input row, whatever the lengths of the input
    rows, and reports that number of rows and 20 columns.  Every value
    written for a row whose 20 inputs are not negative lies between 0 and
    1, rounding included.  (A cell that is not a number makes the whole
    call fail with [ValueError].) *)
Theorem percentages_written (rows : list (list cell)) (vals_rows : list (list Q)) :
  mapM (fun row => mapM _to_float (pad_row row)) rows = ret vals_rows ->
  exists out_rows,
    build_mixbin_percentages (Some rows) = ret (out_rows, List.length rows, TOTAL_COLS) /\
    List.length out_rows = List.length rows /\
    List.length vals_rows = List.length rows /\
    forall i, (i < List.length rows)%nat ->
      List.length (nth i vals_rows []) = 20%nat /\
      List.length (nth i out_rows []) = 20%nat /\
      (Forall (fun v => 0 <= v) (nth i vals_rows []) ->
       Forall (fun p => 0 <= p /\ p <= 1) (nth i out_rows [])).
Proof.
  intros E.
  assert (G : exists out_rows,
             mapM process_row rows = ret out_rows /\
             List.length out_rows = List.length rows /\
             List.length vals_rows = List.length rows /\
             forall i, (i < List.length rows)%nat ->
               List.length (nth i vals_rows []) = 20%nat /\
               List.length (nth i out_rows []) = 20%nat /\
               (Forall (fun v => 0 <= v) (nth i vals_rows []) ->
                Forall (fun p => 0 <= p /\ p <= 1) (nth i out_rows []))).
  { revert vals_rows E. induction rows as [|row rows IH]; intros vals_rows E.
    - cbn [mapM] in E. injection E as <-. exists []. repeat split; try reflexivity.
      all: simpl in H; lia.
    - cbn [mapM] in E.
      destruct (mapM _to_float (pad_row row)) as [e|vals] eqn:Er; [discriminate|].
      cbn [bind] in E.
      destruct (mapM (fun row0 => mapM _to_float (pad_row row0)) rows) as [e|vs] eqn:Es;
        [discriminate|].
      cbn [bind] in E. injection E as <-.
      destruct (@process_row_fractions row vals Er) as (out & Po & Lv & Lo & Fo).
      destruct (IH vs eq_refl) as (outs & Ps & L1 & L2 & Fs).
      exists (out :: outs). cbn [mapM]. rewrite Po, Ps. cbn [bind ret List.length].
      split; [reflexivity|]. split; [congruence|]. split; [congruence|].
      intros i Hi. destruct i as [|i]; cbn [nth].
      + auto.
      + apply Fs. lia. }
  destruct G as (out_rows & M & L1 & L2 & F).
  exists out_rows. split; [|auto].
  unfold build_mixbin_percentages.
  destruct rows as [|row rows].
  - cbn [mapM] in M. injection M as <-. reflexivity.
  - rewrite M. cbn [bind ret]. rewrite L1. reflexivity.
Qed.

Lemma percentages_written_witness :
  exists out_rows,
    build_mixbin_percentages (Some [[Number 1; Number 3]; []])
    = ret (out_rows, List.length [[Number 1; Number 3]; ([] : list cell)], TOTAL_COLS) /\
    List.length out_rows = List.length [[Number 1; Number 3]; ([] : list cell)] /\
    List.length [[1; 3; 0; 0; 0; 0; 0; 0; 0; 0; 0; 0; 0; 0; 0; 0; 0; 0; 0; 0];
                 [0; 0; 0; 0; 0; 0; 0; 0; 0; 0; 0; 0; 0; 0; 0; 0; 0; 0; 0; 0]]
    = List.length [[Number 1; Number 3]; ([] : list cell)] /\
    forall i, (i < List.length [[Number 1; Number 3]; ([] : list cell)])%nat ->
      List.length (nth i [[1; 3; 0; 0; 0; 0; 0; 0; 0; 0; 0; 0; 0; 0; 0; 0; 0; 0; 0; 0];
                          [0; 0; 0; 0; 0; 0; 0; 0; 0; 0; 0; 0; 0; 0; 0; 0; 0; 0; 0; 0]] [])
      = 20%nat /\
      List.length (nth i out_rows []) = 20%nat /\
      (Forall (fun v => 0 <= v)
              (nth i [[1; 3; 0; 0; 0; 0; 0; 0; 0; 0; 0; 0; 0; 0; 0; 0; 0; 0; 0; 0];
                      [0; 0; 0; 0; 0; 0; 0; 0; 0; 0; 0; 0; 0; 0; 0; 0; 0; 0; 0; 0]] []) ->
       Forall (fun p => 0 <= p /\ p <= 1) (nth i out_rows [])).
Proof.
  apply (@percentages_written [[Number 1; Number 3]; []]
           [[1; 3; 0; 0; 0; 0; 0; 0; 0; 0; 0; 0; 0; 0; 0; 0; 0; 0; 0; 0];
            [0; 0; 0; 0; 0; 0; 0; 0; 0; 0; 0; 0; 0; 0; 0; 0; 0; 0; 0; 0]]).
  reflexivity.
Defined.

End FractionProperties.
